(** * AnkiLingoFlash: the provider gateway, the credential vault and the
      translation cache

    A shallow embedding of the parts of [src/common/background_common.js] and
    [src/common/content.js] that store the provider credential, talk to the
    language-model provider, classify its failures and cache translations.

    Conventions.
    - Ordinary text (messages, storage keys, prompts) is a [string]: a
      sequence of char codes below 256, searched with [includes].
    - The provider secret and its password go through [TextEncoder] and
      [TextDecoder]; they are modelled as the language has them, as sequences
      of UTF-16 code units ([jsstring]).
    - A [Uint8Array] is a [list byte]; a JavaScript array of numbers is a
      [list Z].
    - [chrome.storage.sync] is a record of the keys the program uses; the
      conversations and the cached translations are finite maps inside it.
    - What the browser provides (WebCrypto, [chrome.i18n], [JSON.parse], the
      texts of the engine's own errors) is a [Platform] record; the network
      is a function from requests to what [fetch] does with them. *)

From Stdlib Require Import ZArith Lia List String Ascii.
From Stdlib.Strings Require Import Byte.
From stdpp Require Import base option list strings gmap.

Local Open Scope Z_scope.
Set Warnings "-register-all".

(* ===================================================================== *)
(** * Part I: the program                                                 *)
(* ===================================================================== *)

(** ** Bytes and typed arrays *)

Module Bytes.

(** [new Uint8Array(numbers)]: each number is reduced modulo 256. *)
Definition byte_of_Z (z : Z) : byte :=
  match Byte.of_N (Z.to_N (z mod 256)) with
  | Some b => b
  | None => x00
  end.

(** [Array.from(uint8array)]: each byte becomes a number in [0, 255]. *)
Definition Z_of_byte (b : byte) : Z := Z.of_N (Byte.to_N b).

Definition Uint8Array_from (numbers : list Z) : list byte :=
  map byte_of_Z numbers.

Definition Array_from (u : list byte) : list Z := map Z_of_byte u.

(** [b.toString(16).padStart(2, "0")] for a byte [b]. *)
Definition hex_digit (d : Z) : ascii :=
  if d <? 10 then ascii_of_N (Z.to_N (48 + d))
  else ascii_of_N (Z.to_N (87 + d)).

Definition hex2 (b : byte) : string :=
  let z := Z_of_byte b in
  String (hex_digit (z / 16)) (String (hex_digit (z mod 16)) EmptyString).

End Bytes.

(** ** Text: UTF-16 strings, [TextEncoder] and [TextDecoder] *)

Module Text.
Import Bytes.

(** A JavaScript string: its UTF-16 code units, each in [0, 65535]. *)
Definition jsstring : Type := list Z.

Definition is_code_unit (c : Z) : bool := (0 <=? c) && (c <? 65536).
Definition is_lead (c : Z) : bool := (55296 <=? c) && (c <=? 56319).
Definition is_trail (c : Z) : bool := (56320 <=? c) && (c <=? 57343).

Definition REPLACEMENT : Z := 65533.   (* U+FFFD *)
Definition BOM : Z := 65279.           (* U+FEFF *)

(** A string of the 8-bit model read as a JavaScript string. *)
Fixpoint of_string (s : string) : jsstring :=
  match s with
  | EmptyString => []
  | String a r => Z.of_N (N_of_ascii a) :: of_string r
  end.

(** Conversion of a JavaScript string to scalar values, as done on the
    argument of [TextEncoder.encode]: a surrogate pair is one code point, a
    surrogate on its own becomes U+FFFD. *)
Fixpoint to_scalars (s : jsstring) : list Z :=
  match s with
  | [] => []
  | c :: r =>
      if is_lead c then
        match r with
        | t :: r' =>
            if is_trail t
            then (65536 + Z.shiftl (c - 55296) 10 + (t - 56320)) :: to_scalars r'
            else REPLACEMENT :: to_scalars r
        | [] => [REPLACEMENT]
        end
      else if is_trail c then REPLACEMENT :: to_scalars r
      else c :: to_scalars r
  end.

(** The UTF-8 encoder, one code point at a time: the first byte carries the
    high bits and the length, each following byte six more bits. *)
Definition continuation (cp : Z) (k : Z) : byte :=
  byte_of_Z (Z.lor 128 (Z.land (Z.shiftr cp (6 * k)) 63)).

Definition utf8_encode_scalar (cp : Z) : list byte :=
  if cp <=? 127 then [byte_of_Z cp]
  else if cp <=? 2047 then
    [byte_of_Z (Z.shiftr cp 6 + 192); continuation cp 0]
  else if cp <=? 65535 then
    [byte_of_Z (Z.shiftr cp 12 + 224); continuation cp 1; continuation cp 0]
  else
    [byte_of_Z (Z.shiftr cp 18 + 240); continuation cp 2; continuation cp 1;
     continuation cp 0].

Definition utf8_encode (cps : list Z) : list byte :=
  flat_map utf8_encode_scalar cps.

(** [new TextEncoder().encode(s)]. *)
Definition TextEncoder_encode (s : jsstring) : list byte :=
  utf8_encode (to_scalars s).

(** The UTF-8 decoder: the code point being assembled, the bytes seen and
    needed, and the bounds the next byte has to lie in. *)
Record decoder := {
  code_point : Z;
  bytes_seen : Z;
  bytes_needed : Z;
  lower_boundary : Z;
  upper_boundary : Z
}.

Definition decoder_init : decoder :=
  {| code_point := 0; bytes_seen := 0; bytes_needed := 0;
     lower_boundary := 128; upper_boundary := 191 |}.

(** A byte read while no sequence is open: the code points it emits and
    the decoder afterwards. *)
Definition decode_lead (b : Z) : list Z * decoder :=
  if b <=? 127 then ([b], decoder_init)
  else if (194 <=? b) && (b <=? 223) then
    ([], {| code_point := Z.land b 31; bytes_seen := 0; bytes_needed := 1;
            lower_boundary := 128; upper_boundary := 191 |})
  else if (224 <=? b) && (b <=? 239) then
    ([], {| code_point := Z.land b 15; bytes_seen := 0; bytes_needed := 2;
            lower_boundary := if b =? 224 then 160 else 128;
            upper_boundary := if b =? 237 then 159 else 191 |})
  else if (240 <=? b) && (b <=? 244) then
    ([], {| code_point := Z.land b 7; bytes_seen := 0; bytes_needed := 3;
            lower_boundary := if b =? 240 then 144 else 128;
            upper_boundary := if b =? 244 then 143 else 191 |})
  else ([REPLACEMENT], decoder_init).

Definition decode_byte (d : decoder) (b : Z) : list Z * decoder :=
  if bytes_needed d =? 0 then decode_lead b
  else if negb ((lower_boundary d <=? b) && (b <=? upper_boundary d)) then
    (* the open sequence is dropped and the byte is read again *)
    let '(out, d') := decode_lead b in (REPLACEMENT :: out, d')
  else
    let cp := Z.lor (Z.shiftl (code_point d) 6) (Z.land b 63) in
    if bytes_seen d + 1 =? bytes_needed d then ([cp], decoder_init)
    else ([], {| code_point := cp; bytes_seen := bytes_seen d + 1;
                 bytes_needed := bytes_needed d;
                 lower_boundary := 128; upper_boundary := 191 |}).

Fixpoint utf8_decode_from (d : decoder) (bs : list byte) : list Z :=
  match bs with
  | [] => if bytes_needed d =? 0 then [] else [REPLACEMENT]
  | b :: r =>
      let '(out, d') := decode_byte d (Z_of_byte b) in
      out ++ utf8_decode_from d' r
  end.

Definition utf8_decode (bs : list byte) : list Z :=
  utf8_decode_from decoder_init bs.

(** A decoder made with [new TextDecoder()] removes a leading byte order
    mark from what it returns. *)
Definition strip_BOM (cps : list Z) : list Z :=
  match cps with
  | c :: r => if c =? BOM then r else cps
  | [] => []
  end.

Definition utf16_encode_scalar (cp : Z) : list Z :=
  if cp <? 65536 then [cp]
  else [55296 + Z.shiftr (cp - 65536) 10; 56320 + Z.land (cp - 65536) 1023].

Definition utf16_encode (cps : list Z) : jsstring :=
  flat_map utf16_encode_scalar cps.

(** [new TextDecoder().decode(bytes)]. *)
Definition TextDecoder_decode (bs : list byte) : jsstring :=
  utf16_encode (strip_BOM (utf8_decode bs)).

(** A string with no surrogate outside a pair. *)
Fixpoint well_formed (s : jsstring) : bool :=
  match s with
  | [] => true
  | c :: r =>
      if is_lead c then
        match r with
        | t :: r' => is_trail t && well_formed r'
        | [] => false
        end
      else negb (is_trail c) && is_code_unit c && well_formed r
  end.

(** [String.prototype.trim]: white space and line terminators. *)
Definition is_white_space (c : Z) : bool :=
  ((9 <=? c) && (c <=? 13)) || (c =? 32) || (c =? 160) || (c =? 5760)
  || ((8192 <=? c) && (c <=? 8202)) || (c =? 8232) || (c =? 8233)
  || (c =? 8239) || (c =? 8287) || (c =? 12288) || (c =? 65279).

Fixpoint trim_start (s : jsstring) : jsstring :=
  match s with
  | c :: r => if is_white_space c then trim_start r else s
  | [] => []
  end.

Definition trim (s : jsstring) : jsstring :=
  rev (trim_start (rev (trim_start s))).

End Text.

(** ** What the browser provides *)

(** An exception raised by the engine rather than by [new Error(...)] in the
    program; the text of its message is the engine's. *)
Inductive fault :=
  | ReadOfNull (property : string)   (* TypeError: property of null *)
  | NotAFunction (name : string).    (* TypeError: x.f is not a function *)

Module Json.

(** JavaScript values as they come out of [JSON.parse] and of property
    access.  Numbers are the integers. *)
Inductive value :=
  | VUndefined
  | VNull
  | VBool (b : bool)
  | VNum (n : Z)
  | VStr (s : string)
  | VArr (items : list value)
  | VObj (fields : list (string * value)).

End Json.

Record Platform := {
  (** [crypto.subtle.deriveKey] over an imported PBKDF2 password:
      password bytes, salt, iterations, hash name, key length in bits. *)
  PBKDF2_deriveKey : list byte -> list byte -> Z -> string -> Z -> list byte;
  (** [crypto.subtle.encrypt] and [decrypt] with AES-GCM: key, iv, data.
      Decryption rejects ([None]) when authentication fails. *)
  AES_GCM_encrypt : list byte -> list byte -> list byte -> list byte;
  AES_GCM_decrypt : list byte -> list byte -> list byte -> option (list byte);
  (** [chrome.i18n.getMessage(name, substitutions)]. *)
  getMessage : string -> list string -> string;
  (** [JSON.parse(x)]: the value, or the message of the SyntaxError. *)
  JSON_parse : Json.value -> string + Json.value;
  (** The message the engine gives to one of its own exceptions. *)
  fault_message : fault -> string;
  (** [CONFIG.DEFAULT_REMOTE_MODEL], from [config.js]. *)
  DEFAULT_REMOTE_MODEL : string
}.

(** AES-GCM decrypts what it encrypted under the same key and iv. *)
Definition AES_GCM_correct (pf : Platform) : Prop :=
  forall key iv data,
    AES_GCM_decrypt pf key iv (AES_GCM_encrypt pf key iv data) = Some data.

(** ** The random source *)

Module Random.

(** [crypto.getRandomValues]: the bytes the source will give, and how many
    have been taken. *)
Record source := { tape : nat -> byte; taken : nat }.

Definition getRandomValues (n : nat) (r : source) : list byte * source :=
  (map (tape r) (seq (taken r) n),
   {| tape := tape r; taken := (taken r + n)%nat |}).

End Random.

(** ** The credential vault *)

Module Vault.
Import Bytes Text Random.

(** What [encryptApiKey] returns and storage keeps: three arrays of
    numbers. *)
Record EncryptedBlob := {
  salt : list Z;
  iv : list Z;
  encrypted : list Z
}.

Section WithPlatform.
Variable pf : Platform.

(** [importKey("raw", encoder.encode(password), PBKDF2)] followed by
    [deriveKey] with 100000 iterations of SHA-256 to an AES-GCM key of
    256 bits. *)
Definition derivePasswordKey (password : jsstring) (salt : list byte)
  : list byte :=
  PBKDF2_deriveKey pf (TextEncoder_encode password) salt 100000 "SHA-256" 256.

Definition encryptApiKey (apiKey password : jsstring) (r : source)
  : EncryptedBlob * source :=
  let data := TextEncoder_encode apiKey in
  let '(salt, r1) := getRandomValues 16 r in
  let derivedKey := derivePasswordKey password salt in
  let '(iv, r2) := getRandomValues 12 r1 in
  let encrypted := AES_GCM_encrypt pf derivedKey iv data in
  ({| salt := Array_from salt; iv := Array_from iv;
      encrypted := Array_from encrypted |}, r2).

(** [None] when [crypto.subtle.decrypt] rejects. *)
Definition decryptApiKey (encryptedData : EncryptedBlob)
  (password : jsstring) : option jsstring :=
  let derivedKey :=
    derivePasswordKey password (Uint8Array_from (salt encryptedData)) in
  match AES_GCM_decrypt pf derivedKey (Uint8Array_from (iv encryptedData))
          (Uint8Array_from (encrypted encryptedData)) with
  | Some decrypted => Some (TextDecoder_decode decrypted)
  | None => None
  end.

End WithPlatform.

(** [generateInstallationPassword]: 32 random bytes in hexadecimal. *)
Definition generateInstallationPassword (r : source) : string * source :=
  let '(bs, r') := getRandomValues 32 r in
  (fold_right (fun b acc => String.append (hex2 b) acc) EmptyString bs, r').

End Vault.

(** ** Strings of the program *)

Module Js.

Definition code (a : ascii) : Z := Z.of_N (N_of_ascii a).

(** [s.includes(needle)]. *)
Fixpoint includes (needle s : string) : bool :=
  String.prefix needle s ||
  match s with
  | String _ r => includes needle r
  | EmptyString => false
  end.

(** [s.toLowerCase()] on char codes below 256: the letters A-Z and the
    capital letters of Latin-1 (U+00C0-U+00DE but the sign U+00D7). *)
Definition lower (a : ascii) : ascii :=
  let c := code a in
  if ((65 <=? c) && (c <=? 90))
     || ((192 <=? c) && (c <=? 222) && negb (c =? 215))
  then ascii_of_N (Z.to_N (c + 32)) else a.

Fixpoint toLowerCase (s : string) : string :=
  match s with
  | EmptyString => EmptyString
  | String a r => String (lower a) (toLowerCase r)
  end.

(** Comparison of a pattern character with a character of the input under
    the flag [i] of a regular expression: the letters a-z match their
    capitals; a character of the pattern (all are below 128 here) never
    matches a character above 127. *)
Definition fold_case (a : ascii) : Z :=
  let c := code a in
  if (97 <=? c) && (c <=? 122) then c - 32 else c.

Definition same_ignoring_case (a b : ascii) : bool :=
  fold_case a =? fold_case b.

(** What is left of [s] after a piece of the pattern matched at its
    start. *)
Fixpoint skip_literal (lit s : string) : option string :=
  match lit with
  | EmptyString => Some s
  | String a lit' =>
      match s with
      | String b s' =>
          if same_ignoring_case a b then skip_literal lit' s' else None
      | EmptyString => None
      end
  end.

(** The dot of a regular expression matches all but line terminators. *)
Definition is_line_terminator (a : ascii) : bool :=
  (code a =? 10) || (code a =? 13).

(** The pieces of a pattern, in order, each followed by [.*], matched from
    the start of [s]. *)
Fixpoint match_pieces (pieces : list string) (s : string) : bool :=
  match pieces with
  | [] => true
  | lit :: rest =>
      match skip_literal lit s with
      | None => false
      | Some after =>
          (fix gap (t : string) : bool :=
             match_pieces rest t ||
             match t with
             | String c r => negb (is_line_terminator c) && gap r
             | EmptyString => false
             end) after
      end
  end.

Fixpoint search_pieces (pieces : list string) (s : string) : bool :=
  match_pieces pieces s ||
  match s with
  | String _ r => search_pieces pieces r
  | EmptyString => false
  end.

(** The pieces of a pattern between its [.*]. *)
Fixpoint split_gaps (acc pattern : string) : list string :=
  match pattern with
  | EmptyString => [acc]
  | String "." (String "*" r) => acc :: split_gaps EmptyString r
  | String a r => split_gaps (acc +:+ String a EmptyString) r
  end.

(** [new RegExp(pattern, 'i').test(s)], for the patterns of this program:
    literal text with [.*] in between. *)
Definition RegExp_test_i (pattern s : string) : bool :=
  search_pieces (split_gaps EmptyString pattern) s.

(** A number in a template literal. *)
Definition digit (d : Z) : ascii := ascii_of_N (Z.to_N (48 + d)).

Fixpoint decimal_digits (fuel : nat) (n : Z) (acc : string) : string :=
  match fuel with
  | O => acc
  | S fuel' =>
      let acc' := String (digit (n mod 10)) acc in
      if n <? 10 then acc' else decimal_digits fuel' (n / 10) acc'
  end.

Definition String_of_number (n : Z) : string :=
  if n <? 0
  then String "-" (decimal_digits (S (Z.to_nat (Z.log2 (- n)))) (- n) EmptyString)
  else decimal_digits (S (Z.to_nat (Z.log2 n))) n EmptyString.

(** [n.toString(36)]. *)
Definition digit36 (d : Z) : ascii :=
  if d <? 10 then ascii_of_N (Z.to_N (48 + d))
  else ascii_of_N (Z.to_N (87 + d)).

Fixpoint base36_digits (fuel : nat) (n : Z) (acc : string) : string :=
  match fuel with
  | O => acc
  | S fuel' =>
      let acc' := String (digit36 (n mod 36)) acc in
      if n <? 36 then acc' else base36_digits fuel' (n / 36) acc'
  end.

Definition toString36 (n : Z) : string :=
  if n <? 0
  then String "-" (base36_digits (S (Z.to_nat (Z.log2 (- n)))) (- n) EmptyString)
  else base36_digits (S (Z.to_nat (Z.log2 n))) n EmptyString.

(** The conversion to a 32-bit integer done by the bitwise operators. *)
Definition ToInt32 (z : Z) : Z := (z + 2147483648) mod 4294967296 - 2147483648.

End Js.

(** ** Values: truthiness and property access *)

Module JsonOps.
Import Json.

Definition truthy (v : value) : bool :=
  match v with
  | VUndefined | VNull => false
  | VBool b => b
  | VNum n => negb (n =? 0)
  | VStr s => negb (String.eqb s EmptyString)
  | VArr _ | VObj _ => true
  end.

(** [a || b]. *)
Definition or_else (a b : value) : value := if truthy a then a else b.

Fixpoint lookup_field (p : string) (fields : list (string * value)) : value :=
  match fields with
  | [] => VUndefined
  | (k, v) :: rest => if String.eqb k p then v else lookup_field p rest
  end.

(** [v.p] on a value that is neither [null] nor [undefined], for the
    property names this program reads (none is [length] or an index):
    only an object has them. *)
Definition prop (v : value) (p : string) : value :=
  match v with
  | VObj fields => lookup_field p fields
  | _ => VUndefined
  end.

Definition is_nullish (v : value) : bool :=
  match v with
  | VUndefined | VNull => true
  | _ => false
  end.

(** [v?.p]. *)
Definition prop_opt (v : value) (p : string) : value :=
  if is_nullish v then VUndefined else prop v p.

(** [v === "s"]. *)
Definition is_string (v : value) (s : string) : bool :=
  match v with
  | VStr t => String.eqb t s
  | _ => false
  end.

(** [items[0]]. *)
Definition first (items : list value) : value :=
  match items with
  | v :: _ => v
  | [] => VUndefined
  end.

(** [obj.p = x] on an object. *)
Fixpoint assign_field (p : string) (x : value) (fields : list (string * value))
  : list (string * value) :=
  match fields with
  | [] => [(p, x)]
  | (k, v) :: rest =>
      if String.eqb k p then (k, x) :: rest else (k, v) :: assign_field p x rest
  end.

(** [Object.keys(v)]. *)
Definition keys (v : value) : list string :=
  match v with
  | VObj fields => map fst fields
  | _ => []
  end.

(** [l.slice(-2)]. *)
Definition slice_last2 {A} (l : list A) : list A :=
  skipn (length l - 2)%nat l.

End JsonOps.

(** ** [chrome.storage.sync] *)

Module Store.
Import Json Vault.

(** A stored conversation: its array of messages. *)
Record Conversation := { messages : list value }.

(** A cached translation. *)
Record CacheEntry := {
  translation : value;
  timestamp : Z;
  sourceText : string;
  targetLanguage : string
}.

(** The keys this program reads and writes.  A key that is absent, [null]
    or [false] reads as [None] or [false]; the conversations live under
    the keys [conversation_...], the translations under
    [translation_cache_...]. *)
Record Storage := {
  isOwnCredits : bool;
  selectedProvider : option string;
  encryptedApiKey : option EncryptedBlob;
  encryptedGoogleApiKey : option EncryptedBlob;
  installationPassword : option string;
  apiKeyValidated : bool;
  googleApiKeyValidated : bool;
  learningGoal : option string;
  model : option string;
  googleModel : option string;
  conversations : gmap string Conversation;
  translations : gmap string CacheEntry
}.

(** The storage right after installation (the defaults of [onInstalled]
    leave the credential keys absent). *)
Definition fresh (default_model default_google_model : string) : Storage :=
  {| isOwnCredits := false; selectedProvider := Some "openai";
     encryptedApiKey := None; encryptedGoogleApiKey := None;
     installationPassword := None;
     apiKeyValidated := false; googleApiKeyValidated := false;
     learningGoal := None;
     model := Some default_model; googleModel := Some default_google_model;
     conversations := ∅; translations := ∅ |}.

Definition with_conversation (key : string) (c : Conversation) (s : Storage)
  : Storage :=
  {| isOwnCredits := isOwnCredits s; selectedProvider := selectedProvider s;
     encryptedApiKey := encryptedApiKey s;
     encryptedGoogleApiKey := encryptedGoogleApiKey s;
     installationPassword := installationPassword s;
     apiKeyValidated := apiKeyValidated s;
     googleApiKeyValidated := googleApiKeyValidated s;
     learningGoal := learningGoal s;
     model := model s; googleModel := googleModel s;
     conversations := <[key := c]> (conversations s);
     translations := translations s |}.

Definition with_translation (key : string) (e : CacheEntry) (s : Storage)
  : Storage :=
  {| isOwnCredits := isOwnCredits s; selectedProvider := selectedProvider s;
     encryptedApiKey := encryptedApiKey s;
     encryptedGoogleApiKey := encryptedGoogleApiKey s;
     installationPassword := installationPassword s;
     apiKeyValidated := apiKeyValidated s;
     googleApiKeyValidated := googleApiKeyValidated s;
     learningGoal := learningGoal s;
     model := model s; googleModel := googleModel s;
     conversations := conversations s;
     translations := <[key := e]> (translations s) |}.

(** [x || fallback] for a stored string. *)
Definition string_or (x : option string) (fallback : string) : string :=
  match x with
  | Some s => if String.eqb s EmptyString then fallback else s
  | None => fallback
  end.

End Store.

(** ** The gateway: [callAIProviderAPI] and what it calls *)

Module Http.
Import Json Text.

(** What is handed to [fetch].  The secret is kept apart from the text
    around it: [authorization] is the key after [Bearer], [key_parameter]
    the one after [?key=] ([None] there stands for [null]). *)
Record Request := {
  url : string;
  authorization : option jsstring;
  key_parameter : option (option jsstring);
  body : value
}.

(** A response: [json] is what [response.json()] resolves with, or the
    message it rejects with. *)
Record Response := {
  status : Z;
  statusText : string;
  json : string + value
}.

(** [response.ok]: the status is in the range 200 to 299. *)
Definition ok (r : Response) : bool := (200 <=? status r) && (status r <=? 299).

(** [fetch] rejects (no response was obtained), resolves, or never
    settles: the program gives it no timeout and no signal to abort. *)
Inductive FetchResult :=
  | FetchRejects (message : string)
  | FetchResolves (r : Response)
  | FetchStalls.

End Http.

Module Err.
Import Json.

(** An exception object: an [Error] and the fields the program adds to
    it. *)
Record t := {
  message : string;
  status : option Z;
  errorData : option value;
  isUnsupportedModel : option bool
}.

(** [new Error(message)]. *)
Definition Error (message : string) : t :=
  {| message := message; status := None; errorData := None;
     isUnsupportedModel := None |}.

End Err.

Module Gateway.
Import Json JsonOps Js Text Vault Store Http.

Definition FLASHCARD : string := "flashcard".
Definition DEFINITION : string := "definition".
Definition MNEMONIC : string := "mnemonic".
Definition TRANSLATION : string := "translation".
Definition EXAMPLES : string := "examples".
Definition TRANSLATION_POPUP : string := "translation_popup".

(** [Object.values(CONVERSATION_TYPES)]. *)
Definition CONVERSATION_TYPES : list string :=
  [FLASHCARD; DEFINITION; MNEMONIC; TRANSLATION; EXAMPLES; TRANSLATION_POPUP].

Definition OPENAI : string := "openai".
Definition GOOGLE : string := "google".

Definition GOOGLE_API_BASE_URL : string :=
  "https://generativelanguage.googleapis.com/v1beta".
Definition DEFAULT_GOOGLE_MODEL : string :=
  "models/gemini-2.5-flash-preview-05-20".

(** The network and the storage service as one call meets them. *)
Record World := {
  fetch : Request -> FetchResult;
  (** [chrome.storage.sync.set] of a conversation: the message it rejects
      with, if it does. *)
  sync_set_error : string -> Conversation -> option string
}.

(** The storage, and the requests sent so far (latest first). *)
Record State := { storage : Storage; sent : list Request }.

(** How an asynchronous computation ends: it throws, it returns, or it
    waits for ever on a [fetch] that never settles. *)
Inductive Result (A : Type) :=
  | Throws (e : Err.t)
  | Returns (a : A)
  | Stalls.
Arguments Throws {A} e.
Arguments Returns {A} a.
Arguments Stalls {A}.

Definition M (A : Type) : Type := State -> Result A * State.

Definition ret {A} (a : A) : M A := fun st => (Returns a, st).
Definition throw {A} (e : Err.t) : M A := fun st => (Throws e, st).
Definition bind {A B} (m : M A) (k : A -> M B) : M B :=
  fun st =>
    match m st with
    | (Returns a, st') => k a st'
    | (Throws e, st') => (Throws e, st')
    | (Stalls, st') => (Stalls, st')
    end.

Notation "x <- m ;; k" := (bind m (fun x => k))
  (at level 60, m at next level, right associativity).

(** The message objects the program builds. *)
Definition message_object (role content : string) : value :=
  VObj [("role", VStr role); ("content", VStr content)].

(** [`conversation_${userId}_${type}`]. *)
Definition conversation_key (userId type : string) : string :=
  "conversation_" +:+ userId +:+ "_" +:+ type.

(** [isNetworkError(error, status)]; [message] is [error.message]. *)
Definition isNetworkError (message : string) (status : Z) : bool :=
  if includes "Failed to fetch" message
     || includes "Network request failed" message
     || (includes "fetch" message && includes "timeout" message)
  then true
  else if (500 <=? status) && (status <? 600) then true
  else false.

Definition modelErrorIndicators : list string :=
  ["does not exist"; "invalid model"; "not found"; "is not supported";
   "unknown model";
   "response_format.*json_schema.*is not supported with this model";
   "json_schema.*is not supported";
   "structured outputs.*not supported"].

Definition googleModelErrorIndicators : list string :=
  ["not found"; "invalid model"; "does not exist"; "unknown model";
   "is not supported"].

(** The test of one indicator in the branch of [invalid_request_error]. *)
Definition openai_indicator_matches (errorMessage indicator : string) : bool :=
  if includes ".*" indicator then RegExp_test_i indicator errorMessage
  else includes indicator (toLowerCase errorMessage).

(** A value inside a template literal: the conversion of the language to
    a string.  An array is the texts of its items between commas, with
    nothing for [null] and [undefined]. *)
Fixpoint template_text (v : value) : string :=
  match v with
  | VStr s => s
  | VNum n => String_of_number n
  | VBool true => "true"
  | VBool false => "false"
  | VNull => "null"
  | VUndefined => "undefined"
  | VArr items =>
      String.concat ","
        (map (fun item =>
                match item with
                | VUndefined | VNull => EmptyString
                | _ => template_text item
                end) items)
  | VObj _ => "[object Object]"
  end.

(** [await response.json().catch(() => ({}))]. *)
Definition error_payload (response : Response) : value :=
  match json response with
  | inr v => v
  | inl _ => VObj []
  end.

(** [errorData.error?.message || response.statusText], as text. *)
Definition provider_message (errorData : value) (response : Response) : string :=
  template_text
    (or_else (prop_opt (prop errorData "error") "message")
       (VStr (statusText response))).

(** [messages[0] = m]: the array grows when it was empty. *)
Definition assign_first (m : value) (l : list value) : list value :=
  match l with
  | [] => [m]
  | _ :: rest => m :: rest
  end.

(** The trimming of both branches:
    [[messages[0], ...messages.slice(-2)]]. *)
Definition keep_system_and_last_pair (l : list value) : list value :=
  first l :: slice_last2 l.

(** [!apiKeyToUse]: [null] and the empty string are falsy. *)
Definition truthy_key (k : option jsstring) : bool :=
  match k with
  | Some (_ :: _) => true
  | _ => false
  end.

(** [Object.values(CONVERSATION_TYPES).includes(type)]. *)
Definition is_conversation_type (type : string) : bool :=
  existsb (String.eqb type) CONVERSATION_TYPES.

(** The schema asked of the provider.  [ty] and [obj] are ["string"] and
    ["object"] for one provider, ["STRING"] and ["OBJECT"] for the other;
    [closed] adds [additionalProperties: false]. *)
Definition described (ty description : string) : value :=
  VObj [("type", VStr ty); ("description", VStr description)].

Definition object_schema (obj : string) (closed : bool)
  (properties : list (string * value)) (required : list string) : value :=
  VObj ([("type", VStr obj);
         ("properties", VObj properties);
         ("required", VArr (map VStr required))]
        ++ (if closed then [("additionalProperties", VBool false)] else [])).

Definition example_description (nth what language learningGoal : string)
  : string :=
  nth +:+ " example sentence using the " +:+ what
  +:+ " in the same language as the given term. Consider the learning goal: "
  +:+ learningGoal.

Definition purpose_schema (ty obj : string) (closed : bool)
  (type userMessage language learningGoal : string) : value :=
  if String.eqb type FLASHCARD then
    let includeMnemonic := includes "mnemonic" userMessage in
    object_schema obj closed
      ([("definition",
         described ty ("A clear and concise definition of the term or concept in "
                       +:+ language));
        ("translation",
         described ty ("A direct translation of the term, in " +:+ language +:+ "."));
        ("example_1",
         described ty (example_description "First" "term or expression"
                         language learningGoal));
        ("example_2",
         described ty (example_description "Second" "term or expression"
                         language learningGoal));
        ("example_3",
         described ty (example_description "Third" "term or expression"
                         language learningGoal))]
       ++ (if includeMnemonic
           then [("mnemonic",
                  described ty ("A memory aid to help remember the definition in "
                                +:+ language))]
           else []))
      (["definition"; "translation"; "example_1"; "example_2"; "example_3"]
       ++ (if includeMnemonic then ["mnemonic"] else []))
  else if String.eqb type EXAMPLES then
    object_schema obj closed
      [("example_1",
        described ty (example_description "First" "term" language learningGoal));
       ("example_2",
        described ty (example_description "Second" "term" language learningGoal));
       ("example_3",
        described ty (example_description "Third" "term" language learningGoal))]
      ["example_1"; "example_2"; "example_3"]
  else if String.eqb type TRANSLATION_POPUP then
    object_schema obj closed
      [("translation",
        described ty ("A direct translation of the term, in " +:+ language +:+ "."))]
      ["translation"]
  else (* Definition, Mnemonic, Translation *)
    object_schema obj closed
      [(type,
        described ty ("The " +:+ type +:+ " for the term or expression in "
                      +:+ language))]
      [type].

Definition schema_name (type : string) : string :=
  if String.eqb type FLASHCARD then "flashcard_response"
  else if String.eqb type EXAMPLES then "examples_response"
  else if String.eqb type TRANSLATION_POPUP then "translation_response"
  else "component_response".

(** [responseFormat] of the OpenAI branch. *)
Definition responseFormat (type userMessage language learningGoal : string)
  : value :=
  VObj [("type", VStr "json_schema");
        ("json_schema",
         VObj [("name", VStr (schema_name type));
               ("schema",
                purpose_schema "string" "object" true
                  type userMessage language learningGoal);
               ("strict", VBool true)])].

(** [googleResponseSchema] of the Google branch. *)
Definition googleResponseSchema (type userMessage language learningGoal : string)
  : value :=
  purpose_schema "STRING" "OBJECT" false type userMessage language learningGoal.

Section WithWorld.
Variable pf : Platform.
Variable w : World.

(** An exception of the engine. *)
Definition raise {A} (f : fault) : M A :=
  throw (Err.Error (fault_message pf f)).

(** [v.p] on any value: reading a property of [null] or [undefined]
    throws. *)
Definition get (v : value) (p : string) : M value :=
  if is_nullish v then raise (ReadOfNull p) else ret (prop v p).

(** [errorMessage.toLowerCase()] exists on strings only. *)
Definition as_text (v : value) : M string :=
  match v with
  | VStr s => ret s
  | _ => raise (NotAFunction "toLowerCase")
  end.

Definition isUnsupportedModelError (errorData : value) (status : Z) : M bool :=
  error <- get errorData "error" ;;
  if truthy error then
    let errorType := prop error "type" in
    let errorMessage := or_else (prop error "message") (VStr "") in
    if is_string errorType "invalid_request_error" then
      text <- as_text errorMessage ;;
      ret (existsb (openai_indicator_matches text) modelErrorIndicators)
    else
      text <- as_text errorMessage ;;
      ret (existsb (fun indicator => includes indicator (toLowerCase text))
             googleModelErrorIndicators)
  else ret false.

Definition getSystemPrompt (type learningGoal : string) : string :=
  if String.eqb type FLASHCARD
  then getMessage pf "generateFlashcardInstructions" [learningGoal]
  else if String.eqb type DEFINITION
  then getMessage pf "helpfulAssistantDefinition" []
  else if String.eqb type MNEMONIC
  then getMessage pf "creativeAssistantMnemonic" []
  else if String.eqb type TRANSLATION
  then getMessage pf "translationAssistant" []
  else if String.eqb type EXAMPLES
  then getMessage pf "examplesAssistant" [learningGoal]
  else if String.eqb type TRANSLATION_POPUP
  then getMessage pf "translationAssistant" []
  else getMessage pf "generateFlashcardInstructions" [learningGoal].

(** [await chrome.storage.sync.set({ [key]: conversation })]. *)
Definition sync_set_conversation (key : string) (c : Conversation) : M unit :=
  fun st =>
    match sync_set_error w key c with
    | Some message => (Throws (Err.Error message), st)
    | None =>
        (Returns tt, {| storage := with_conversation key c (storage st);
                        sent := sent st |})
    end.

Definition getOrCreateConversation (userId type learningGoal : string)
  : M Conversation :=
  let key := conversation_key userId type in
  let systemPrompt := getSystemPrompt type learningGoal in
  fun st =>
    match conversations (storage st) !! key with
    | Some c =>
        (Returns {| messages :=
                      assign_first (message_object "system" systemPrompt)
                        (messages c) |}, st)
    | None =>
        let newConversation :=
          {| messages := [message_object "system" systemPrompt] |} in
        (_ <- sync_set_conversation key newConversation ;;
         ret newConversation) st
    end.

(** [await fetch(url, ...)]. *)
Definition do_fetch (request : Request) : M Response :=
  fun st =>
    let st' := {| storage := storage st; sent := request :: sent st |} in
    match fetch w request with
    | FetchRejects message => (Throws (Err.Error message), st')
    | FetchResolves r => (Returns r, st')
    | FetchStalls => (Stalls, st')
    end.

(** [await response.json()]. *)
Definition response_json (r : Response) : M value :=
  match json r with
  | inr v => ret v
  | inl message => throw (Err.Error message)
  end.

(** The branch [if (!response.ok)] of both providers; [prefix] is
    ["HTTP error! status: "] or ["Google API HTTP error! status: "]. *)
Definition throw_http_error {A} (prefix : string) (response : Response) : M A :=
  let errorData := error_payload response in
  isUnsupportedModel <- isUnsupportedModelError errorData (status response) ;;
  let text := provider_message errorData response in
  let isNetworkErr := isNetworkError text (status response) in
  throw {| Err.message :=
             prefix +:+ String_of_number (status response)
             +:+ ", message: " +:+ text;
           Err.status := Some (status response);
           Err.errorData := Some errorData;
           Err.isUnsupportedModel :=
             Some (isUnsupportedModel && negb isNetworkErr) |}.

(** The OpenAI branch of the [try] block; [Some data] is
    [resolve(data)]. *)
Definition openai_exchange (result : Storage)
  (userId type userMessage language learningGoal : string)
  (apiKeyToUse : option jsstring) (conversation : Conversation)
  (systemPromptText : string) : M (option value) :=
  role0 <-
    match messages conversation with
    | [] => ret VUndefined
    | m :: _ => get m "role"
    end ;;
  let messages1 :=
    match messages conversation with
    | [] => [message_object "system" systemPromptText]
    | m :: rest =>
        if negb (is_string role0 "system")
        then message_object "system" systemPromptText :: m :: rest
        else
          match m with
          | VObj fields =>
              VObj (assign_field "content" (VStr systemPromptText) fields) :: rest
          | _ => m :: rest
          end
    end in
  let messages2 := messages1 ++ [message_object "user" userMessage] in
  let url :=
    if isOwnCredits result
    then "https://api.openai.com/v1/chat/completions"
    else "https://anki-lingo-flash.piriouvictor.workers.dev/api/chat" in
  let modelToUse :=
    if isOwnCredits result
    then string_or (model result) (DEFAULT_REMOTE_MODEL pf)
    else DEFAULT_REMOTE_MODEL pf in
  let apiRequestBody :=
    VObj ([("model", VStr modelToUse);
           ("messages", VArr messages2);
           ("response_format",
            responseFormat type userMessage language learningGoal)]
          ++ (if isOwnCredits result then [] else [("userId", VStr userId)])) in
  response <-
    do_fetch {| url := url;
                authorization :=
                  if isOwnCredits result then apiKeyToUse else None;
                key_parameter := None;
                body := apiRequestBody |} ;;
  if negb (ok response) then throw_http_error "HTTP error! status: " response
  else
    data <- response_json response ;;
    choices <- get data "choices" ;;
    match choices with
    | VArr (choice :: _) =>
        assistantMessage <- get choice "message" ;;
        if negb (truthy assistantMessage)
           || negb (truthy (prop assistantMessage "content"))
        then throw (Err.Error "Invalid API response: missing message content")
        else
          let messages3 := messages2 ++ [assistantMessage] in
          let conversation' :=
            {| messages := keep_system_and_last_pair messages3 |} in
          _ <- sync_set_conversation (conversation_key userId type) conversation' ;;
          match JSON_parse pf (prop assistantMessage "content") with
          | inr parsed => ret (Some parsed)
          | inl message => throw (Err.Error message)
          end
    | _ =>
        throw (Err.Error "Invalid API response: missing or empty choices array")
    end.

(** The Google branch of the [try] block. *)
Definition google_exchange (result : Storage)
  (userId type userMessage language learningGoal : string)
  (apiKeyToUse : option jsstring) (conversation : Conversation)
  (systemPromptText : string) : M (option value) :=
  let modelToUse := string_or (googleModel result) DEFAULT_GOOGLE_MODEL in
  let url := GOOGLE_API_BASE_URL +:+ "/" +:+ modelToUse +:+ ":generateContent" in
  let googleContents :=
    [VObj [("role", VStr "user");
           ("parts",
            VArr [VObj [("text",
                         VStr (systemPromptText +:+ String (ascii_of_N 10)
                                 (String (ascii_of_N 10) "User query: ")
                               +:+ userMessage))]])]] in
  let requestBody :=
    VObj [("contents", VArr googleContents);
          ("generationConfig",
           VObj [("responseMimeType", VStr "application/json");
                 ("responseSchema",
                  googleResponseSchema type userMessage language learningGoal)])] in
  response <-
    do_fetch {| url := url; authorization := None;
                key_parameter := Some apiKeyToUse;
                body := requestBody |} ;;
  if negb (ok response)
  then throw_http_error "Google API HTTP error! status: " response
  else
    data <- response_json response ;;
    candidates <- get data "candidates" ;;
    let malformed {A} : M A :=
      throw (Err.Error
               "Invalid Google API response: missing or malformed content") in
    match candidates with
    | VArr (candidate :: _) =>
        content <- get candidate "content" ;;
        if negb (truthy content) then malformed
        else
          match prop content "parts" with
          | VArr (part :: _) =>
              assistantResponseText <- get part "text" ;;
              if negb (truthy assistantResponseText) then malformed
              else
                let messages1 :=
                  messages conversation
                  ++ [message_object "user" userMessage]
                  ++ [VObj [("role", VStr "assistant");
                            ("content", assistantResponseText)]] in
                role0 <- get (first messages1) "role" ;;
                let messages2 :=
                  if is_string role0 "system"
                  then keep_system_and_last_pair messages1
                  else slice_last2 messages1 in
                _ <- sync_set_conversation (conversation_key userId type)
                       {| messages := messages2 |} ;;
                match JSON_parse pf assistantResponseText with
                | inr parsed => ret (Some parsed)
                | inl message => throw (Err.Error message)
                end
          | _ => malformed
          end
    | _ => malformed
    end.

(** The credential checks at the head of [callAIProviderAPI]: the error
    given to [reject], or the key to use. *)
Definition resolve_credential (result : Storage) (provider : string)
  (apiKey : option jsstring) : Err.t + option jsstring :=
  if isOwnCredits result && String.eqb provider OPENAI
     && negb (apiKeyValidated result)
  then inl (Err.Error (getMessage pf "enterValidApiKey" []))
  else if isOwnCredits result && String.eqb provider GOOGLE
          && negb (googleApiKeyValidated result)
  then inl (Err.Error (getMessage pf "enterValidGoogleApiKey" []))
  else
    let decrypted : Err.t + option jsstring :=
      if isOwnCredits result && negb (truthy_key apiKey) then
        let encryptedKey :=
          if String.eqb provider GOOGLE then encryptedGoogleApiKey result
          else encryptedApiKey result in
        match encryptedKey, installationPassword result with
        | Some blob, Some password =>
            if String.eqb password EmptyString
            then inl (Err.Error
                        (getMessage pf
                           (if String.eqb provider GOOGLE
                            then "googleApiKeyMissingOrNotEncrypted"
                            else "apiKeyMissingOrNotEncrypted") []))
            else
              match decryptApiKey pf blob (of_string password) with
              | Some key => inr (Some key)
              | None =>
                  inl (Err.Error (getMessage pf "failedToDecryptApiKey" []))
              end
        | _, _ =>
            inl (Err.Error
                   (getMessage pf
                      (if String.eqb provider GOOGLE
                       then "googleApiKeyMissingOrNotEncrypted"
                       else "apiKeyMissingOrNotEncrypted") []))
        end
      else inr apiKey in
    match decrypted with
    | inl e => inl e
    | inr apiKeyToUse =>
        if negb (truthy_key apiKeyToUse) && isOwnCredits result
        then inl (Err.Error
                    (getMessage pf
                       (if String.eqb provider GOOGLE then "googleApiKeyMissing"
                        else "apiKeyMissing") []))
        else inr apiKeyToUse
    end.

(** The body of the [try] block. *)
Definition exchange (result : Storage) (provider : string)
  (userId type userMessage language learningGoal : string)
  (apiKeyToUse : option jsstring) : M (option value) :=
  conversation <- getOrCreateConversation userId type learningGoal ;;
  let systemPromptText := getSystemPrompt type learningGoal in
  if String.eqb provider OPENAI then
    openai_exchange result userId type userMessage language learningGoal
      apiKeyToUse conversation systemPromptText
  else if String.eqb provider GOOGLE then
    google_exchange result userId type userMessage language learningGoal
      apiKeyToUse conversation systemPromptText
  else ret None.

End WithWorld.

(** What the promise of [callAIProviderAPI] is rejected with: an [Error]
    (no provider) or the object built in the [catch] block. *)
Module Rejection.
Record t := {
  message : string;
  status : option Z;
  errorData : option value;
  isUnsupportedModel : option bool;
  provider : option string
}.
End Rejection.

(** [reject(new Error(...))]. *)
Definition reject_Error (e : Err.t) : Rejection.t :=
  {| Rejection.message := Err.message e;
     Rejection.status := Err.status e;
     Rejection.errorData := Err.errorData e;
     Rejection.isUnsupportedModel := Err.isUnsupportedModel e;
     Rejection.provider := None |}.

(** The object of the [catch] block. *)
Definition enhancedError (e : Err.t) (provider : string) : Rejection.t :=
  {| Rejection.message := Err.message e;
     Rejection.status := Err.status e;
     Rejection.errorData := Err.errorData e;
     Rejection.isUnsupportedModel := Err.isUnsupportedModel e;
     Rejection.provider := Some provider |}.

(** The promise is resolved, rejected, or left unsettled. *)
Inductive Settled :=
  | Resolved (data : value)
  | Rejected (e : Rejection.t)
  | Pending.

Definition callAIProviderAPI (pf : Platform) (w : World)
  (userId type userMessage language : string) (apiKey : option jsstring)
  (st : State) : Settled * State :=
  let result := storage st in
  let provider := string_or (selectedProvider result) OPENAI in
  let learningGoal := string_or (learningGoal result) "General language learning" in
  match resolve_credential pf result provider apiKey with
  | inl e => (Rejected (reject_Error e), st)
  | inr apiKeyToUse =>
      if negb (is_conversation_type type)
      then (Rejected (reject_Error
                        (Err.Error ("Invalid conversation type: " +:+ type))), st)
      else
        match exchange pf w result provider userId type userMessage language
                learningGoal apiKeyToUse st with
        | (Returns (Some data), st') => (Resolved data, st')
        | (Returns None, st') => (Pending, st')
        | (Throws error, st') => (Rejected (enhancedError error provider), st')
        | (Stalls, st') => (Pending, st')
        end
  end.

(** The message [{action: "callChatGPTAPI", ...}]. *)
Record ChatRequest := {
  userId : string;
  type : string;
  message : string;
  language : string;
  apiKey : option jsstring
}.

(** What [sendResponse] is called with.  In a failure the keys [error],
    [status], [errorData] and [provider] are always set (to [undefined]
    when the rejection has none); [isUnsupportedModel] is set, to [true],
    only when the rejection carries it. *)
Inductive GatewayResponse :=
  | Success (data : value)
  | Failure (error : string) (status : option Z) (errorData : option value)
      (provider : option string) (isUnsupportedModel : bool).

(** [if (error.isUnsupportedModel)]. *)
Definition flagged (flag : option bool) : bool :=
  match flag with
  | Some true => true
  | _ => false
  end.

(** The branch [request.action === "callChatGPTAPI"] of the message
    listener: the response sent, if one is. *)
Definition onMessage_callChatGPTAPI (pf : Platform) (w : World)
  (request : ChatRequest) (st : State) : option GatewayResponse * State :=
  match callAIProviderAPI pf w (userId request) (type request)
          (message request) (language request) (apiKey request) st with
  | (Resolved data, st') => (Some (Success data), st')
  | (Rejected error, st') =>
      (Some (Failure (Rejection.message error) (Rejection.status error)
               (Rejection.errorData error) (Rejection.provider error)
               (flagged (Rejection.isUnsupportedModel error))), st')
  | (Pending, st') => (None, st')
  end.

End Gateway.

(** ** The content script: the translation cache and the error messages *)

Module Content.
Import Json JsonOps Js Store.

(** [createTextHash]: [hash = ((hash << 5) - hash) + char; hash = hash & hash]
    over the char codes, then [hash.toString(36)]. *)
Fixpoint hash_from (hash : Z) (text : string) : Z :=
  match text with
  | EmptyString => hash
  | String char rest =>
      hash_from (ToInt32 (ToInt32 (hash * 32) - hash + code char)) rest
  end.

Definition createTextHash (text : string) : string :=
  toString36 (hash_from 0 text).

Definition createTranslationCacheKey (text language : string) : string :=
  "translation_cache_" +:+ createTextHash text +:+ "_" +:+ language.

Definition TWENTY_FOUR_HOURS : Z := 24 * 60 * 60 * 1000.

(** [now] is [Date.now()]. *)
Definition isTranslationExpired (now timestamp : Z) : bool :=
  (now - timestamp) >? TWENTY_FOUR_HOURS.

(** The value the promise resolves with: the translation, or [null]. *)
Definition getCachedTranslation (text language : string) (now : Z)
  (st : Storage) : value :=
  match translations st !! createTranslationCacheKey text language with
  | Some cacheEntry =>
      if negb (isTranslationExpired now (timestamp cacheEntry))
      then translation cacheEntry
      else VNull
  | None => VNull
  end.

Definition setCachedTranslation (text language : string) (translation : value)
  (now : Z) (st : Storage) : Storage :=
  with_translation (createTranslationCacheKey text language)
    {| translation := translation; timestamp := now;
       sourceText := text; targetLanguage := language |} st.

(** The [switch (status)] of [getApiErrorMessage]: the name of the message
    for a status, given the lower-cased text of the error. *)
Definition message_for_status (status : Z) (errorMessage provider : string)
  : string :=
  if status =? 400 then
    if String.eqb provider "google"
       && includes "free tier is not available" errorMessage
    then "apiError400FailedPrecondition"
    else "apiError400InvalidRequest"
  else if status =? 401 then
    if includes "incorrect" errorMessage || includes "invalid" errorMessage
    then "apiError401IncorrectKey"
    else if includes "organization" errorMessage
    then "apiError401NotMember"
    else "apiError401InvalidAuth"
  else if status =? 403 then
    if includes "country" errorMessage || includes "region" errorMessage
       || includes "territory" errorMessage
       || includes "not supported" errorMessage
    then "apiError403CountryNotSupported"
    else "apiError403PermissionDenied"
  else if status =? 404 then "apiError404NotFound"
  else if status =? 429 then
    if includes "quota" errorMessage || includes "credits" errorMessage
       || includes "billing" errorMessage
       || includes "exceeded" errorMessage
    then "apiError429QuotaExceeded"
    else if includes "slow down" errorMessage
    then "apiError503SlowDown"
    else "apiError429RateLimit"
  else if status =? 500 then "apiError500ServerError"
  else if status =? 503 then
    if includes "overloaded" errorMessage || includes "capacity" errorMessage
    then "apiError503ServiceUnavailable"
    else if includes "slow down" errorMessage
    then "apiError503SlowDown"
    else "apiError503ServiceUnavailable"
  else if status =? 504 then "apiError504Timeout"
  else "apiErrorGeneric".

(** [getApiErrorMessage(error, provider)], up to the localisation: the
    name of the message it asks [chrome.i18n] for.  [None] when
    [toLowerCase] is called on what is not a string. *)
Definition getApiErrorMessageKey (status : option Z) (message : string)
  (errorData : option value) (provider : string) : option string :=
  let errorData :=
    match errorData with
    | Some d => or_else d (VObj [])
    | None => VObj []
    end in
  match or_else (or_else (prop_opt (prop errorData "error") "message")
                   (VStr message)) (VStr "") with
  | VStr text =>
      let errorMessage := toLowerCase text in
      if negb (String.eqb message EmptyString)
         && (includes "Failed to fetch" message
             || includes "Network request failed" message
             || includes "network" message
             || includes "connection" message)
      then Some "networkError"
      else if negb (String.eqb message EmptyString) && includes "JSON" message
      then Some "jsonParseError"
      else
        match status with
        | Some n => Some (message_for_status n errorMessage provider)
        | None => Some "apiErrorGeneric"
        end
  | _ => None
  end.

Definition getApiErrorMessage (pf : Platform) (status : option Z)
  (message : string) (errorData : option value) (provider : string)
  : option string :=
  match getApiErrorMessageKey status message errorData provider with
  | Some key => Some (getMessage pf key [])
  | None => None
  end.

(** The cascade that two of the four callers of the gateway share in
    their branch of failure, [proceedWithFlashcardGeneration] and
    [regenerateContent]: the name of the message shown, [None] when
    [getApiErrorMessage] throws; [fallback] is the caller's own generic
    message.  The other two callers, [requestTranslation] and
    [proceedWithFlashcardGenerationWithTranslation], have no such cascade:
    see [Callers] below. *)
Definition failure_message_key (fallback : string)
  (response : Gateway.GatewayResponse) : option string :=
  match response with
  | Gateway.Success _ => None
  | Gateway.Failure error status errorData provider isUnsupportedModel =>
      let provider := string_or provider "openai" in
      if isUnsupportedModel then Some "unsupportedModelError"
      else
        match status with
        | Some n =>
            if n =? 0 then Some fallback
            else
              getApiErrorMessageKey (Some n) error
                (Some (match errorData with
                       | Some d =>
                           or_else d
                             (VObj [("error", VObj [("message", VStr error)])])
                       | None => VObj [("error", VObj [("message", VStr error)])]
                       end))
                provider
        | None => Some fallback
        end
  end.

End Content.

(** ** The options page: [handleValidateApiKey] *)

Module Options.
Import Text Vault Store Random.

(** The object given to [chrome.storage.sync.set]: for each key, whether
    it is written ([Some]) and with what; a written [None] is [null]. *)
Record StorageUpdate := {
  set_isOwnCredits : option bool;
  set_installationPassword : option string;
  set_encryptedApiKey : option (option EncryptedBlob);
  set_encryptedGoogleApiKey : option (option EncryptedBlob);
  set_apiKeyValidated : option bool;
  set_googleApiKeyValidated : option bool;
  set_model : option (option string);
  set_googleModel : option (option string)
  }.

Definition written {A} (u : option A) (old : A) : A :=
  match u with
  | Some x => x
  | None => old
  end.

(** [chrome.storage.sync.set(update)]: the keys of the update replace the
    stored ones, the others stay. *)
Definition sync_set (u : StorageUpdate) (s : Storage) : Storage :=
  {| isOwnCredits := written (set_isOwnCredits u) (isOwnCredits s);
     selectedProvider := selectedProvider s;
     encryptedApiKey := written (set_encryptedApiKey u) (encryptedApiKey s);
     encryptedGoogleApiKey :=
       written (set_encryptedGoogleApiKey u) (encryptedGoogleApiKey s);
     installationPassword :=
       match set_installationPassword u with
       | Some p => Some p
       | None => installationPassword s
       end;
     apiKeyValidated := written (set_apiKeyValidated u) (apiKeyValidated s);
     googleApiKeyValidated :=
       written (set_googleApiKeyValidated u) (googleApiKeyValidated s);
     learningGoal := learningGoal s;
     model := written (set_model u) (model s);
     googleModel := written (set_googleModel u) (googleModel s);
     conversations := conversations s;
     translations := translations s |}.

(** What comes back from the validation message: [chrome.runtime.lastError]
    set, or the [valid] of the response. *)
Inductive Validation :=
  | LastError
  | Answer (valid : bool).

(** [handleValidateApiKey]: the update it hands to storage, if any.
    [input] is the value of the key field, [selectedProvider] that of the
    provider selector. *)
Definition handleValidateApiKey (pf : Platform) (input : jsstring)
  (selectedProvider : string) (validation : Validation) (r : source)
  : option StorageUpdate * source :=
  let apiKey := trim input in
  match apiKey with
  | [] => (None, r)
  | _ :: _ =>
      match validation with
      | LastError => (None, r)
      | Answer true =>
          let '(installationPassword, r1) := generateInstallationPassword r in
          let '(encryptedApiKey, r2) :=
            encryptApiKey pf apiKey (of_string installationPassword) r1 in
          if String.eqb selectedProvider Gateway.GOOGLE then
            (Some {| set_isOwnCredits := Some true;
                     set_installationPassword := Some installationPassword;
                     set_encryptedGoogleApiKey := Some (Some encryptedApiKey);
                     set_encryptedApiKey := Some None;
                     set_googleApiKeyValidated := Some true;
                     set_apiKeyValidated := Some false;
                     set_model := Some None;
                     set_googleModel := None |}, r2)
          else
            (Some {| set_isOwnCredits := Some true;
                     set_installationPassword := Some installationPassword;
                     set_encryptedApiKey := Some (Some encryptedApiKey);
                     set_encryptedGoogleApiKey := Some None;
                     set_apiKeyValidated := Some true;
                     set_googleApiKeyValidated := Some false;
                     set_googleModel := Some None;
                     set_model := None |}, r2)
      | Answer false =>
          if String.eqb selectedProvider Gateway.GOOGLE then
            (Some {| set_isOwnCredits := None; set_installationPassword := None;
                     set_encryptedApiKey := None;
                     set_encryptedGoogleApiKey := None;
                     set_apiKeyValidated := None;
                     set_googleApiKeyValidated := Some false;
                     set_model := None; set_googleModel := None |}, r)
          else
            (Some {| set_isOwnCredits := None; set_installationPassword := None;
                     set_encryptedApiKey := None;
                     set_encryptedGoogleApiKey := None;
                     set_apiKeyValidated := Some false;
                     set_googleApiKeyValidated := None;
                     set_model := None; set_googleModel := None |}, r)
      end
  end.

End Options.

(** ** Text put into a page: [escapeHTML] *)

Module Html.

(** [s.replace(/c/g, by)] for a pattern of one character. *)
Fixpoint replace_all (c : ascii) (by_text : string) (s : string) : string :=
  match s with
  | EmptyString => EmptyString
  | String a r =>
      if Ascii.eqb a c then by_text +:+ replace_all c by_text r
      else String a (replace_all c by_text r)
  end.

Definition AMPERSAND : ascii := ascii_of_N 38.
Definition LESS_THAN : ascii := ascii_of_N 60.
Definition GREATER_THAN : ascii := ascii_of_N 62.
Definition QUOTATION_MARK : ascii := ascii_of_N 34.
Definition APOSTROPHE : ascii := ascii_of_N 39.

(** [escapeHTML]: five replacements, one after the other, the ampersand
    first. *)
Definition escapeHTML (unsafeText : string) : string :=
  replace_all APOSTROPHE "&#039;"
    (replace_all QUOTATION_MARK "&quot;"
       (replace_all GREATER_THAN "&gt;"
          (replace_all LESS_THAN "&lt;"
             (replace_all AMPERSAND "&amp;" unsafeText)))).

End Html.

(** ** The other messages the background script answers *)

Module Background.
Import Json JsonOps Js Text Vault Store Http Gateway.

(** What the validation of a key is answered with:
    [{ valid: true }] or [{ valid: false, error }]. *)
Inductive KeyCheck :=
  | Valid
  | Invalid (error : string).

(** What [fetchModels] and [fetchGoogleModels] are answered with:
    [{ models }] or [{ error }]. *)
Inductive ModelsAnswer :=
  | Models (models : value)
  | ModelsError (error : string).

(** What [getApiKey] is answered with: [{ apiKey }] or [{ error }]. *)
Inductive ApiKeyAnswer :=
  | ApiKey (apiKey : jsstring)
  | NoApiKey (error : string).

Definition OPENAI_MODELS_URL : string := "https://api.openai.com/v1/models".
Definition GOOGLE_MODELS_URL : string := GOOGLE_API_BASE_URL +:+ "/models".
(** Where the worker of the extension lists its models. *)
Definition WORKER_MODELS_URL : string :=
  "https://anki-lingo-flash.piriouvictor.workers.dev/api/models".

(** [x.length] for a value that is neither [null] nor [undefined]. *)
Definition length_of (x : value) : value :=
  match x with
  | VArr items => VNum (Z.of_nat (List.length items))
  | VStr s => VNum (Z.of_nat (String.length s))
  | VObj fields => lookup_field "length" fields
  | _ => VUndefined
  end.

Section WithWorld.
Variable pf : Platform.
Variable w : World.
(** [JSON.stringify(x)] for a value that came out of [response.json()]. *)
Variable JSON_stringify : value -> string.
(** [Number(s) > 0] for a string [s]. *)
Variable is_positive_number : string -> bool.

(** [x > 0]. *)
Definition gt_zero (x : value) : bool :=
  match x with
  | VNum n => 0 <? n
  | VBool b => b
  | VStr s => is_positive_number s
  | VArr _ => is_positive_number (template_text x)
  | VUndefined | VNull | VObj _ => false
  end.

(** The promise chain of [validateApiKey], before its [catch]. *)
Definition validateApiKey_chain (apiKey : jsstring) : M unit :=
  response <-
    do_fetch w {| url := OPENAI_MODELS_URL; authorization := Some apiKey;
                  key_parameter := None; body := VUndefined |} ;;
  if negb (ok response)
  then throw (Err.Error ("HTTP error! status: "
                         +:+ String_of_number (status response)))
  else
    _ <- response_json response ;;
    ret tt.

(** The branch [request.action === "validateApiKey"] of the listener:
    what [sendResponse] is called with, if it is called. *)
Definition onMessage_validateApiKey (apiKey : option jsstring) (st : State)
  : option KeyCheck * State :=
  if negb (truthy_key apiKey) then (Some (Invalid "Invalid API key format"), st)
  else
    match validateApiKey_chain (default [] apiKey) st with
    | (Returns _, st') => (Some Valid, st')
    | (Throws error, st') => (Some (Invalid (Err.message error)), st')
    | (Stalls, st') => (None, st')
    end.

(** The text after the status in the error of [validateGoogleApiKey]:
    [errorData.error?.message || JSON.stringify(errorData)], or the status
    text when the body is not JSON or is [null]. *)
Definition google_error_detail (response : Response) : string :=
  match json response with
  | inr errorData =>
      if is_nullish errorData then statusText response
      else
        template_text
          (or_else (prop_opt (prop errorData "error") "message")
             (VStr (JSON_stringify errorData)))
  | inl _ => statusText response
  end.

(** The promise chain of [validateGoogleApiKey], before its [catch]:
    whether models were listed. *)
Definition validateGoogleApiKey_chain (apiKey : jsstring) : M bool :=
  response <-
    do_fetch w {| url := GOOGLE_MODELS_URL; authorization := None;
                  key_parameter := Some (Some apiKey); body := VUndefined |} ;;
  if negb (ok response)
  then throw (Err.Error ("HTTP error! status: "
                         +:+ String_of_number (status response)
                         +:+ " - " +:+ google_error_detail response))
  else
    data <- response_json response ;;
    models <- get pf data "models" ;;
    ret (truthy models && gt_zero (length_of models)).

(** The branch [request.action === "validateGoogleApiKey"]. *)
Definition onMessage_validateGoogleApiKey (apiKey : option jsstring)
  (st : State) : option KeyCheck * State :=
  if negb (truthy_key apiKey)
  then (Some (Invalid "Invalid Google API key format"), st)
  else
    match validateGoogleApiKey_chain (default [] apiKey) st with
    | (Returns true, st') => (Some Valid, st')
    | (Returns false, st') =>
        (Some (Invalid "No models found with this key, or key is invalid."),
         st')
    | (Throws error, st') => (Some (Invalid (Err.message error)), st')
    | (Stalls, st') => (None, st')
    end.

(** [x.map(item => item.p)]: reading [map] of [null] or [undefined]
    throws, and so does calling it on what is not an array. *)
Fixpoint each_property (p : string) (items : list value) : M (list value) :=
  match items with
  | [] => ret []
  | item :: rest =>
      x <- get pf item p ;;
      xs <- each_property p rest ;;
      ret (x :: xs)
  end.

Definition map_property (p : string) (x : value) : M value :=
  match x with
  | VArr items =>
      mapped <- each_property p items ;;
      ret (VArr mapped)
  | VUndefined | VNull => raise pf (ReadOfNull "map")
  | _ => raise pf (NotAFunction "map")
  end.

(** The promise chain of [fetchModels], before its [catch]: the ids of
    the models. *)
Definition fetchModels_chain (apiKey : jsstring) : M value :=
  response <-
    do_fetch w {| url := OPENAI_MODELS_URL; authorization := Some apiKey;
                  key_parameter := None; body := VUndefined |} ;;
  if negb (ok response)
  then throw (Err.Error ("HTTP error! status: "
                         +:+ String_of_number (status response)))
  else
    data <- response_json response ;;
    listed <- get pf data "data" ;;
    map_property "id" listed.

(** The branch [request.action === "fetchModels"]. *)
Definition onMessage_fetchModels (apiKey : jsstring) (st : State)
  : option ModelsAnswer * State :=
  match fetchModels_chain apiKey st with
  | (Returns models, st') => (Some (Models models), st')
  | (Throws error, st') => (Some (ModelsError (Err.message error)), st')
  | (Stalls, st') => (None, st')
  end.

(** The promise chain of [fetchGoogleModels], before its [catch]: the
    names of the models. *)
Definition fetchGoogleModels_chain (apiKey : jsstring) : M value :=
  response <-
    do_fetch w {| url := GOOGLE_MODELS_URL; authorization := None;
                  key_parameter := Some (Some apiKey); body := VUndefined |} ;;
  if negb (ok response)
  then throw (Err.Error ("HTTP error! status: "
                         +:+ String_of_number (status response)
                         +:+ " - " +:+ google_error_detail response))
  else
    data <- response_json response ;;
    models <- get pf data "models" ;;
    if truthy models then map_property "name" models else ret (VArr []).

(** The branch [request.action === "fetchGoogleModels"]. *)
Definition onMessage_fetchGoogleModels (apiKey : jsstring) (st : State)
  : option ModelsAnswer * State :=
  match fetchGoogleModels_chain apiKey st with
  | (Returns models, st') => (Some (Models models), st')
  | (Throws error, st') => (Some (ModelsError (Err.message error)), st')
  | (Stalls, st') => (None, st')
  end.

(** The branch [request.action === "getApiKey"]. *)
Definition onMessage_getApiKey (result : Storage) : ApiKeyAnswer :=
  let provider := string_or (selectedProvider result) OPENAI in
  let encryptedKey :=
    if String.eqb provider GOOGLE then encryptedGoogleApiKey result
    else encryptedApiKey result in
  match encryptedKey, installationPassword result with
  | Some blob, Some password =>
      if String.eqb password EmptyString
      then NoApiKey "API key not found for selected provider"
      else
        match decryptApiKey pf blob (of_string password) with
        | Some apiKey => ApiKey apiKey
        | None => NoApiKey "Failed to decrypt API key"
        end
  | _, _ => NoApiKey "API key not found for selected provider"
  end.

End WithWorld.

End Background.

(** ** AnkiConnect *)

Module Anki.
Import Json JsonOps Js Text Http Gateway.

(** What a promise of these functions comes to. *)
Inductive Outcome :=
  | Resolves (result : value)
  | Rejects (message : string)
  | NeverSettles.

(** The exceptions of the engine that a reply can provoke. *)
Inductive engine_fault :=
  | KeysOfNullish
  | InOperatorOnPrimitive (property : string).

Definition ANKI_CONNECT_URL : string := "http://127.0.0.1:8765".

(** The request of both the background script and the listener of
    [invokeAnkiConnect]: [{ action, version, params }], posted. *)
Definition invoke_request (action : string) (version : Z) (params : value)
  : Request :=
  {| url := ANKI_CONNECT_URL; authorization := None; key_parameter := None;
     body := VObj [("action", VStr action); ("version", VNum version);
                   ("params", params)] |}.

(** [Object.keys(x).length] for a value out of [response.json()], where an
    object has each of its keys once. *)
Definition count_keys (x : value) : engine_fault + Z :=
  match x with
  | VUndefined | VNull => inl KeysOfNullish
  | VBool _ | VNum _ => inr 0
  | VStr s => inr (Z.of_nat (String.length s))
  | VArr items => inr (Z.of_nat (List.length items))
  | VObj fields => inr (Z.of_nat (List.length fields))
  end.

(** [p in x], for a name [p] that is neither an index nor [length]. *)
Definition has_key (p : string) (x : value) : engine_fault + bool :=
  match x with
  | VObj fields => inr (existsb (String.eqb p) (map fst fields))
  | VArr _ => inr false
  | _ => inl (InOperatorOnPrimitive p)
  end.

Section WithPlatform.
Variable pf : Platform.
Variable w : World.
(** The message the engine gives to such an exception. *)
Variable engine_message : engine_fault -> string.
(** [error.toString()] for a rejection with a given message. *)
Variable error_toString : string -> string.

(** The second [then] of [invoke]: the reply is validated; [inl] is the
    message of what is thrown. *)
Definition validated (response : value) : string + value :=
  match count_keys response with
  | inl f => inl (engine_message f)
  | inr n =>
      if negb (n =? 2) then inl (getMessage pf "unexpectedFieldsError" [])
      else
        match has_key "error" response with
        | inl f => inl (engine_message f)
        | inr false => inl (getMessage pf "missingErrorField" [])
        | inr true =>
            match has_key "result" response with
            | inl f => inl (engine_message f)
            | inr false => inl (getMessage pf "missingResultField" [])
            | inr true =>
                if truthy (prop response "error")
                then inl (template_text (prop response "error"))
                else inr (prop response "result")
            end
        end
  end.

(** The [catch] of [invoke]: two messages become the one of the missing
    connection. *)
Definition caught (message : string) : Outcome :=
  if String.eqb message "Failed to fetch"
     || String.eqb message "Network response was not ok"
  then Rejects (getMessage pf "ankiConnectionFailed" [])
  else Rejects message.

(** [invoke] of the background script. *)
Definition invoke (action : string) (version : Z) (params : value) : Outcome :=
  match fetch w (invoke_request action version params) with
  | FetchStalls => NeverSettles
  | FetchRejects message => caught message
  | FetchResolves response =>
      if negb (ok response)
      then caught (getMessage pf "networkResponseError" [])
      else
        match json response with
        | inl message => caught message
        | inr reply =>
            match validated reply with
            | inl message => caught message
            | inr result => Resolves result
            end
        end
  end.

(** What the listener answers to [invokeAnkiConnect]:
    [{ success: true, data }] or [{ success: false, error }]. *)
Inductive Relayed :=
  | RelayedData (data : value)
  | RelayedError (error : string).

(** The branch [request.action === "invokeAnkiConnect"]: what
    [sendResponse] is called with, if it is called. *)
Definition onMessage_invokeAnkiConnect (params : value) : option Relayed :=
  match fetch w {| url := ANKI_CONNECT_URL; authorization := None;
                   key_parameter := None; body := params |} with
  | FetchStalls => None
  | FetchRejects message => Some (RelayedError (error_toString message))
  | FetchResolves response =>
      match json response with
      | inl message => Some (RelayedError (error_toString message))
      | inr data => Some (RelayedData data)
      end
  end.

(** [invoke] of the content script, which goes through the listener. *)
Definition page_invoke (action : string) (version : Z) (params : value)
  : Outcome :=
  match onMessage_invokeAnkiConnect
          (VObj [("action", VStr action); ("version", VNum version);
                 ("params", params)]) with
  | Some (RelayedData data) =>
      if is_nullish data then NeverSettles else Resolves (prop data "result")
  | Some (RelayedError error) => Rejects error
  | None => NeverSettles
  end.

(** [fetchDecks]: a failure becomes the empty list. *)
Definition fetchDecks : Outcome :=
  match page_invoke "deckNames" 6 (VObj []) with
  | Resolves result => Resolves result
  | Rejects _ => Resolves (VArr [])
  | NeverSettles => NeverSettles
  end.

End WithPlatform.

End Anki.

(** ** The content script: who may ask the gateway *)

Module Page.
Import Json JsonOps Js Text Store Gateway.

(** [isApiKeyValid]. *)
Definition isApiKeyValid (settings : Storage) : bool :=
  if negb (isOwnCredits settings) then true
  else
    let provider := string_or (selectedProvider settings) OPENAI in
    if String.eqb provider GOOGLE then googleApiKeyValidated settings
    else apiKeyValidated settings.

(** [checkAuth]: what the callback gets, and the name of the message
    shown, if one is.  [choice] and [user] are the stored keys of these
    names. *)
Definition checkAuth (choice : option string) (user : value) (result : Storage)
  : bool * option string :=
  if String.eqb (string_or choice EmptyString) "remote" then
    if isOwnCredits result then
      let provider := string_or (selectedProvider result) OPENAI in
      let isValid :=
        if String.eqb provider GOOGLE then googleApiKeyValidated result
        else apiKeyValidated result in
      if isValid then (true, None)
      else (false, Some "apiError401IncorrectKey")
    else if negb (truthy user) then (false, Some "pleaseLogInForFreeTrial")
    else (true, None)
  else (true, None).

End Page.

(** ** The options page: the list of models *)

Module ModelChoice.
Import Json JsonOps Js Store Gateway.

(** [s.substring(s.lastIndexOf(c) + 1)]: what follows the last [c], or
    all of [s] when it has none. *)
Fixpoint after_last (c : ascii) (s : string) : string :=
  match s with
  | EmptyString => EmptyString
  | String a r =>
      if includes (String c EmptyString) r then after_last c r
      else if Ascii.eqb a c then r
      else s
  end.

(** The test of the [filter]: a string of the family of the provider. *)
Definition of_family (provider : string) (model : value) : option string :=
  match model with
  | VStr name =>
      if String.eqb provider GOOGLE
      then if String.prefix "models/gemini-" name || String.prefix "gemini-" name
           then Some name else None
      else if String.prefix "gpt-" name then Some name else None
  | _ => None
  end.

Definition filteredModels (provider : string) (models : list value)
  : list string :=
  flat_map (fun model =>
              match of_family provider model with
              | Some name => [name]
              | None => []
              end) models.

Definition displayName (model : string) : string :=
  if String.prefix "models/" model then after_last "/" model else model.

(** What [updateModelChoice] does to the dropdown (when the page has one)
    and to storage. *)
Inductive Outcome :=
  | NotAList
  | NoModelsAvailable
  | Chosen (options : list (string * string)) (selected : string)
      (stored : option string).

(** [x && filteredModels.includes(x)] for a string [x]. *)
Definition offered (x : string) (filtered : list string) : bool :=
  negb (String.eqb x EmptyString) && existsb (String.eqb x) filtered.

(** [updateModelChoice(models, provider)]; [currentValue] is the value of
    the dropdown before, [result] the storage.  In [Chosen], the options
    are the value and the text of each [<option>], [selected] is what is
    assigned to the value of the dropdown, [stored] what is written under
    [model] or [googleModel], if anything is. *)
Definition updateModelChoice (models : value) (provider : string)
  (currentValue : string) (result : Storage) : Outcome :=
  match models with
  | VArr items =>
      match filteredModels provider items with
      | [] => NoModelsAvailable
      | first_model :: others =>
          let filtered := first_model :: others in
          let options := map (fun model => (model, displayName model)) filtered in
          let savedModel :=
            string_or (if String.eqb provider GOOGLE then googleModel result
                       else model result) EmptyString in
          if offered savedModel filtered then Chosen options savedModel None
          else if offered currentValue filtered
          then Chosen options currentValue None
          else Chosen options first_model (Some first_model)
      end
  | _ => NotAList
  end.

End ModelChoice.

(** ** The content script: regenerating a part of a flashcard *)

Module Regeneration.
Import Json JsonOps Js Store Gateway.

(** The parts of a flashcard that can be regenerated. *)
Inductive Part := Definition_ | Mnemonic_ | Translation_ | Examples_.

(** [flashcard.regenerationCount]. *)
Record Counts := {
  definition : Z;
  mnemonic : Z;
  translation : Z;
  examples : Z
}.

Definition count_of (part : Part) (c : Counts) : Z :=
  match part with
  | Definition_ => definition c
  | Mnemonic_ => mnemonic c
  | Translation_ => translation c
  | Examples_ => examples c
  end.

(** [flashcard.regenerationCount[part]++]. *)
Definition increment (part : Part) (c : Counts) : Counts :=
  match part with
  | Definition_ =>
      {| definition := definition c + 1; mnemonic := mnemonic c;
         translation := translation c; examples := examples c |}
  | Mnemonic_ =>
      {| definition := definition c; mnemonic := mnemonic c + 1;
         translation := translation c; examples := examples c |}
  | Translation_ =>
      {| definition := definition c; mnemonic := mnemonic c;
         translation := translation c + 1; examples := examples c |}
  | Examples_ =>
      {| definition := definition c; mnemonic := mnemonic c;
         translation := translation c; examples := examples c + 1 |}
  end.

(** How [regenerateContent] goes up to the request: it stops, or it writes
    the incremented counters and asks the gateway. *)
Inductive Decision :=
  | NotAuthenticated
  | NotRemote
  | FlashcardNotFound
  | LimitReached
  | Asks (counts : Counts).

(** [count >= regenerationLimit], which is false for a limit that is not
    stored. *)
Definition reached (count : Z) (regenerationLimit : option Z) : bool :=
  match regenerationLimit with
  | Some limit => limit <=? count
  | None => false
  end.

(** [regenerateContent(part, flashcardId)] up to the request.
    [isAuthenticated] is what [checkAuth] gave, [flashcard] the counters
    of [settings.flashcards[flashcardId]], if there is such a flashcard. *)
Definition regenerateContent_gate (isAuthenticated : bool)
  (choice : option string) (flashcard : option Counts) (isOwnCredits : bool)
  (regenerationLimit : option Z) (part : Part) : Decision :=
  if negb isAuthenticated then NotAuthenticated
  else if negb (String.eqb (string_or choice EmptyString) "remote") then NotRemote
  else
    match flashcard with
    | None => FlashcardNotFound
    | Some counts =>
        if negb isOwnCredits && reached (count_of part counts) regenerationLimit
        then LimitReached
        else Asks (increment part counts)
    end.

(** The counters after one more attempt on a flashcard that exists, by a
    user who is authenticated, in remote mode: what is stored when the
    attempt goes on, the same when it stops. *)
Definition attempt (isOwnCredits : bool) (regenerationLimit : option Z)
  (counts : Counts) (part : Part) : Counts :=
  match regenerateContent_gate true (Some "remote") (Some counts) isOwnCredits
          regenerationLimit part with
  | Asks counts' => counts'
  | _ => counts
  end.

End Regeneration.

(** ** The options page: from the field to storage and to the list of
       models *)

Module OptionsPage.
Import Json JsonOps Js Text Vault Store Http Gateway Background Options Random.
Import ModelChoice.

(** [response && response.valid], as [handleValidateApiKey] reads the
    answer of the background script. *)
Definition valid (check : KeyCheck) : bool :=
  match check with
  | Valid => true
  | Invalid _ => false
  end.

(** [{ [storageKey]: model }], where [storageKey] is [googleModel] or
    [model]. *)
Definition model_update (provider model : string) : StorageUpdate :=
  if String.eqb provider GOOGLE
  then {| set_isOwnCredits := None; set_installationPassword := None;
          set_encryptedApiKey := None; set_encryptedGoogleApiKey := None;
          set_apiKeyValidated := None; set_googleApiKeyValidated := None;
          set_model := None; set_googleModel := Some (Some model) |}
  else {| set_isOwnCredits := None; set_installationPassword := None;
          set_encryptedApiKey := None; set_encryptedGoogleApiKey := None;
          set_apiKeyValidated := None; set_googleApiKeyValidated := None;
          set_model := Some (Some model); set_googleModel := None |}.

Section WithWorld.
Variable pf : Platform.
Variable w : World.
Variable JSON_stringify : value -> string.
Variable is_positive_number : string -> bool.
(** [chrome.runtime.lastError] after [chrome.storage.sync.set(update)]:
    its message, when the storage service refuses the write. *)
Variable lastError : StorageUpdate -> option string.

(** [chrome.storage.sync.set(update)]: storage takes the update unless
    the service refuses it. *)
Definition set_storage (update : StorageUpdate) (st : State) : State :=
  match lastError update with
  | Some _ => st
  | None => {| storage := sync_set update (storage st); sent := sent st |}
  end.

(** [updateModelChoice(models, provider)] on the page: what it does to
    the dropdown, and its write of the model it chose. *)
Definition choose_model (models : value) (provider currentValue : string)
  (st : State) : Outcome * State :=
  let outcome := updateModelChoice models provider currentValue (storage st) in
  (outcome,
   match outcome with
   | Chosen _ _ (Some chosen) => set_storage (model_update provider chosen) st
   | _ => st
   end).

(** [sendFetchModelsRequest(apiKey, provider)]: the background script is
    asked for the models, and its answer is given to [updateModelChoice];
    [None] when it never answers. *)
Definition sendFetchModelsRequest (apiKey : jsstring)
  (provider currentValue : string) (st : State) : option Outcome * State :=
  let '(answer, st1) :=
    if String.eqb provider GOOGLE
    then onMessage_fetchGoogleModels pf w JSON_stringify apiKey st
    else onMessage_fetchModels pf w apiKey st in
  match answer with
  | None => (None, st1)
  | Some (ModelsError error) =>
      let '(outcome, st2) :=
        (* an empty [response.error] is falsy, and [response.models] is
           [undefined] *)
        if String.eqb error EmptyString
        then choose_model VUndefined provider currentValue st1
        else choose_model (VArr []) provider currentValue st1 in
      (Some outcome, st2)
  | Some (Models models) =>
      let '(outcome, st2) := choose_model models provider currentValue st1 in
      (Some outcome, st2)
  end.

(** The promise chain of the free tier in [fetchModels], before its
    [catch]: what is given to [updateModelChoice]. *)
Definition worker_models_chain : M value :=
  response <-
    do_fetch w {| url := WORKER_MODELS_URL; authorization := None;
                  key_parameter := None; body := VUndefined |} ;;
  data <- response_json response ;;
  error <- get pf data "error" ;;
  if truthy error then ret (VArr []) else ret (prop data "result").

(** [fetchModels(apiKey, provider)]: what [updateModelChoice] did, when
    it was reached.  [currentValue] is the value of the dropdown. *)
Definition fetchModels (apiKey : option jsstring) (provider : option string)
  (currentValue : string) (st : State) : option Outcome * State :=
  let result := storage st in
  let currentProvider :=
    string_or provider (string_or (selectedProvider result) OPENAI) in
  if isOwnCredits result then
    if truthy_key apiKey
    then sendFetchModelsRequest (default [] apiKey) currentProvider
           currentValue st
    else
      let encryptedKey :=
        if String.eqb currentProvider GOOGLE then encryptedGoogleApiKey result
        else encryptedApiKey result in
      match encryptedKey, installationPassword result with
      | Some blob, Some password =>
          if String.eqb password EmptyString then (None, st)
          else
            match decryptApiKey pf blob (of_string password) with
            | Some decryptedApiKey =>
                sendFetchModelsRequest decryptedApiKey currentProvider
                  currentValue st
            | None => (None, st)
            end
      | _, _ => (None, st)
      end
  else if String.eqb currentProvider OPENAI then
    match worker_models_chain st with
    | (Returns models, st1) =>
        let '(outcome, st2) := choose_model models OPENAI currentValue st1 in
        (Some outcome, st2)
    | (Throws _, st1) =>
        let '(outcome, st2) := choose_model (VArr []) OPENAI currentValue st1 in
        (Some outcome, st2)
    | (Stalls, st1) => (None, st1)
    end
  else
    let '(outcome, st1) := choose_model (VArr []) GOOGLE currentValue st in
    (Some outcome, st1).

(** [handleValidateApiKey] with the background script and the storage
    service behind it.  The trimmed key is sent for validation, to the
    listener of the provider chosen; when the answer never comes the
    callback never runs.  A key found valid is encrypted and handed to
    storage, and once storage took it the models are fetched with the same
    key; a key found invalid has its flag cleared.  The result is the
    update handed to storage and what [updateModelChoice] did, if these
    were reached.  [input] is the value of the key field,
    [selectedProvider] that of the provider selector, [currentValue] that
    of the dropdown of models. *)
Definition validate_and_store (input : jsstring)
  (selectedProvider currentValue : string) (r : source) (st : State)
  : option StorageUpdate * option Outcome * source * State :=
  match trim input with
  | [] => (None, None, r, st)
  | apiKey =>
      let '(answer, st1) :=
        if String.eqb selectedProvider GOOGLE
        then onMessage_validateGoogleApiKey pf w JSON_stringify
               is_positive_number (Some apiKey) st
        else onMessage_validateApiKey w (Some apiKey) st in
      match answer with
      | None => (None, None, r, st1)
      | Some check =>
          match handleValidateApiKey pf input selectedProvider
                  (Answer (valid check)) r with
          | (None, r1) => (None, None, r1, st1)
          | (Some update, r1) =>
              if valid check then
                match lastError update with
                | Some _ => (Some update, None, r1, st1)
                | None =>
                    let '(outcome, st2) :=
                      fetchModels (Some apiKey) (Some selectedProvider)
                        currentValue (set_storage update st1) in
                    (Some update, outcome, r1, st2)
                end
              else (Some update, None, r1, set_storage update st1)
          end
      end
  end.

End WithWorld.

End OptionsPage.

(** ** The content script: what each caller of the gateway does with a
       failure *)

Module Callers.
Import Json JsonOps Js Store Gateway Content Regeneration.

(** The name of a part, as [regenerateContent] is called with it. *)
Definition part_name (part : Part) : string :=
  match part with
  | Definition_ => "definition"
  | Mnemonic_ => "mnemonic"
  | Translation_ => "translation"
  | Examples_ => "examples"
  end.

(** [part.charAt(0).toUpperCase() + part.slice(1)]. *)
Definition capitalized (part : Part) : string :=
  match part with
  | Definition_ => "Definition"
  | Mnemonic_ => "Mnemonic"
  | Translation_ => "Translation"
  | Examples_ => "Examples"
  end.

(** [CONVERSATION_TYPES[part.toUpperCase()]]. *)
Definition type_of_part (part : Part) : string :=
  match part with
  | Definition_ => DEFINITION
  | Mnemonic_ => MNEMONIC
  | Translation_ => TRANSLATION
  | Examples_ => EXAMPLES
  end.

(** What a caller shows of a failure: a message of the extension, by its
    name; a text as it is; or nothing. *)
Inductive Shown :=
  | Message (name : string)
  | Text (text : string)
  | Nothing.

(** [chrome.i18n.getMessage(name) || fallback]. *)
Definition getMessage_or (pf : Platform) (name fallback : string) : string :=
  if String.eqb (getMessage pf name []) EmptyString then fallback
  else getMessage pf name [].

(** The branch of failure in the callback of [regenerateContent]; the
    arguments are the fields of the response.  When [getApiErrorMessage]
    throws, the callback ends there and no message is shown. *)
Definition regenerateContent_failure (part : Part) (error : string)
  (status : option Z) (errorData : option value) (provider : option string)
  (isUnsupportedModel : bool) : Shown :=
  match failure_message_key ("errorRegenerating" +:+ capitalized part)
          (Failure error status errorData provider isUnsupportedModel) with
  | Some name => Message name
  | None => Nothing
  end.

(** The branch of failure in [proceedWithFlashcardGeneration].  It runs
    inside a [try]: when [getApiErrorMessage] throws, the [catch] block
    asks it for the message of what was thrown, with the provider that
    [settings] has. *)
Definition proceedWithFlashcardGeneration_failure (pf : Platform)
  (settings : Storage) (error : string) (status : option Z)
  (errorData : option value) (provider : option string)
  (isUnsupportedModel : bool) : Shown :=
  match failure_message_key "errorCreatingFlashcard"
          (Failure error status errorData provider isUnsupportedModel) with
  | Some name => Message name
  | None =>
      match getApiErrorMessageKey None
              (fault_message pf (NotAFunction "toLowerCase")) None
              (string_or (selectedProvider settings) "openai") with
      | Some name => Message name
      | None => Nothing
      end
  end.

(** What [requestTranslation] calls back with: a translation, or the text
    of an error. *)
Inductive Translation :=
  | Translated (translation : value)
  | NotTranslated (errorMessage : string).

(** The callback of [requestTranslation]: [getApiErrorMessage] is not
    asked; the text of the error is the one the gateway sent. *)
Definition requestTranslation_callback (pf : Platform)
  (response : GatewayResponse) : Translation :=
  let fallback :=
    getMessage_or pf "errorGeneratingTranslation" "Error generating translation" in
  match response with
  | Success data =>
      if truthy data && truthy (prop data "translation")
      then Translated (prop data "translation")
      else NotTranslated fallback
  | Failure error _ _ _ _ =>
      NotTranslated (if String.eqb error EmptyString then fallback else error)
  end.

(** [showErrorToast(errorMessage)]: the text of the toast. *)
Definition showErrorToast (pf : Platform) (errorMessage : string) : string :=
  getMessage_or pf "translationError" "Translation Error"
  +:+ ": " +:+ errorMessage.

(** What [processTranslationRequest] shows when [requestTranslation]
    calls back with an error. *)
Definition processTranslationRequest_failure (pf : Platform)
  (errorMessage : string) : Shown :=
  Text (showErrorToast pf
          (if String.eqb errorMessage EmptyString
           then getMessage_or pf "errorGeneratingTranslation" "Translation failed"
           else errorMessage)).

Definition PLACEHOLDER : string := "Definition will be generated...".

(** The [recto] of the flashcard that
    [proceedWithFlashcardGenerationWithTranslation] stores and shows: the
    definition of the response, or the placeholder.  A failure is not
    looked at and shows no message. *)
Definition proceedWithFlashcardGenerationWithTranslation_recto
  (response : GatewayResponse) : value :=
  match response with
  | Success data =>
      if truthy data && truthy (prop data "definition")
      then prop data "definition"
      else VStr PLACEHOLDER
  | Failure _ _ _ _ _ => VStr PLACEHOLDER
  end.

(** The four places of the content script that send [callChatGPTAPI]. *)
Inductive Caller :=
  | RegenerateContent (part : Part)
  | ProceedWithFlashcardGeneration
  | RequestTranslation
  | ProceedWithFlashcardGenerationWithTranslation.

(** The [type] of the request each of them sends. *)
Definition type_sent (caller : Caller) : string :=
  match caller with
  | RegenerateContent part => type_of_part part
  | ProceedWithFlashcardGeneration => FLASHCARD
  | RequestTranslation => TRANSLATION_POPUP
  | ProceedWithFlashcardGenerationWithTranslation => DEFINITION
  end.

(** What each of them shows for a failure. *)
Definition shown_for_failure (pf : Platform) (settings : Storage)
  (caller : Caller) (error : string) (status : option Z)
  (errorData : option value) (provider : option string)
  (isUnsupportedModel : bool) : Shown :=
  match caller with
  | RegenerateContent part =>
      regenerateContent_failure part error status errorData provider
        isUnsupportedModel
  | ProceedWithFlashcardGeneration =>
      proceedWithFlashcardGeneration_failure pf settings error status
        errorData provider isUnsupportedModel
  | RequestTranslation =>
      match requestTranslation_callback pf
              (Failure error status errorData provider isUnsupportedModel) with
      | Translated _ => Nothing
      | NotTranslated errorMessage =>
          processTranslationRequest_failure pf errorMessage
      end
  | ProceedWithFlashcardGenerationWithTranslation => Nothing
  end.

End Callers.

(** ** Vocabulary of the properties *)

Module Props.
Import Json JsonOps Js Text Vault Store Http Gateway.

(** A Unicode scalar value: a code point that is not a surrogate. *)
Definition is_scalar (cp : Z) : Prop :=
  0 <= cp < 55296 \/ 57344 <= cp <= 1114111.

(** A window: at most three messages, the first of role [system]. *)
Definition is_window (c : Conversation) : Prop :=
  (length (messages c) <= 3)%nat
  /\ prop (first (messages c)) "role" = VStr "system".

(** The conversation of a user and purpose as storage holds it: present,
    and a window. *)
Definition stored_window (userId type : string) (st : State) : Prop :=
  exists c,
    conversations (storage st) !! conversation_key userId type = Some c
    /\ is_window c.

Definition is_resolved (s : Settled) : Prop :=
  match s with
  | Resolved _ => True
  | _ => False
  end.

(** One request served: the network and storage service of its moment,
    the request, the state it met, what its promise came to and the state
    it left. *)
Record Served := {
  served_by : World;
  asked : ChatRequest;
  before : State;
  settled : Settled;
  after : State
}.

(** Requests served one after the other, from a given state. *)
Fixpoint serve (pf : Platform) (calls : list (World * ChatRequest)) (st : State)
  : list Served :=
  match calls with
  | [] => []
  | (w, request) :: rest =>
      let '(outcome, st') :=
        callAIProviderAPI pf w (userId request) (type request)
          (message request) (language request) (apiKey request) st in
      {| served_by := w; asked := request; before := st; settled := outcome;
         after := st' |} :: serve pf rest st'
  end.

(** The rejection made before the exchange, if one is: by the checks of
    the credential, then by the check of the purpose. *)
Definition turned_down (pf : Platform) (result : Storage) (provider : string)
  (apiKey : option jsstring) (type : string) : option Err.t :=
  match resolve_credential pf result provider apiKey with
  | inl e => Some e
  | inr _ =>
      if is_conversation_type type then None
      else Some (Err.Error ("Invalid conversation type: " +:+ type))
  end.

(** The message that the OpenAI-like branch takes as the reply out of what
    [fetch] did: the one of the first choice of a success, when it has
    content. *)
Definition openai_reply (f : FetchResult) : option value :=
  match f with
  | FetchResolves r =>
      if ok r then
        match json r with
        | inr data =>
            match prop data "choices" with
            | VArr (choice :: _) =>
                if truthy (prop choice "message")
                   && truthy (prop (prop choice "message") "content")
                then Some (prop choice "message")
                else None
            | _ => None
            end
        | inl _ => None
        end
      else None
  | _ => None
  end.

(** The message that the Google-like branch makes of what [fetch] did:
    the text of the first part of the first candidate of a success, under
    the role [assistant]. *)
Definition google_reply (f : FetchResult) : option value :=
  match f with
  | FetchResolves r =>
      if ok r then
        match json r with
        | inr data =>
            match prop data "candidates" with
            | VArr (candidate :: _) =>
                match prop (prop candidate "content") "parts" with
                | VArr (part :: _) =>
                    if truthy (prop part "text")
                    then Some (VObj [("role", VStr "assistant");
                                     ("content", prop part "text")])
                    else None
                | _ => None
                end
            | _ => None
            end
        | inl _ => None
        end
      else None
  | _ => None
  end.

(** The exchange of a request goes through: the checks let the request
    pass, one of the two providers is selected, it answers with [reply],
    and the storage service takes what is written. *)
Definition goes_through (pf : Platform) (w : World) (st : State)
  (request : ChatRequest) (reply : value) : Prop :=
  let provider := string_or (selectedProvider (storage st)) OPENAI in
  turned_down pf (storage st) provider (apiKey request) (type request) = None
  /\ (forall key c, sync_set_error w key c = None)
  /\ ((provider = OPENAI
       /\ forall sent_request, openai_reply (fetch w sent_request) = Some reply)
      \/ (provider = GOOGLE
          /\ forall sent_request,
               google_reply (fetch w sent_request) = Some reply)).

(** What a call whose exchange went through comes to: the content of the
    reply, parsed, or the rejection with the message of the parser. *)
Definition parsed_reply (pf : Platform) (provider : string) (reply : value)
  : Settled :=
  match JSON_parse pf (prop reply "content") with
  | inr data => Resolved data
  | inl message => Rejected (enhancedError (Err.Error message) provider)
  end.

(** The text of an error shows a problem of the network. *)
Definition network_signature (message : string) : Prop :=
  includes "Failed to fetch" message = true
  \/ includes "Network request failed" message = true
  \/ (includes "fetch" message = true /\ includes "timeout" message = true).

(** What [fetch] did is a failure of the network: no response at all
    (the request was rejected, or never answered), or an error response
    whose status is 5xx or whose text shows it. *)
Definition is_network_failure (f : FetchResult) : Prop :=
  match f with
  | FetchRejects _ => True
  | FetchStalls => True
  | FetchResolves r =>
      ok r = false
      /\ (500 <= status r <= 599
          \/ network_signature (provider_message (error_payload r) r))
  end.

(** How an exchange that began in [st] can end: with an error of the
    program or the engine that carries no status, payload or flag; with
    the error made from the error response to the request it sent; with
    the parsed reply to that request; or never, the request being left
    without an answer. *)
Definition exchange_ending (pf : Platform) (w : World) (st : State)
    (r : Result (option value)) (st' : State) : Prop :=
  (exists message, r = Throws (Err.Error message))
  \/ (exists prefix request response st1,
        sent st' = request :: sent st
        /\ fetch w request = FetchResolves response /\ ok response = false
        /\ throw_http_error pf prefix response st1 = (r, st'))
  \/ (exists data request response,
        r = Returns (Some data)
        /\ sent st' = request :: sent st
        /\ fetch w request = FetchResolves response /\ ok response = true)
  \/ (exists request,
        r = Stalls
        /\ sent st' = request :: sent st
        /\ fetch w request = FetchStalls).

(** The schema a request to the OpenAI-like provider asks for. *)
Definition requested_schema (request : Request) : value :=
  prop (prop (prop (body request) "response_format") "json_schema") "schema".

Definition names (v : value) : list string :=
  match v with
  | VArr items =>
      flat_map (fun item => match item with VStr s => [s] | _ => [] end) items
  | _ => []
  end.

(** An object that conforms to a schema of the kind the program sends:
    every required key is there, no key twice, none outside the
    properties when the schema is closed, and a string where the property
    is one. *)
Definition conforms (schema reply : value) : Prop :=
  match reply with
  | VObj fields =>
      NoDup (map fst fields)
      /\ (forall k, In k (names (prop schema "required")) -> In k (map fst fields))
      /\ (prop schema "additionalProperties" = VBool false ->
          forall k, In k (map fst fields) -> In k (keys (prop schema "properties")))
      /\ (forall k v, In (k, v) fields ->
          prop (prop (prop schema "properties") k) "type" = VStr "string" ->
          exists s, v = VStr s)
  | _ => False
  end.

(** [fetch] answered with a success whose first choice carries, as text,
    the JSON of [reply], and [reply] conforms to the schema asked for. *)
Definition schema_conformant_reply (pf : Platform) (request : Request)
  (f : FetchResult) (reply : value) : Prop :=
  match f with
  | FetchRejects _ | FetchStalls => False
  | FetchResolves r =>
      ok r = true
      /\ exists data choice others,
           json r = inr data
           /\ prop data "choices" = VArr (choice :: others)
           /\ truthy (prop choice "message") = true
           /\ truthy (prop (prop choice "message") "content") = true
           /\ JSON_parse pf (prop (prop choice "message") "content") = inr reply
           /\ conforms (requested_schema request) reply
  end.

(** A request that asks for the schema of a flashcard. *)
Definition asks_for_flashcard (request : Request) : Prop :=
  exists userMessage language learningGoal,
    requested_schema request
    = purpose_schema "string" "object" true FLASHCARD userMessage language
        learningGoal.

(** The keys of a flashcard. *)
Definition flashcard_keys (with_mnemonic : bool) : list string :=
  ["definition"; "translation"; "example_1"; "example_2"; "example_3"]
  ++ (if with_mnemonic then ["mnemonic"] else []).

(** At most one of the two encrypted keys is stored. *)
Definition at_most_one_credential (s : Storage) : Prop :=
  encryptedApiKey s = None \/ encryptedGoogleApiKey s = None.

(** A stored encrypted key was made with the stored password. *)
Definition encrypted_under_stored_password (pf : Platform) (s : Storage) : Prop :=
  forall blob,
    encryptedApiKey s = Some blob \/ encryptedGoogleApiKey s = Some blob ->
    exists password apiKey r,
      installationPassword s = Some password
      /\ blob = fst (encryptApiKey pf apiKey (of_string password) r).

(** Two storages with the same credential keys. *)
Definition same_credentials (s s' : Storage) : Prop :=
  encryptedApiKey s' = encryptedApiKey s
  /\ encryptedGoogleApiKey s' = encryptedGoogleApiKey s
  /\ installationPassword s' = installationPassword s.

(** A computation of the gateway that leaves the credential keys as they
    are, however it ends. *)
Definition keeps_credentials {A} (m : M A) : Prop :=
  forall st r st', m st = (r, st') -> same_credentials (storage st) (storage st').

(** The storages the program can get to: from the one of installation, by
    validations of a key, calls of the gateway, writes of the cache, and
    the writes of the other settings, none of which names a credential
    key. *)
Inductive reachable (pf : Platform) : Storage -> Prop :=
  | reach_fresh default_model default_google_model :
      reachable pf (fresh default_model default_google_model)
  | reach_validate s input provider validation r u r' :
      reachable pf s ->
      Options.handleValidateApiKey pf input provider validation r = (Some u, r') ->
      reachable pf (Options.sync_set u s)
  | reach_call s w userId type userMessage language apiKey requests outcome st' :
      reachable pf s ->
      callAIProviderAPI pf w userId type userMessage language apiKey
        {| storage := s; sent := requests |} = (outcome, st') ->
      reachable pf (storage st')
  | reach_cache s text language translation now :
      reachable pf s ->
      reachable pf (Content.setCachedTranslation text language translation now s)
  | reach_setting s s' :
      reachable pf s -> same_credentials s s' -> reachable pf s'.




(** The payload of an error response can be examined by
    [isUnsupportedModelError]: it is not [null], and the message of its
    error, when it has an error, is a string or is falsy. *)
Definition examinable (errorData : value) : bool :=
  negb (is_nullish errorData)
  && (negb (truthy (prop errorData "error"))
      || match or_else (prop (prop errorData "error") "message") (VStr "") with
         | VStr _ => true
         | _ => false
         end).




End Props.

(** ** Test doubles *)

Module Stub.
Import Json JsonOps Js Bytes Text Vault Store Http Gateway Props.

Fixpoint strip_prefix (p l : list byte) : option (list byte) :=
  match p with
  | [] => Some l
  | a :: p' =>
      match l with
      | b :: l' => if Byte.eqb a b then strip_prefix p' l' else None
      | [] => None
      end
  end.

(** A reply with the fields of a flashcard. *)
Definition flashcard_reply (with_mnemonic : bool) : value :=
  VObj ([("definition", VStr "a greeting");
         ("translation", VStr "hello");
         ("example_1", VStr "Bonjour !");
         ("example_2", VStr "Bonjour, madame.");
         ("example_3", VStr "Bonjour a tous.")]
        ++ (if with_mnemonic then [("mnemonic", VStr "bon + jour")] else [])).

(** A platform for examples.  Its cipher puts key and iv in front of the
    data and checks them when decrypting; its parser knows the replies of
    the examples. *)
Definition platform : Platform :=
  {| PBKDF2_deriveKey := fun password salt _ _ _ => password ++ salt;
     AES_GCM_encrypt := fun key iv data => (key ++ iv) ++ data;
     AES_GCM_decrypt := fun key iv data => strip_prefix (key ++ iv) data;
     getMessage := fun name _ => name;
     JSON_parse := fun v =>
       match v with
       | VStr s =>
           if includes "definition" s
           then inr (flashcard_reply (includes "mnemonic" s))
           else inl "Unexpected token"
       | _ => inl "Unexpected token"
       end;
     fault_message := fun _ => "TypeError";
     DEFAULT_REMOTE_MODEL := "gpt-4o-mini" |}.

Definition entropy : Random.source :=
  {| Random.tape := fun n => byte_of_Z (Z.of_nat n * 7 + 3); Random.taken := 0 |}.

(** A world whose storage service accepts every write. *)
Definition world (network : Request -> FetchResult) : World :=
  {| fetch := network; sync_set_error := fun _ _ => None |}.

(** The OpenAI-like provider, answering with what the schema requires. *)
Definition provider_A (request : Request) : FetchResult :=
  let content :=
    if existsb (String.eqb "mnemonic")
         (names (prop (requested_schema request) "required"))
    then "definition, mnemonic" else "definition" in
  FetchResolves
    {| status := 200; statusText := "OK";
       json := inr (VObj [("choices",
                           VArr [VObj [("message",
                                        VObj [("role", VStr "assistant");
                                              ("content", VStr content)])]])]) |}.

(** The Google-like provider. *)
Definition provider_B (request : Request) : FetchResult :=
  FetchResolves
    {| status := 200; statusText := "OK";
       json := inr (VObj [("candidates",
                           VArr [VObj [("content",
                                        VObj [("parts",
                                               VArr [VObj [("text",
                                                            VStr "definition")]])])]])]) |}.

(** No connection. *)
Definition offline (request : Request) : FetchResult :=
  FetchRejects "Failed to fetch".

(** A provider that never answers. *)
Definition silent (request : Request) : FetchResult := FetchStalls.

(** The OpenAI-like provider answering with a text that is not JSON. *)
Definition provider_prose (request : Request) : FetchResult :=
  FetchResolves
    {| status := 200; statusText := "OK";
       json := inr (VObj [("choices",
                           VArr [VObj [("message",
                                        VObj [("role", VStr "assistant");
                                              ("content",
                                               VStr "Sorry, I cannot.")])]])]) |}.

(** An error response whose body is [null]. *)
Definition refusal_null (status : Z) (request : Request) : FetchResult :=
  FetchResolves {| status := status; statusText := ""; json := inr VNull |}.

(** An error response with a message in its payload. *)
Definition refusal (status : Z) (error_type message : string) (request : Request)
  : FetchResult :=
  FetchResolves
    {| status := status; statusText := "";
       json := inr (VObj [("error",
                           VObj [("type", VStr error_type);
                                 ("message", VStr message)])]) |}.

Definition installed : State :=
  {| storage := fresh "gpt-4o-mini" DEFAULT_GOOGLE_MODEL; sent := [] |}.

(** The same with the Google-like provider selected. *)
Definition installed_google : State :=
  {| storage :=
       {| isOwnCredits := false; selectedProvider := Some "google";
          encryptedApiKey := None; encryptedGoogleApiKey := None;
          installationPassword := None;
          apiKeyValidated := false; googleApiKeyValidated := false;
          learningGoal := None;
          model := Some "gpt-4o-mini"; googleModel := Some DEFAULT_GOOGLE_MODEL;
          conversations := ∅; translations := ∅ |};
     sent := [] |}.

(** Own-credits mode switched on with no key validated. *)
Definition own_credits_unvalidated : State :=
  {| storage :=
       {| isOwnCredits := true; selectedProvider := Some "openai";
          encryptedApiKey := None; encryptedGoogleApiKey := None;
          installationPassword := None;
          apiKeyValidated := false; googleApiKeyValidated := false;
          learningGoal := None;
          model := Some "gpt-4o-mini"; googleModel := Some DEFAULT_GOOGLE_MODEL;
          conversations := ∅; translations := ∅ |};
     sent := [] |}.

(** A validated key stored with a password that is not the one it was
    encrypted under. *)
Definition own_credits_wrong_password : State :=
  {| storage :=
       {| isOwnCredits := true; selectedProvider := Some "openai";
          encryptedApiKey :=
            Some (fst (encryptApiKey platform (of_string "sk-proj-42")
                         (of_string "00ff") entropy));
          encryptedGoogleApiKey := None;
          installationPassword := Some "00fe";
          apiKeyValidated := true; googleApiKeyValidated := false;
          learningGoal := None;
          model := Some "gpt-4o-mini"; googleModel := Some DEFAULT_GOOGLE_MODEL;
          conversations := ∅; translations := ∅ |};
     sent := [] |}.

(** A provider that is none of the two. *)
Definition other_provider : State :=
  {| storage :=
       {| isOwnCredits := false; selectedProvider := Some "anthropic";
          encryptedApiKey := None; encryptedGoogleApiKey := None;
          installationPassword := None;
          apiKeyValidated := false; googleApiKeyValidated := false;
          learningGoal := None;
          model := Some "gpt-4o-mini"; googleModel := Some DEFAULT_GOOGLE_MODEL;
          conversations := ∅; translations := ∅ |};
     sent := [] |}.

Definition flashcard_request (message : string) : ChatRequest :=
  {| userId := "u1"; type := FLASHCARD; message := message;
     language := "french_fr"; apiKey := None |}.

Definition request_of_type (type : string) : ChatRequest :=
  {| userId := "u1"; type := type; message := "Bonjour";
     language := "french_fr"; apiKey := None |}.

End Stub.

(** ** Vocabulary of the further properties *)

Module Facts.
Import Json JsonOps Js Text Vault Store Http Gateway.

(** What one character becomes in escaped text. *)
Definition escaped (a : ascii) : string :=
  if Ascii.eqb a Html.AMPERSAND then "&amp;"
  else if Ascii.eqb a Html.LESS_THAN then "&lt;"
  else if Ascii.eqb a Html.GREATER_THAN then "&gt;"
  else if Ascii.eqb a Html.QUOTATION_MARK then "&quot;"
  else if Ascii.eqb a Html.APOSTROPHE then "&#039;"
  else String a EmptyString.

(** One of the five characters that [escapeHTML] replaces. *)
Definition is_markup (a : ascii) : bool :=
  Ascii.eqb a Html.AMPERSAND || Ascii.eqb a Html.LESS_THAN
  || Ascii.eqb a Html.GREATER_THAN || Ascii.eqb a Html.QUOTATION_MARK
  || Ascii.eqb a Html.APOSTROPHE.

(** What follows the ampersand in the five character references. *)
Definition reference_tails : list string :=
  ["amp;"; "lt;"; "gt;"; "quot;"; "#039;"].

Fixpoint occurs (a : ascii) (s : string) : bool :=
  match s with
  | EmptyString => false
  | String b r => Ascii.eqb a b || occurs a r
  end.

(** The state after one more request was handed to [fetch]. *)
Definition logged (request : Request) (st : State) : State :=
  {| storage := storage st; sent := request :: sent st |}.

(** The state after the conversation under [key] was written. *)
Definition recorded (key : string) (c : Conversation) (st : State) : State :=
  {| storage := with_conversation key c (storage st); sent := sent st |}.

Definition OPENAI_URL : string := "https://api.openai.com/v1/chat/completions".
Definition WORKER_URL : string :=
  "https://anki-lingo-flash.piriouvictor.workers.dev/api/chat".

(** Where a request of the gateway goes and what it carries: to the
    provider with the key of the user, or to the worker of the extension
    with the id of the user and without a key. *)
Definition request_route (pf : Platform) (result : Storage) (provider : string)
  (userId : string) (apiKeyToUse : option jsstring) (request : Request) : Prop :=
  if String.eqb provider OPENAI then
    key_parameter request = None
    /\ if isOwnCredits result
       then url request = OPENAI_URL
            /\ authorization request = apiKeyToUse
            /\ prop (body request) "userId" = VUndefined
            /\ prop (body request) "model"
               = VStr (string_or (model result) (DEFAULT_REMOTE_MODEL pf))
       else url request = WORKER_URL
            /\ authorization request = None
            /\ prop (body request) "userId" = VStr userId
            /\ prop (body request) "model" = VStr (DEFAULT_REMOTE_MODEL pf)
  else
    url request
    = GOOGLE_API_BASE_URL +:+ "/"
      +:+ string_or (googleModel result) DEFAULT_GOOGLE_MODEL
      +:+ ":generateContent"
    /\ authorization request = None
    /\ key_parameter request = Some apiKeyToUse.

(** An exchange that gave no result: it threw, or ended without settling
    the promise. *)
Definition no_result (r : Result (option value)) : Prop :=
  match r with
  | Returns (Some _) => False
  | _ => True
  end.

(** How one exchange with a provider moves the state: nothing happens and
    there is no result; or one request is sent and then, only if it was
    answered with a success, the conversation under [key] is written, as
    a window.  There is a result only in the last case. *)
Definition exchange_effect (w : World) (key : string) (route : Request -> Prop)
  (st : State) (r : Result (option value)) (st' : State) : Prop :=
  (st' = st /\ no_result r)
  \/ exists request,
       route request
       /\ ((st' = logged request st /\ no_result r)
           \/ exists response c,
                fetch w request = FetchResolves response
                /\ ok response = true
                /\ Props.is_window c
                /\ st' = recorded key c (logged request st)).

(** The conversation a first call creates: the system message alone. *)
Definition fresh_conversation (pf : Platform) (type learningGoal : string)
  : Conversation :=
  {| messages :=
       [message_object "system" (getSystemPrompt pf type learningGoal)] |}.

(** Every key of storage but the conversation under [key] is the same in
    both. *)
Definition same_but_conversation (key : string) (s s' : Storage) : Prop :=
  isOwnCredits s' = isOwnCredits s
  /\ selectedProvider s' = selectedProvider s
  /\ encryptedApiKey s' = encryptedApiKey s
  /\ encryptedGoogleApiKey s' = encryptedGoogleApiKey s
  /\ installationPassword s' = installationPassword s
  /\ apiKeyValidated s' = apiKeyValidated s
  /\ googleApiKeyValidated s' = googleApiKeyValidated s
  /\ learningGoal s' = learningGoal s
  /\ model s' = model s
  /\ googleModel s' = googleModel s
  /\ translations s' = translations s
  /\ forall other,
       other <> key -> conversations s' !! other = conversations s !! other.



(** The same part of a flashcard. *)
Definition same_part (p q : Regeneration.Part) : bool :=
  match p, q with
  | Regeneration.Definition_, Regeneration.Definition_
  | Regeneration.Mnemonic_, Regeneration.Mnemonic_
  | Regeneration.Translation_, Regeneration.Translation_
  | Regeneration.Examples_, Regeneration.Examples_ => true
  | _, _ => false
  end.

(** How many of the attempts are for the part. *)
Definition attempts_on (part : Regeneration.Part)
  (parts : list Regeneration.Part) : Z :=
  Z.of_nat (length (List.filter (same_part part) parts)).

(** The provider gives no successful answer to a request. *)
Definition no_success (f : FetchResult) : Prop :=
  match f with
  | FetchRejects _ | FetchStalls => True
  | FetchResolves r => ok r = false
  end.

(** Computations that leave the state as it is. *)
Definition stateless {A} (m : M A) : Prop :=
  forall st r st', m st = (r, st') -> st' = st.

End Facts.

(** ** Further test doubles *)

Module Sample.
Import Json JsonOps Js Bytes Text Vault Store Http Gateway Props.

(** The user's own credits, with a validated OpenAI key stored under the
    password it was encrypted with. *)
Definition own_credits : State :=
  {| storage :=
       {| isOwnCredits := true; selectedProvider := Some "openai";
          encryptedApiKey :=
            Some (fst (encryptApiKey Stub.platform (of_string "sk-proj-42")
                         (of_string "00ff") Stub.entropy));
          encryptedGoogleApiKey := None;
          installationPassword := Some "00ff";
          apiKeyValidated := true; googleApiKeyValidated := false;
          learningGoal := None;
          model := Some "gpt-4o"; googleModel := None;
          conversations := ∅; translations := ∅ |};
     sent := [] |}.


(** A provider that refuses every key. *)
Definition refusing_provider (request : Request) : FetchResult :=
  FetchResolves
    {| status := 401; statusText := "Unauthorized";
       json := inr (VObj [("error",
                           VObj [("message", VStr "Incorrect API key")])]) |}.

(** AnkiConnect answering with an error. *)
Definition anki_error (request : Request) : FetchResult :=
  FetchResolves
    {| status := 200; statusText := "OK";
       json := inr (VObj [("result", VNull);
                          ("error", VStr "deck was not found")]) |}.

(** AnkiConnect answering with the names of two decks. *)
Definition anki_decks (request : Request) : FetchResult :=
  FetchResolves
    {| status := 200; statusText := "OK";
       json := inr (VObj [("result", VArr [VStr "Default"; VStr "French"]);
                          ("error", VNull)]) |}.

Definition engine_message (f : Anki.engine_fault) : string := "TypeError".
Definition error_toString (message : string) : string :=
  "Error: " +:+ message.

Definition JSON_stringify (v : value) : string := "{}".
Definition is_positive_number (s : string) : bool := false.

(** The field of the options page: the key between two spaces. *)
Definition typed_key : jsstring := 32 :: of_string "sk-proj-42" ++ [32].

End Sample.

(* ===================================================================== *)
(** * Part II: properties                                                 *)
(* ===================================================================== *)

(** ** Bytes *)

Section ByteFacts.
Import Bytes.

Lemma Z_of_byte_range (b : byte) : 0 <= Z_of_byte b < 256.
Proof.
  unfold Z_of_byte. pose proof (Byte.to_N_bounded b) as Hb. lia.
Qed.

Lemma byte_of_Z_of_byte (b : byte) : byte_of_Z (Z_of_byte b) = b.
Proof.
  unfold byte_of_Z. pose proof (Z_of_byte_range b) as Hr.
  rewrite Z.mod_small by lia. unfold Z_of_byte. rewrite N2Z.id.
  now rewrite Byte.of_to_N.
Qed.

Lemma Z_of_byte_of_Z (z : Z) : 0 <= z < 256 -> Z_of_byte (byte_of_Z z) = z.
Proof.
  intros Hz. unfold byte_of_Z, Z_of_byte. rewrite Z.mod_small by lia.
  destruct (Byte.of_N (Z.to_N z)) as [b|] eqn:E.
  - apply Byte.to_of_N in E. rewrite E. lia.
  - apply Byte.of_N_None_iff in E. lia.
Qed.

Lemma Uint8Array_from_Array_from (u : list byte) :
  Uint8Array_from (Array_from u) = u.
Proof.
  unfold Uint8Array_from, Array_from. rewrite map_map.
  induction u as [|b u IH]; simpl; [reflexivity|].
  now rewrite byte_of_Z_of_byte, IH.
Qed.

End ByteFacts.

(** ** Bit operations as arithmetic *)

Section BitFacts.

Lemma land_low_bits (a k : Z) : 0 <= k -> Z.land a (2 ^ k - 1) = a mod 2 ^ k.
Proof.
  intros Hk. rewrite <- Z.land_ones by assumption.
  f_equal. rewrite Z.ones_equiv. lia.
Qed.

Lemma lor_disjoint (hi lo k : Z) :
  0 <= k -> 0 <= lo < 2 ^ k -> Z.lor (hi * 2 ^ k) lo = hi * 2 ^ k + lo.
Proof.
  intros Hk Hlo.
  assert (Hz : Z.land (hi * 2 ^ k) lo = 0).
  { apply Z.bits_inj'. intros n Hn. rewrite Z.land_spec, Z.bits_0.
    destruct (Z.lt_ge_cases n k) as [Hlt|Hge].
    - rewrite Z.mul_pow2_bits_low by lia. reflexivity.
    - replace lo with (lo mod 2 ^ k) by (apply Z.mod_small; lia).
      rewrite Z.mod_pow2_bits_high by lia. apply andb_false_r. }
  pose proof (Z.add_lor_land (hi * 2 ^ k) lo) as H. lia.
Qed.

End BitFacts.

(** ** The text codec *)

Ltac div_lia := Z.to_euclidean_division_equations; lia.
Ltac leb_true :=
  symmetry; apply andb_true_intro; split; apply Z.leb_le; lia.
Ltac leb_false :=
  symmetry; apply andb_false_intro2; apply Z.leb_gt; lia.

Section CodecFacts.
Import Bytes Text Props.

Lemma continuation_value (cp k : Z) :
  0 <= k ->
  Z_of_byte (continuation cp k) = 128 + (cp / 2 ^ (6 * k)) mod 64.
Proof.
  intros Hk. unfold continuation.
  rewrite Z.shiftr_div_pow2 by lia.
  change 63 with (2 ^ 6 - 1). rewrite land_low_bits by lia.
  change 128 with (2 * 2 ^ 6).
  pose proof (Z.mod_pos_bound (cp / 2 ^ (6 * k)) (2 ^ 6) ltac:(lia)) as Hm.
  rewrite lor_disjoint by lia.
  apply Z_of_byte_of_Z. change (2 ^ 6) with 64 in *. lia.
Qed.

Lemma land_offset (x off k : Z) :
  0 <= k -> 0 <= x < 2 ^ k -> Z.land (x + off * 2 ^ k) (2 ^ k - 1) = x.
Proof.
  intros Hk Hx. rewrite land_low_bits by assumption.
  rewrite Z.mod_add by lia. apply Z.mod_small. assumption.
Qed.

(** The first byte of a sequence of two, three and four bytes. *)
Lemma decode_lead2 (x : Z) :
  2 <= x < 32 ->
  decode_byte decoder_init (x + 192) =
    ([], {| code_point := x; bytes_seen := 0; bytes_needed := 1;
            lower_boundary := 128; upper_boundary := 191 |}).
Proof.
  intros Hx. unfold decode_byte, decode_lead. cbn [bytes_needed decoder_init Z.eqb].
  destruct (Z.leb_spec (x + 192) 127); [lia|].
  replace ((194 <=? x + 192) && (x + 192 <=? 223)) with true by leb_true.
  change 31 with (2 ^ 5 - 1). change 192 with (6 * 2 ^ 5).
  rewrite land_offset by lia. reflexivity.
Qed.

Lemma decode_lead3 (x : Z) :
  0 <= x < 16 ->
  decode_byte decoder_init (x + 224) =
    ([], {| code_point := x; bytes_seen := 0; bytes_needed := 2;
            lower_boundary := if x =? 0 then 160 else 128;
            upper_boundary := if x =? 13 then 159 else 191 |}).
Proof.
  intros Hx. unfold decode_byte, decode_lead. cbn [bytes_needed decoder_init Z.eqb].
  destruct (Z.leb_spec (x + 224) 127); [lia|].
  replace ((194 <=? x + 224) && (x + 224 <=? 223)) with false by leb_false.
  replace ((224 <=? x + 224) && (x + 224 <=? 239)) with true by leb_true.
  replace (x + 224 =? 224) with (x =? 0)
    by (destruct (Z.eqb_spec x 0), (Z.eqb_spec (x + 224) 224); lia).
  replace (x + 224 =? 237) with (x =? 13)
    by (destruct (Z.eqb_spec x 13), (Z.eqb_spec (x + 224) 237); lia).
  change 15 with (2 ^ 4 - 1). change 224 with (14 * 2 ^ 4).
  rewrite land_offset by lia. reflexivity.
Qed.

Lemma decode_lead4 (x : Z) :
  0 <= x <= 4 ->
  decode_byte decoder_init (x + 240) =
    ([], {| code_point := x; bytes_seen := 0; bytes_needed := 3;
            lower_boundary := if x =? 0 then 144 else 128;
            upper_boundary := if x =? 4 then 143 else 191 |}).
Proof.
  intros Hx. unfold decode_byte, decode_lead. cbn [bytes_needed decoder_init Z.eqb].
  destruct (Z.leb_spec (x + 240) 127); [lia|].
  replace ((194 <=? x + 240) && (x + 240 <=? 223)) with false by leb_false.
  replace ((224 <=? x + 240) && (x + 240 <=? 239)) with false by leb_false.
  replace ((240 <=? x + 240) && (x + 240 <=? 244)) with true by leb_true.
  replace (x + 240 =? 240) with (x =? 0)
    by (destruct (Z.eqb_spec x 0), (Z.eqb_spec (x + 240) 240); lia).
  replace (x + 240 =? 244) with (x =? 4)
    by (destruct (Z.eqb_spec x 4), (Z.eqb_spec (x + 240) 244); lia).
  change 7 with (2 ^ 3 - 1). change 240 with (30 * 2 ^ 3).
  rewrite land_offset by lia. reflexivity.
Qed.

(** A continuation byte inside the bounds of the open sequence. *)
Lemma decode_continuation (c seen needed lo hi y : Z) :
  needed <> 0 -> 0 <= y < 64 -> lo <= 128 + y <= hi ->
  decode_byte {| code_point := c; bytes_seen := seen; bytes_needed := needed;
                 lower_boundary := lo; upper_boundary := hi |} (128 + y) =
    if seen + 1 =? needed then ([c * 64 + y], decoder_init)
    else ([], {| code_point := c * 64 + y; bytes_seen := seen + 1;
                 bytes_needed := needed;
                 lower_boundary := 128; upper_boundary := 191 |}).
Proof.
  intros Hn Hy Hb. unfold decode_byte.
  cbn [bytes_needed bytes_seen code_point lower_boundary upper_boundary].
  destruct (Z.eqb_spec needed 0) as [E|_]; [contradiction|].
  replace ((lo <=? 128 + y) && (128 + y <=? hi)) with true by leb_true.
  cbn [negb].
  rewrite Z.shiftl_mul_pow2 by lia.
  change 63 with (2 ^ 6 - 1). rewrite land_low_bits by lia.
  change (2 ^ 6) with 64.
  replace ((128 + y) mod 64) with y by div_lia.
  change 64 with (2 ^ 6). rewrite lor_disjoint by (change (2 ^ 6) with 64; lia).
  reflexivity.
Qed.

Lemma decode_encode_scalar (cp : Z) (rest : list byte) :
  is_scalar cp ->
  utf8_decode_from decoder_init (utf8_encode_scalar cp ++ rest)
  = cp :: utf8_decode_from decoder_init rest.
Proof.
  intros Hs. unfold utf8_encode_scalar.
  assert (Hmax : 0 <= cp <= 1114111) by (destruct Hs; lia).
  destruct (Z.leb_spec cp 127) as [H1|H1].
  { cbn [app utf8_decode_from]. rewrite Z_of_byte_of_Z by lia.
    unfold decode_byte. cbn [bytes_needed decoder_init Z.eqb].
    unfold decode_lead. destruct (Z.leb_spec cp 127); [reflexivity|lia]. }
  destruct (Z.leb_spec cp 2047) as [H2|H2].
  { cbn [app utf8_decode_from].
    rewrite Z.shiftr_div_pow2 by lia. change (2 ^ 6) with 64.
    rewrite Z_of_byte_of_Z by div_lia.
    rewrite decode_lead2 by div_lia. cbv beta iota zeta. cbn [app].
    rewrite continuation_value by lia.
    change (2 ^ (6 * 0)) with 1. rewrite Z.div_1_r.
    rewrite decode_continuation by div_lia.
    change (0 + 1 =? 1) with true. cbv beta iota zeta. cbn [app].
    f_equal. div_lia. }
  destruct (Z.leb_spec cp 65535) as [H3|H3].
  { cbn [app utf8_decode_from].
    rewrite Z.shiftr_div_pow2 by lia. change (2 ^ 12) with 4096.
    rewrite Z_of_byte_of_Z by div_lia.
    rewrite decode_lead3 by div_lia. cbv beta iota zeta. cbn [app].
    rewrite !continuation_value by lia.
    change (2 ^ (6 * 1)) with 64. change (2 ^ (6 * 0)) with 1.
    rewrite Z.div_1_r.
    rewrite decode_continuation;
      [ | lia | div_lia
        | destruct (Z.eqb_spec (cp / 4096) 0), (Z.eqb_spec (cp / 4096) 13);
          destruct Hs; div_lia ].
    change (0 + 1 =? 2) with false. cbv beta iota zeta. cbn [app].
    rewrite decode_continuation by div_lia.
    change (0 + 1 + 1 =? 2) with true. cbv beta iota zeta. cbn [app].
    f_equal. div_lia. }
  cbn [app utf8_decode_from].
  rewrite Z.shiftr_div_pow2 by lia. change (2 ^ 18) with 262144.
  rewrite Z_of_byte_of_Z by div_lia.
  rewrite decode_lead4 by div_lia. cbv beta iota zeta. cbn [app].
  rewrite !continuation_value by lia.
  change (2 ^ (6 * 2)) with 4096.
  change (2 ^ (6 * 1)) with 64. change (2 ^ (6 * 0)) with 1.
  rewrite Z.div_1_r.
  rewrite decode_continuation;
    [ | lia | div_lia
      | destruct (Z.eqb_spec (cp / 262144) 0), (Z.eqb_spec (cp / 262144) 4);
        div_lia ].
  change (0 + 1 =? 3) with false. cbv beta iota zeta. cbn [app].
  rewrite decode_continuation by div_lia.
  change (0 + 1 + 1 =? 3) with false. cbv beta iota zeta. cbn [app].
  rewrite decode_continuation by div_lia.
  change (0 + 1 + 1 + 1 =? 3) with true. cbv beta iota zeta. cbn [app].
  f_equal. div_lia.
Qed.

Lemma utf8_decode_encode (cps : list Z) :
  Forall is_scalar cps -> utf8_decode (utf8_encode cps) = cps.
Proof.
  unfold utf8_decode, utf8_encode.
  induction 1 as [|cp cps Hcp _ IH]; [reflexivity|].
  cbn [flat_map]. rewrite decode_encode_scalar by assumption.
  now rewrite IH.
Qed.

(** Induction over a string two code units at a time. *)
Lemma jsstring_pair_ind (P : jsstring -> Prop) :
  P [] -> (forall c, P [c]) ->
  (forall c t r, P r -> P (t :: r) -> P (c :: t :: r)) ->
  forall s, P s.
Proof.
  intros H0 H1 H2 s.
  assert (H : P s /\ forall c, P (c :: s)); [|apply H].
  induction s as [|t r [IHr IHtr]]; split; auto.
Qed.

Lemma is_lead_spec c : is_lead c = true <-> 55296 <= c <= 56319.
Proof. unfold is_lead. rewrite andb_true_iff, !Z.leb_le. tauto. Qed.

Lemma is_trail_spec c : is_trail c = true <-> 56320 <= c <= 57343.
Proof. unfold is_trail. rewrite andb_true_iff, !Z.leb_le. tauto. Qed.

Lemma is_code_unit_spec c : is_code_unit c = true <-> 0 <= c < 65536.
Proof. unfold is_code_unit. rewrite andb_true_iff, Z.leb_le, Z.ltb_lt. tauto. Qed.

Lemma pair_code_point (c t : Z) :
  55296 <= c <= 56319 -> 56320 <= t <= 57343 ->
  let cp := 65536 + Z.shiftl (c - 55296) 10 + (t - 56320) in
  is_scalar cp /\ utf16_encode_scalar cp = [c; t].
Proof.
  intros Hc Ht. cbv zeta. rewrite Z.shiftl_mul_pow2 by lia.
  change (2 ^ 10) with 1024. split.
  - right. lia.
  - unfold utf16_encode_scalar.
    destruct (Z.ltb_spec (65536 + (c - 55296) * 1024 + (t - 56320)) 65536);
      [lia|].
    rewrite Z.shiftr_div_pow2 by lia.
    change 1023 with (2 ^ 10 - 1). rewrite land_low_bits by lia.
    change (2 ^ 10) with 1024.
    f_equal; [|f_equal]; div_lia.
Qed.

Lemma to_scalars_well_formed (s : jsstring) :
  well_formed s = true ->
  Forall is_scalar (to_scalars s) /\ utf16_encode (to_scalars s) = s.
Proof.
  induction s as [|c|c t r IHr IHtr] using jsstring_pair_ind.
  - intros _. split; [constructor|reflexivity].
  - cbn [well_formed to_scalars].
    destruct (is_lead c) eqn:El; [discriminate|].
    destruct (is_trail c) eqn:Et; [discriminate|].
    cbn [negb andb]. rewrite andb_true_r. intros Hc%is_code_unit_spec.
    assert (Hs : is_scalar c).
    { unfold is_scalar. destruct (Z.lt_ge_cases c 55296); [left; lia|right].
      destruct (Z.le_gt_cases c 56319) as [Hle|Hgt].
      - assert (is_lead c = true) by (apply is_lead_spec; lia). congruence.
      - destruct (Z.le_gt_cases c 57343).
        + assert (is_trail c = true) by (apply is_trail_spec; lia). congruence.
        + lia. }
    split; [constructor; [assumption|constructor]|].
    unfold utf16_encode. cbn [flat_map app]. unfold utf16_encode_scalar.
    destruct (Z.ltb_spec c 65536); [reflexivity|lia].
  - remember (t :: r) as tr eqn:Etr.
    cbn [well_formed to_scalars].
    destruct (is_lead c) eqn:El.
    + subst tr. destruct (is_trail t) eqn:Et; [|discriminate].
      cbn [andb]. intros Hr. destruct (IHr Hr) as [Hf He].
      apply is_lead_spec in El. apply is_trail_spec in Et.
      destruct (pair_code_point c t El Et) as [Hs Hp].
      split; [constructor; assumption|].
      unfold utf16_encode in *. cbn [flat_map]. rewrite Hp, He. reflexivity.
    + destruct (is_trail c) eqn:Etc; [discriminate|].
      cbn [negb andb]. intros [Hc Hw]%andb_true_iff.
      apply is_code_unit_spec in Hc.
      destruct (IHtr Hw) as [Hf He].
      assert (Hs : is_scalar c).
      { unfold is_scalar. destruct (Z.lt_ge_cases c 55296); [left; lia|right].
        destruct (Z.le_gt_cases c 56319) as [Hle|Hgt].
        - assert (is_lead c = true) by (apply is_lead_spec; lia). congruence.
        - destruct (Z.le_gt_cases c 57343).
          + assert (is_trail c = true) by (apply is_trail_spec; lia). congruence.
          + lia. }
      split; [constructor; assumption|].
      unfold utf16_encode in *. cbn [flat_map]. rewrite He.
      unfold utf16_encode_scalar.
      destruct (Z.ltb_spec c 65536); [reflexivity|lia].
Qed.

(** The first code point of a well-formed string is a byte order mark
    only when its first code unit is. *)
Lemma strip_BOM_to_scalars (s : jsstring) :
  well_formed s = true -> hd 0 s <> BOM ->
  strip_BOM (to_scalars s) = to_scalars s.
Proof.
  destruct s as [|c r]; [reflexivity|].
  cbn [hd well_formed to_scalars]. intros Hw Hc.
  destruct (is_lead c) eqn:El.
  - destruct r as [|t r']; [discriminate|].
    destruct (is_trail t) eqn:Et; [|discriminate].
    apply is_lead_spec in El. apply is_trail_spec in Et.
    cbn [strip_BOM]. rewrite Z.shiftl_mul_pow2 by lia.
    destruct (Z.eqb_spec (65536 + (c - 55296) * 2 ^ 10 + (t - 56320)) BOM)
      as [E|_]; [unfold BOM in E; lia|reflexivity].
  - destruct (is_trail c) eqn:Et; [discriminate|].
    cbn [strip_BOM]. destruct (Z.eqb_spec c BOM); [contradiction|reflexivity].
Qed.

(** Decoding what was encoded gives the string back when it is well
    formed and does not start with a byte order mark. *)
Lemma TextDecoder_TextEncoder (s : jsstring) :
  well_formed s = true -> hd 0 s <> BOM ->
  TextDecoder_decode (TextEncoder_encode s) = s.
Proof.
  intros Hw Hb. unfold TextDecoder_decode, TextEncoder_encode.
  destruct (to_scalars_well_formed s Hw) as [Hf He].
  rewrite utf8_decode_encode by assumption.
  rewrite strip_BOM_to_scalars by assumption. exact He.
Qed.

End CodecFacts.

(** ** The credential vault *)

Section VaultFacts.
Import Bytes Text Vault Random Props.

Lemma stub_strip_prefix (p l : list byte) : Stub.strip_prefix p (p ++ l) = Some l.
Proof.
  induction p as [|a p IH]; [reflexivity|].
  cbn [app Stub.strip_prefix].
  replace (Byte.eqb a a) with true by (symmetry; apply Byte.byte_dec_lb; reflexivity).
  exact IH.
Qed.

Lemma stub_AES_GCM_correct : AES_GCM_correct Stub.platform.
Proof. intros key iv data. apply stub_strip_prefix. Qed.

(** Whatever the string, decryption under the password of the encryption
    returns what the decoder makes of the encoded secret. *)
Lemma decrypt_encrypt (pf : Platform) (apiKey password : jsstring) (r : source) :
  AES_GCM_correct pf ->
  decryptApiKey pf (fst (encryptApiKey pf apiKey password r)) password
  = Some (TextDecoder_decode (TextEncoder_encode apiKey)).
Proof.
  intros Hgcm. unfold encryptApiKey, decryptApiKey, getRandomValues.
  cbn [fst salt iv encrypted]. rewrite !Uint8Array_from_Array_from.
  rewrite Hgcm. reflexivity.
Qed.

(** C1, as amended: for every secret that is well-formed UTF-16 and does
    not begin with the byte order mark U+FEFF, and every password,
    decrypting the encrypted secret with the same password returns the
    secret.  AES-GCM is assumed to decrypt what it encrypted. *)
Theorem decrypt_encrypt_roundtrip (pf : Platform)
  (secret password : jsstring) (r : source) :
  AES_GCM_correct pf ->
  well_formed secret = true ->
  hd 0 secret <> BOM ->
  decryptApiKey pf (fst (encryptApiKey pf secret password r)) password
  = Some secret.
Proof.
  intros Hgcm Hw Hb. rewrite decrypt_encrypt by assumption.
  now rewrite TextDecoder_TextEncoder.
Qed.

Lemma decrypt_encrypt_roundtrip_witness :
  AES_GCM_correct Stub.platform
  /\ well_formed (of_string "sk-proj-42") = true
  /\ hd 0 (of_string "sk-proj-42") <> BOM
  /\ decryptApiKey Stub.platform
       (fst (encryptApiKey Stub.platform (of_string "sk-proj-42")
               (of_string "00ff") Stub.entropy))
       (of_string "00ff")
     = Some (of_string "sk-proj-42").
Proof.
  assert (Hb : hd 0 (of_string "sk-proj-42") <> BOM) by (vm_compute; discriminate).
  split; [exact stub_AES_GCM_correct|].
  split; [reflexivity|]. split; [exact Hb|].
  exact (decrypt_encrypt_roundtrip Stub.platform (of_string "sk-proj-42")
           (of_string "00ff") Stub.entropy stub_AES_GCM_correct eq_refl Hb).
Defined.

(** C1 as stated fails: a secret that begins with U+FEFF comes back
    without it. *)
Lemma roundtrip_loses_byte_order_mark :
  ~ (forall (pf : Platform) (secret password : jsstring) (r : source),
       AES_GCM_correct pf -> secret <> [] ->
       decryptApiKey pf (fst (encryptApiKey pf secret password r)) password
       = Some secret).
Proof.
  intros H.
  specialize (H Stub.platform [65279; 115; 107] (of_string "00ff") Stub.entropy
                stub_AES_GCM_correct ltac:(discriminate)).
  rewrite decrypt_encrypt in H by exact stub_AES_GCM_correct.
  vm_compute in H. discriminate H.
Qed.

End VaultFacts.

(** ** The gateway: how a computation proceeds *)

Section StepFacts.
Import Json JsonOps Js Text Vault Store Http Gateway Props.

Variable pf : Platform.
Variable w : World.

Lemma bind_returns {A B} (m : M A) (k : A -> M B) st b st' :
  bind m k st = (Returns b, st') ->
  exists a st1, m st = (Returns a, st1) /\ k a st1 = (Returns b, st').
Proof.
  unfold bind. destruct (m st) as [[e|a|] st1]; intros H.
  - discriminate.
  - eauto.
  - discriminate.
Qed.

Lemma bind_throws {A B} (m : M A) (k : A -> M B) st e st' :
  bind m k st = (Throws e, st') ->
  m st = (Throws e, st')
  \/ exists a st1, m st = (Returns a, st1) /\ k a st1 = (Throws e, st').
Proof.
  unfold bind. destruct (m st) as [[e1|a|] st1]; intros H.
  - left. injection H as -> ->. reflexivity.
  - right. eauto.
  - discriminate.
Qed.

(** The first computation threw or returned, or it stalled. *)
Lemma bind_cases {A B} (m : M A) (k : A -> M B) st r st' :
  bind m k st = (r, st') ->
  ((exists e, m st = (Throws e, st') /\ r = Throws e)
   \/ exists a st1, m st = (Returns a, st1) /\ k a st1 = (r, st'))
  \/ (m st = (Stalls, st') /\ r = Stalls).
Proof.
  unfold bind. destruct (m st) as [[e|a|] st1]; intros H.
  - left. left. injection H as <- <-. eauto.
  - left. right. eauto.
  - right. injection H as <- <-. auto.
Qed.

(** Reading a property. *)
Lemma get_returns (v : value) (p : string) st x st' :
  get pf v p st = (Returns x, st') ->
  is_nullish v = false /\ x = prop v p /\ st' = st.
Proof.
  unfold get, raise, throw, ret. destruct (is_nullish v); intros H.
  - discriminate.
  - injection H as <- <-. auto.
Qed.

Lemma get_throws (v : value) (p : string) st e st' :
  get pf v p st = (Throws e, st') -> exists message, e = Err.Error message.
Proof.
  unfold get, raise, throw, ret. destruct (is_nullish v); intros H.
  - injection H as <- _. eauto.
  - discriminate.
Qed.

Lemma get_state (v : value) (p : string) st r st' :
  get pf v p st = (r, st') -> st' = st.
Proof.
  unfold get, raise, throw, ret. destruct (is_nullish v); intros H;
    now injection H as _ <-.
Qed.

Lemma get_settles (v : value) (p : string) st st' :
  get pf v p st = (Stalls, st') -> False.
Proof. unfold get, raise, throw, ret. destruct (is_nullish v); discriminate. Qed.

Lemma as_text_state (v : value) st r st' :
  as_text pf v st = (r, st') -> st' = st.
Proof.
  unfold as_text, raise, throw, ret. destruct v; intros H; now injection H as _ <-.
Qed.

Lemma as_text_settles (v : value) st st' :
  as_text pf v st = (Stalls, st') -> False.
Proof. unfold as_text, raise, throw, ret. destruct v; discriminate. Qed.

(** Reading the body of a response. *)
Lemma response_json_returns response st v st' :
  response_json response st = (Returns v, st') ->
  json response = inr v /\ st' = st.
Proof.
  unfold response_json, ret, throw. destruct (json response); intros H.
  - discriminate.
  - injection H as <- <-. auto.
Qed.

Lemma response_json_throws response st e st' :
  response_json response st = (Throws e, st') ->
  exists message, e = Err.Error message.
Proof.
  unfold response_json, ret, throw. destruct (json response); intros H.
  - injection H as <- _. eauto.
  - discriminate.
Qed.

Lemma response_json_state response st r st' :
  response_json response st = (r, st') -> st' = st.
Proof.
  unfold response_json, ret, throw. destruct (json response); intros H;
    now injection H as _ <-.
Qed.

Lemma response_json_settles response st st' :
  response_json response st = (Stalls, st') -> False.
Proof. unfold response_json, ret, throw. destruct (json response); discriminate. Qed.

(** Writing a conversation. *)
Lemma sync_set_conversation_returns key c st u st' :
  sync_set_conversation w key c st = (Returns u, st') ->
  sync_set_error w key c = None
  /\ st' = {| storage := with_conversation key c (storage st); sent := sent st |}.
Proof.
  unfold sync_set_conversation. destruct (sync_set_error w key c); intros H.
  - discriminate.
  - injection H as _ <-. auto.
Qed.

Lemma sync_set_conversation_throws key c st e st' :
  sync_set_conversation w key c st = (Throws e, st') ->
  st' = st /\ exists message, e = Err.Error message.
Proof.
  unfold sync_set_conversation. destruct (sync_set_error w key c); intros H.
  - injection H as <- <-. eauto.
  - discriminate.
Qed.

Lemma sync_set_conversation_settles key c st st' :
  sync_set_conversation w key c st = (Stalls, st') -> False.
Proof.
  unfold sync_set_conversation. destruct (sync_set_error w key c); discriminate.
Qed.

(** Handing a request to [fetch]: the request is logged, whatever comes
    of it. *)
Lemma do_fetch_state request st r st' :
  do_fetch w request st = (r, st') ->
  st' = {| storage := storage st; sent := request :: sent st |}
  /\ match r with
     | Throws e =>
         exists message,
           fetch w request = FetchRejects message /\ e = Err.Error message
     | Returns response => fetch w request = FetchResolves response
     | Stalls => fetch w request = FetchStalls
     end.
Proof.
  unfold do_fetch. destruct (fetch w request); intros H; injection H as <- <-;
    eauto.
Qed.

(** The classifier of unsupported models. *)
Lemma isUnsupportedModelError_state errorData status st r st' :
  isUnsupportedModelError pf errorData status st = (r, st') ->
  st' = st /\ r <> Stalls.
Proof.
  unfold isUnsupportedModelError, bind, get, as_text, raise, throw, ret.
  destruct (is_nullish errorData);
    [intros H; injection H as <- <-; split; [reflexivity|discriminate]|].
  destruct (truthy (prop errorData "error"));
    [|intros H; injection H as <- <-; split; [reflexivity|discriminate]].
  destruct (is_string _ _);
    destruct (or_else _ _); intros H; injection H as <- <-;
    (split; [reflexivity|discriminate]).
Qed.

(** What the classifier says of a payload that can be examined, and what
    it throws for one that cannot. *)
Lemma isUnsupportedModelError_examinable errorData status st :
  if examinable errorData
  then exists flag,
         isUnsupportedModelError pf errorData status st = (Returns flag, st)
  else exists f,
         isUnsupportedModelError pf errorData status st
         = (Throws (Err.Error (fault_message pf f)), st).
Proof.
  unfold examinable, isUnsupportedModelError, bind, get, as_text, raise, throw,
    ret.
  destruct (is_nullish errorData); cbn [negb andb]; [eauto|].
  destruct (truthy (prop errorData "error")); cbn [negb orb]; [|eauto].
  destruct (is_string _ _);
    destruct (or_else _ _); eauto.
Qed.

(** The error made from an error response: thrown, never returned. *)
Lemma throw_http_error_state {A} prefix response st (r : Result A) st' :
  throw_http_error pf prefix response st = (r, st') ->
  st' = st /\ exists e, r = Throws e.
Proof.
  unfold throw_http_error, bind, throw.
  destruct (isUnsupportedModelError pf _ _ st) as [[e|flag|] st1] eqn:E;
    apply isUnsupportedModelError_state in E as [-> Hn];
    intros H; injection H as <- <-; eauto.
  contradiction.
Qed.

Lemma throw_http_error_throws {A} prefix response st (a : A) st' :
  throw_http_error pf prefix response st = (Returns a, st') -> False.
Proof.
  intros H. apply throw_http_error_state in H as [_ [e H]]. discriminate H.
Qed.

(** The error made from an error response carries the status and the
    payload of the response, unless the payload made the classifier
    throw. *)
Lemma throw_http_error_forwards {A} prefix response st (e : Err.t) st' :
  @throw_http_error pf A prefix response st = (Throws e, st') ->
  (examinable (error_payload response) = false
   /\ exists f, e = Err.Error (fault_message pf f))
  \/ (examinable (error_payload response) = true
      /\ Err.message e
         = prefix +:+ String_of_number (status response) +:+ ", message: "
           +:+ provider_message (error_payload response) response
      /\ Err.status e = Some (status response)
      /\ Err.errorData e = Some (error_payload response)).
Proof.
  unfold throw_http_error, bind, throw.
  assert (Hx := isUnsupportedModelError_examinable (error_payload response)
                  (status response) st).
  destruct (examinable (error_payload response)).
  - destruct Hx as [flag ->]. intros H. injection H as <- _. right. auto.
  - destruct Hx as [f ->]. intros H. injection H as <- _. left. eauto.
Qed.

(** The conversation handed to the exchange starts with the system
    message of the purpose; it was read, or created with that message
    alone. *)
Lemma getOrCreateConversation_returns userId type learningGoal st c st' :
  getOrCreateConversation pf w userId type learningGoal st = (Returns c, st') ->
  exists rest,
    messages c
    = message_object "system" (getSystemPrompt pf type learningGoal) :: rest.
Proof.
  unfold getOrCreateConversation.
  destruct (conversations (storage st) !! conversation_key userId type)
    as [c0|]; intros H.
  - injection H as <- <-. cbn [messages].
    destruct (messages c0) as [|m rest]; cbn [assign_first]; eauto.
  - apply bind_returns in H as (u & st1 & _ & H). injection H as <- <-.
    cbn [messages]. eauto.
Qed.

Lemma getOrCreateConversation_throws userId type learningGoal st e st' :
  getOrCreateConversation pf w userId type learningGoal st = (Throws e, st') ->
  st' = st /\ exists message, e = Err.Error message.
Proof.
  unfold getOrCreateConversation.
  destruct (conversations (storage st) !! conversation_key userId type); intros H.
  - discriminate.
  - apply bind_throws in H as [H|(u & st1 & _ & H)]; [|discriminate].
    eapply sync_set_conversation_throws. exact H.
Qed.

Lemma getOrCreateConversation_settles userId type learningGoal st st' :
  getOrCreateConversation pf w userId type learningGoal st = (Stalls, st') ->
  False.
Proof.
  unfold getOrCreateConversation, bind.
  destruct (conversations (storage st) !! conversation_key userId type);
    [discriminate|].
  destruct (sync_set_conversation w _ _ st) as [[e|u|] st1] eqn:E;
    try discriminate.
  intros _. eapply sync_set_conversation_settles. exact E.
Qed.

End StepFacts.

(** [bind_cases H as p]: the cases of a [bind] whose first computation is
    not a [fetch], and so cannot stall. *)
Ltac cannot_stall H :=
  exfalso;
  first [ eapply get_settles; exact H
        | eapply as_text_settles; exact H
        | eapply response_json_settles; exact H
        | eapply sync_set_conversation_settles; exact H
        | eapply getOrCreateConversation_settles; exact H
        | apply isUnsupportedModelError_state in H as [_ H]; now apply H ].

Tactic Notation "bind_cases" hyp(H) "as" simple_intropattern(p) :=
  apply bind_cases in H as [p|[H _]]; [..|solve [cannot_stall H]].

(** ** What a call of the gateway does to the state *)

Section EffectFacts.
Import Json JsonOps Js Text Vault Store Http Gateway Props Facts.

Variable pf : Platform.
Variable w : World.

Lemma sync_set_conversation_state key c st r st' :
  sync_set_conversation w key c st = (r, st') ->
  (st' = st /\ exists e, r = Throws e)
  \/ (sync_set_error w key c = None /\ st' = recorded key c st /\ r = Returns tt).
Proof.
  unfold sync_set_conversation. destruct (sync_set_error w key c); intros H;
    injection H as <- <-; eauto.
Qed.

Lemma slice_last2_app {A} (l : list A) (a b : A) :
  slice_last2 (l ++ [a; b]) = [a; b].
Proof.
  unfold slice_last2. rewrite length_app. cbn [length].
  replace (length l + 2 - 2)%nat with (length l) by lia.
  rewrite skipn_app, skipn_all, Nat.sub_diag. reflexivity.
Qed.

Lemma keep_system_and_last_pair_app (m : value) (rest : list value) (a b : value) :
  keep_system_and_last_pair ((m :: rest ++ [a]) ++ [b]) = [m; a; b].
Proof.
  unfold keep_system_and_last_pair. cbn [app first]. f_equal.
  change (m :: (rest ++ [a]) ++ [b]) with ((m :: rest ++ [a]) ++ [b]).
  change (m :: rest ++ [a]) with ((m :: rest) ++ [a]).
  rewrite <- app_assoc. apply slice_last2_app.
Qed.

Lemma window_of_three (prompt : string) (a b : value) :
  is_window {| messages := [message_object "system" prompt; a; b] |}.
Proof. split; [cbn; lia|reflexivity]. Qed.

Lemma fresh_conversation_window type learningGoal :
  is_window (fresh_conversation pf type learningGoal).
Proof. split; [cbn; lia|reflexivity]. Qed.

Ltac nothing_more :=
  left; split; [|exact I].

Lemma openai_exchange_effect result userId type userMessage language
  learningGoal apiKeyToUse conversation systemPromptText st r st' prompt rest :
  messages conversation = message_object "system" prompt :: rest ->
  openai_exchange pf w result userId type userMessage language learningGoal
    apiKeyToUse conversation systemPromptText st = (r, st') ->
  exchange_effect w (conversation_key userId type)
    (request_route pf result OPENAI userId apiKeyToUse) st r st'.
Proof.
  unfold openai_exchange, exchange_effect. intros Hm H. rewrite Hm in H.
  bind_cases H as [(e & H & ->)|(role0 & st1 & Hg & H)].
  { nothing_more. eapply get_state. exact H. }
  apply get_returns in Hg as (_ & -> & ->).
  change (prop (message_object "system" prompt) "role") with (VStr "system") in H.
  change (is_string (VStr "system") "system") with true in H.
  cbn [negb] in H.
  assert (Hsys : match message_object "system" prompt with
                 | VObj fields =>
                     VObj (assign_field "content" (VStr systemPromptText) fields)
                     :: rest
                 | _ => message_object "system" prompt :: rest
                 end = message_object "system" systemPromptText :: rest)
    by reflexivity.
  rewrite Hsys in H. clear Hsys.
  match type of H with
  | bind (do_fetch _ ?req) _ _ = _ => set (request := req) in *
  end.
  assert (Hroute : request_route pf result OPENAI userId apiKeyToUse request).
  { unfold request_route, request. change (String.eqb OPENAI OPENAI) with true.
    cbv iota. cbn [url authorization key_parameter body].
    destruct (isOwnCredits result); repeat split; reflexivity. }
  right. exists request. split; [exact Hroute|]. clearbody request.
  apply bind_cases in H
    as [[(e & H & ->)|(response & st2 & Hf & H)]|[H ->]].
  { nothing_more. apply do_fetch_state in H as [-> _]. reflexivity. }
  2:{ nothing_more. apply do_fetch_state in H as [-> _]. reflexivity. }
  apply do_fetch_state in Hf as [-> Hf].
  destruct (ok response) eqn:Hok; cbn [negb] in H.
  2:{ left. apply throw_http_error_state in H as [-> [e ->]].
      split; [reflexivity|exact I]. }
  bind_cases H as [(e & H & ->)|(data & st3 & Hj & H)].
  { nothing_more. eapply response_json_state. exact H. }
  apply response_json_state in Hj as ->.
  bind_cases H as [(e & H & ->)|(choices & st4 & Hc & H)].
  { nothing_more. eapply get_state. exact H. }
  apply get_state in Hc as ->.
  destruct choices as [| | | | |[|choice others]|];
    try (injection H as <- <-; nothing_more; reflexivity).
  bind_cases H as [(e & H & ->)|(assistantMessage & st5 & Ha & H)].
  { nothing_more. eapply get_state. exact H. }
  apply get_state in Ha as ->.
  destruct (_ || _); [injection H as <- <-; nothing_more; reflexivity|].
  change ((message_object "system" systemPromptText :: rest)
          ++ [message_object "user" userMessage])
    with (message_object "system" systemPromptText
          :: rest ++ [message_object "user" userMessage]) in H.
  rewrite keep_system_and_last_pair_app in H.
  bind_cases H as [(e & H & ->)|(u & st6 & Hs & H)].
  { nothing_more. apply sync_set_conversation_state in H
      as [[-> _]|(_ & _ & H)]; [reflexivity|discriminate H]. }
  apply sync_set_conversation_state in Hs as [[_ [e He]]|(_ & -> & _)];
    [discriminate He|].
  right. do 2 eexists. split; [exact Hf|]. split; [exact Hok|].
  split; [apply window_of_three|].
  destruct (JSON_parse pf _); now injection H as _ <-.
Qed.

Lemma google_exchange_effect result userId type userMessage language
  learningGoal apiKeyToUse conversation systemPromptText st r st' prompt rest :
  messages conversation = message_object "system" prompt :: rest ->
  google_exchange pf w result userId type userMessage language learningGoal
    apiKeyToUse conversation systemPromptText st = (r, st') ->
  exchange_effect w (conversation_key userId type)
    (request_route pf result GOOGLE userId apiKeyToUse) st r st'.
Proof.
  unfold google_exchange, exchange_effect. cbv zeta. intros Hm H.
  rewrite Hm in H.
  match type of H with
  | bind (do_fetch _ ?req) _ _ = _ => set (request := req) in *
  end.
  assert (Hroute : request_route pf result GOOGLE userId apiKeyToUse request).
  { unfold request_route, request. change (String.eqb GOOGLE OPENAI) with false.
    cbv iota. cbn [url authorization key_parameter]. repeat split. }
  right. exists request. split; [exact Hroute|]. clearbody request.
  apply bind_cases in H
    as [[(e & H & ->)|(response & st2 & Hf & H)]|[H ->]].
  { nothing_more. apply do_fetch_state in H as [-> _]. reflexivity. }
  2:{ nothing_more. apply do_fetch_state in H as [-> _]. reflexivity. }
  apply do_fetch_state in Hf as [-> Hf].
  destruct (ok response) eqn:Hok; cbn [negb] in H.
  2:{ left. apply throw_http_error_state in H as [-> [e ->]].
      split; [reflexivity|exact I]. }
  bind_cases H as [(e & H & ->)|(data & st3 & Hj & H)].
  { nothing_more. eapply response_json_state. exact H. }
  apply response_json_state in Hj as ->.
  bind_cases H as [(e & H & ->)|(candidates & st4 & Hc & H)].
  { nothing_more. eapply get_state. exact H. }
  apply get_state in Hc as ->.
  destruct candidates as [| | | | |[|candidate others]|];
    try (injection H as <- <-; nothing_more; reflexivity).
  bind_cases H as [(e & H & ->)|(content & st5 & Ha & H)].
  { nothing_more. eapply get_state. exact H. }
  apply get_state in Ha as ->.
  destruct (negb (truthy content));
    [injection H as <- <-; nothing_more; reflexivity|].
  destruct (prop content "parts") as [| | | | |[|part parts]|];
    try (injection H as <- <-; nothing_more; reflexivity).
  bind_cases H as [(e & H & ->)|(text & st6 & Ht & H)].
  { nothing_more. eapply get_state. exact H. }
  apply get_state in Ht as ->.
  destruct (negb (truthy text));
    [injection H as <- <-; nothing_more; reflexivity|].
  bind_cases H as [(e & H & ->)|(role0 & st7 & Hr & H)].
  { nothing_more. eapply get_state. exact H. }
  apply get_returns in Hr as (_ & -> & ->).
  cbn [app first] in H.
  change (prop (message_object "system" prompt) "role") with (VStr "system") in H.
  change (is_string (VStr "system") "system") with true in H. cbv iota in H.
  change (message_object "system" prompt
          :: rest ++ [message_object "user" userMessage;
                      VObj [("role", VStr "assistant"); ("content", text)]])
    with ((message_object "system" prompt :: rest)
          ++ [message_object "user" userMessage;
              VObj [("role", VStr "assistant"); ("content", text)]]) in H.
  unfold keep_system_and_last_pair in H. rewrite slice_last2_app in H.
  cbn [app first] in H.
  bind_cases H as [(e & H & ->)|(u & st8 & Hs & H)].
  { nothing_more. apply sync_set_conversation_state in H
      as [[-> _]|(_ & _ & H)]; [reflexivity|discriminate H]. }
  apply sync_set_conversation_state in Hs as [[_ [e He]]|(_ & -> & _)];
    [discriminate He|].
  right. do 2 eexists. split; [exact Hf|]. split; [exact Hok|].
  split; [apply window_of_three|].
  destruct (JSON_parse pf _); now injection H as _ <-.
Qed.

(** The conversation is read, or created with the system message alone. *)
Lemma getOrCreateConversation_state userId type learningGoal st r st' :
  getOrCreateConversation pf w userId type learningGoal st = (r, st') ->
  st' = st
  \/ (conversations (storage st) !! conversation_key userId type = None
      /\ st' = recorded (conversation_key userId type)
                 (fresh_conversation pf type learningGoal) st).
Proof.
  unfold getOrCreateConversation.
  destruct (conversations (storage st) !! conversation_key userId type) eqn:E;
    intros H.
  - left. now injection H as _ <-.
  - bind_cases H as [(e & H & ->)|(u & st1 & Hs & H)].
    + left. apply sync_set_conversation_state in H as [[-> _]|(_ & _ & H)];
        [reflexivity|discriminate H].
    + apply sync_set_conversation_state in Hs as [[_ [e He]]|(_ & -> & _)];
        [discriminate He|].
      right. split; [reflexivity|]. now injection H as _ <-.
Qed.

(** A call that the checks turn down is rejected at once. *)
Lemma callAIProviderAPI_turned_down userId type userMessage language apiKey st e :
  turned_down pf (storage st) (string_or (selectedProvider (storage st)) OPENAI)
    apiKey type = Some e ->
  callAIProviderAPI pf w userId type userMessage language apiKey st
  = (Rejected (reject_Error e), st).
Proof.
  unfold turned_down, callAIProviderAPI.
  destruct (resolve_credential pf _ _ _) as [e0|apiKeyToUse].
  - intros H. now injection H as <-.
  - destruct (is_conversation_type type); [discriminate|].
    intros H. now injection H as <-.
Qed.

(** The whole call: the checks turn it down and nothing happens, or it
    gets to the exchange, before which the conversation may have been
    created. *)
Lemma callAIProviderAPI_effect userId type userMessage language apiKey st
  outcome st' :
  callAIProviderAPI pf w userId type userMessage language apiKey st
  = (outcome, st') ->
  let result := storage st in
  let provider := string_or (selectedProvider result) OPENAI in
  let learningGoal :=
    string_or (learningGoal result) "General language learning" in
  let key := conversation_key userId type in
  match turned_down pf result provider apiKey type with
  | Some e => outcome = Rejected (reject_Error e) /\ st' = st
  | None =>
      exists apiKeyToUse st0 r,
        resolve_credential pf result provider apiKey = inr apiKeyToUse
        /\ (st0 = st
            \/ (conversations result !! key = None
                /\ st0 = recorded key (fresh_conversation pf type learningGoal)
                           st))
        /\ exchange_effect w key
             (request_route pf result provider userId apiKeyToUse) st0 r st'
        /\ (is_resolved outcome <-> ~ no_result r)
  end.
Proof.
  cbv zeta. intros H.
  destruct (turned_down pf _ _ _ _) as [e|] eqn:Et.
  { rewrite (callAIProviderAPI_turned_down _ _ _ _ _ _ _ Et) in H.
    now injection H as <- <-. }
  unfold turned_down in Et. unfold callAIProviderAPI in H.
  destruct (resolve_credential pf _ _ _) as [e|apiKeyToUse] eqn:Ec;
    [discriminate Et|].
  destruct (is_conversation_type type); [|discriminate Et]. cbn [negb] in H.
  destruct (exchange pf w _ _ _ _ _ _ _ _ st) as [r st1] eqn:E.
  assert (st1 = st') as ->
      by (destruct r as [e|[data|]|]; now injection H as _ <-).
  assert (Hres : is_resolved outcome <-> ~ no_result r).
  { destruct r as [e|[data|]|]; injection H as <-; cbn; tauto. }
  clear H. unfold exchange in E.
  bind_cases E as [(e & E & ->)|(c & st0 & Hc & E)].
  { apply getOrCreateConversation_throws in E as [-> _].
    exists apiKeyToUse, st, (Throws e). split; [reflexivity|].
    split; [left; reflexivity|]. split; [|exact Hres].
    left. split; [reflexivity|exact I]. }
  exists apiKeyToUse, st0, r. split; [reflexivity|].
  split; [apply getOrCreateConversation_state in Hc as [->|[Hnone ->]]; auto|].
  split; [|exact Hres].
  apply getOrCreateConversation_returns in Hc as [rest Hm].
  destruct (String.eqb_spec (string_or (selectedProvider (storage st)) OPENAI)
              OPENAI) as [Ep|Ep].
  - rewrite Ep in *. eapply openai_exchange_effect; eassumption.
  - destruct (String.eqb_spec (string_or (selectedProvider (storage st)) OPENAI)
                GOOGLE) as [Eg|Eg].
    + rewrite Eg in *. eapply google_exchange_effect; eassumption.
    + injection E as <- <-. left. split; [reflexivity|exact I].
Qed.

(** Whatever a call wrote is a window. *)
Lemma callAIProviderAPI_writes_windows userId type userMessage language apiKey
  st outcome st' key c :
  callAIProviderAPI pf w userId type userMessage language apiKey st
  = (outcome, st') ->
  conversations (storage st') !! key = Some c ->
  conversations (storage st) !! key = Some c \/ is_window c.
Proof.
  intros H Hc. apply callAIProviderAPI_effect in H. cbv zeta in H.
  destruct (turned_down pf _ _ _ _) as [e|];
    [destruct H as [_ ->]; auto|].
  destruct H as (apiKeyToUse & st0 & r & _ & H0 & He & _).
  assert (Hw : forall k c0 (s : State) x,
             conversations (storage (recorded k c0 s)) !! key = Some x ->
             is_window c0 ->
             conversations (storage s) !! key = Some x \/ is_window x).
  { intros k c0 s x Hx Hwin.
    cbn [recorded storage with_conversation conversations] in Hx.
    destruct (decide (k = key)) as [->|Hne].
    - rewrite lookup_insert_eq in Hx. injection Hx as <-. auto.
    - rewrite lookup_insert_ne in Hx by exact Hne. auto. }
  assert (H1 : conversations (storage st0) !! key = Some c \/ is_window c).
  { destruct He as [[-> _]|(request & _
                            & [[-> _]|(response & c1 & _ & _ & Hwin & ->)])];
      [auto|auto|].
    eapply Hw; [exact Hc|exact Hwin]. }
  destruct H1 as [H1|H1]; [|auto].
  destruct H0 as [->|[_ ->]]; [auto|].
  eapply Hw; [exact H1|apply fresh_conversation_window].
Qed.

(** When the promise resolves, storage holds a window under the key of
    the call. *)
Lemma callAIProviderAPI_window userId type userMessage language apiKey st data st' :
  callAIProviderAPI pf w userId type userMessage language apiKey st
  = (Resolved data, st') ->
  stored_window userId type st'.
Proof.
  intros H. apply callAIProviderAPI_effect in H. cbv zeta in H.
  destruct (turned_down pf _ _ _ _) as [e|]; [destruct H as [H _]; discriminate H|].
  destruct H as (apiKeyToUse & st0 & r & _ & _ & He & Hres).
  assert (Hr : ~ no_result r) by (apply Hres; exact I).
  destruct He as [[_ Hn]|(request & _
                          & [[_ Hn]|(response & c & _ & _ & Hwin & ->)])];
    try contradiction.
  exists c. split; [|exact Hwin].
  cbn [recorded storage with_conversation conversations].
  apply lookup_insert_eq.
Qed.

End EffectFacts.

(** ** When the provider answers *)

Section ForwardFacts.
Import Json JsonOps Js Text Vault Store Http Gateway Props Facts.

Variable pf : Platform.
Variable w : World.

Lemma openai_reply_some (f : FetchResult) (reply : value) :
  openai_reply f = Some reply ->
  exists response data choice others,
    f = FetchResolves response /\ ok response = true
    /\ json response = inr data
    /\ prop data "choices" = VArr (choice :: others)
    /\ reply = prop choice "message"
    /\ truthy reply = true /\ truthy (prop reply "content") = true.
Proof.
  unfold openai_reply. destruct f as [message|response|]; try discriminate.
  destruct (ok response) eqn:Hok; [|discriminate].
  destruct (json response) as [message|data] eqn:Hj; [discriminate|].
  destruct (prop data "choices") as [| | | | |[|choice others]|] eqn:Hc;
    try discriminate.
  destruct (truthy (prop choice "message")) eqn:H1; [|discriminate].
  destruct (truthy (prop (prop choice "message") "content")) eqn:H2;
    [|discriminate].
  intros H. injection H as <-. exists response, data, choice, others. auto 10.
Qed.

Lemma google_reply_some (f : FetchResult) (reply : value) :
  google_reply f = Some reply ->
  exists response data candidate others part parts,
    f = FetchResolves response /\ ok response = true
    /\ json response = inr data
    /\ prop data "candidates" = VArr (candidate :: others)
    /\ prop (prop candidate "content") "parts" = VArr (part :: parts)
    /\ truthy (prop part "text") = true
    /\ reply = VObj [("role", VStr "assistant"); ("content", prop part "text")].
Proof.
  unfold google_reply. destruct f as [message|response|]; try discriminate.
  destruct (ok response) eqn:Hok; [|discriminate].
  destruct (json response) as [message|data] eqn:Hj; [discriminate|].
  destruct (prop data "candidates") as [| | | | |[|candidate others]|] eqn:Hc;
    try discriminate.
  destruct (prop (prop candidate "content") "parts")
    as [| | | | |[|part parts]|] eqn:Hp; try discriminate.
  destruct (truthy (prop part "text")) eqn:Ht; [|discriminate].
  intros H. injection H as <-.
  exists response, data, candidate, others, part, parts. auto 10.
Qed.

(** A value with a property that is not [undefined] is an object. *)
Lemma prop_defined (v : value) (p : string) :
  prop v p <> VUndefined -> is_nullish v = false /\ truthy v = true.
Proof. destruct v; cbn; auto; congruence. Qed.

(** With a storage service that takes every write, the conversation is
    always obtained. *)
Lemma getOrCreateConversation_accepted userId type learningGoal st :
  (forall key c, sync_set_error w key c = None) ->
  exists c rest st0,
    getOrCreateConversation pf w userId type learningGoal st = (Returns c, st0)
    /\ messages c
       = message_object "system" (getSystemPrompt pf type learningGoal) :: rest
    /\ sent st0 = sent st.
Proof.
  intros Hset. unfold getOrCreateConversation.
  destruct (conversations (storage st) !! conversation_key userId type)
    as [c0|].
  - destruct (messages c0) as [|m rest]; cbn [assign_first].
    + eexists _, [], st. cbn [messages]. auto.
    + eexists _, rest, st. cbn [messages]. auto.
  - unfold bind, sync_set_conversation, ret. rewrite Hset.
    eexists _, [], _. split; [reflexivity|]. cbn [messages sent]. auto.
Qed.

(** The OpenAI-like branch, when the provider replies and storage takes
    the write: the last exchange is stored, then the reply is parsed. *)
Lemma openai_exchange_replied result userId type userMessage language
  learningGoal apiKeyToUse conversation systemPromptText st prompt rest reply :
  messages conversation = message_object "system" prompt :: rest ->
  (forall key c, sync_set_error w key c = None) ->
  (forall sent_request, openai_reply (fetch w sent_request) = Some reply) ->
  exists request,
    openai_exchange pf w result userId type userMessage language learningGoal
      apiKeyToUse conversation systemPromptText st
    = (match JSON_parse pf (prop reply "content") with
       | inr data => Returns (Some data)
       | inl message => Throws (Err.Error message)
       end,
       recorded (conversation_key userId type)
         {| messages := [message_object "system" systemPromptText;
                         message_object "user" userMessage; reply] |}
         (logged request st)).
Proof.
  intros Hm Hset Hreply. unfold openai_exchange. rewrite Hm.
  unfold bind at 1. unfold get at 1.
  change (is_nullish (message_object "system" prompt)) with false. cbv iota.
  unfold ret at 1.
  change (prop (message_object "system" prompt) "role") with (VStr "system").
  change (is_string (VStr "system") "system") with true. cbn [negb].
  assert (Hsys : match message_object "system" prompt with
                 | VObj fields =>
                     VObj (assign_field "content" (VStr systemPromptText) fields)
                     :: rest
                 | _ => message_object "system" prompt :: rest
                 end = message_object "system" systemPromptText :: rest)
    by reflexivity.
  rewrite Hsys. clear Hsys.
  unfold bind at 1.
  match goal with
  | |- context [do_fetch w ?request st] =>
      set (sent_request := request);
      destruct (openai_reply_some _ _ (Hreply sent_request))
        as (response & data & choice & others & Hf & Hok & Hj & Hc & -> & H1
            & H2)
  end.
  exists sent_request. unfold do_fetch. rewrite Hf, Hok. cbn [negb].
  unfold bind at 1. unfold response_json. rewrite Hj. unfold ret at 1.
  unfold bind at 1. unfold get at 1.
  assert (Hdata : is_nullish data = false).
  { apply (prop_defined data "choices"). rewrite Hc. discriminate. }
  rewrite Hdata. unfold ret at 1. rewrite Hc.
  unfold bind at 1. unfold get at 1.
  assert (Hchoice : is_nullish choice = false).
  { apply (prop_defined choice "message"). intros E. rewrite E in H1.
    discriminate H1. }
  rewrite Hchoice. unfold ret at 1. rewrite H1, H2. cbn [negb orb].
  unfold bind at 1. unfold sync_set_conversation. rewrite Hset.
  change ((message_object "system" systemPromptText :: rest)
          ++ [message_object "user" userMessage])
    with (message_object "system" systemPromptText
          :: rest ++ [message_object "user" userMessage]).
  rewrite keep_system_and_last_pair_app.
  unfold recorded, logged. cbn [storage sent].
  destruct (JSON_parse pf _); reflexivity.
Qed.

(** The Google-like branch, likewise. *)
Lemma google_exchange_replied result userId type userMessage language
  learningGoal apiKeyToUse conversation systemPromptText st prompt rest reply :
  messages conversation = message_object "system" prompt :: rest ->
  (forall key c, sync_set_error w key c = None) ->
  (forall sent_request, google_reply (fetch w sent_request) = Some reply) ->
  exists request,
    google_exchange pf w result userId type userMessage language learningGoal
      apiKeyToUse conversation systemPromptText st
    = (match JSON_parse pf (prop reply "content") with
       | inr data => Returns (Some data)
       | inl message => Throws (Err.Error message)
       end,
       recorded (conversation_key userId type)
         {| messages := [message_object "system" prompt;
                         message_object "user" userMessage; reply] |}
         (logged request st)).
Proof.
  intros Hm Hset Hreply. unfold google_exchange. cbv zeta. rewrite Hm.
  unfold bind at 1.
  match goal with
  | |- context [do_fetch w ?request st] =>
      set (sent_request := request);
      destruct (google_reply_some _ _ (Hreply sent_request))
        as (response & data & candidate & others & part & parts & Hf & Hok & Hj
            & Hc & Hp & Ht & ->)
  end.
  exists sent_request. unfold do_fetch. rewrite Hf, Hok. cbn [negb].
  unfold bind at 1. unfold response_json. rewrite Hj. unfold ret at 1.
  unfold bind at 1. unfold get at 1.
  assert (Hdata : is_nullish data = false).
  { apply (prop_defined data "candidates"). rewrite Hc. discriminate. }
  rewrite Hdata. unfold ret at 1. rewrite Hc.
  unfold bind at 1. unfold get at 1.
  assert (Hcontent : prop candidate "content" <> VUndefined).
  { intros E. rewrite E in Hp. discriminate Hp. }
  assert (Hcand : is_nullish candidate = false).
  { apply (prop_defined candidate "content"). exact Hcontent. }
  rewrite Hcand. unfold ret at 1.
  assert (Htruthy : truthy (prop candidate "content") = true).
  { apply (prop_defined (prop candidate "content") "parts"). rewrite Hp.
    discriminate. }
  rewrite Htruthy. cbn [negb]. rewrite Hp.
  unfold bind at 1. unfold get at 1.
  assert (Hpart : is_nullish part = false).
  { apply (prop_defined part "text"). intros E. rewrite E in Ht.
    discriminate Ht. }
  rewrite Hpart. unfold ret at 1. rewrite Ht. cbn [negb].
  unfold bind at 1. unfold get at 1. cbn [app first].
  change (is_nullish (message_object "system" prompt)) with false. cbv iota.
  unfold ret at 1.
  change (prop (message_object "system" prompt) "role") with (VStr "system").
  change (is_string (VStr "system") "system") with true. cbv iota.
  change (message_object "system" prompt
          :: rest ++ [message_object "user" userMessage;
                      VObj [("role", VStr "assistant");
                            ("content", prop part "text")]])
    with ((message_object "system" prompt :: rest)
          ++ [message_object "user" userMessage;
              VObj [("role", VStr "assistant"); ("content", prop part "text")]]).
  unfold keep_system_and_last_pair. rewrite slice_last2_app. cbn [app first].
  unfold bind at 1. unfold sync_set_conversation. rewrite Hset.
  unfold recorded, logged. cbn [storage sent].
  change (prop (VObj [("role", VStr "assistant"); ("content", prop part "text")])
            "content") with (prop part "text").
  destruct (JSON_parse pf _); reflexivity.
Qed.

(** A call whose exchange goes through stores the last exchange and
    settles by the content of the reply. *)
Lemma callAIProviderAPI_goes_through (request : ChatRequest) (st : State)
  (reply : value) :
  goes_through pf w st request reply ->
  let provider := string_or (selectedProvider (storage st)) OPENAI in
  let learningGoal :=
    string_or (learningGoal (storage st)) "General language learning" in
  exists st',
    callAIProviderAPI pf w (userId request) (type request) (message request)
      (language request) (apiKey request) st
    = (parsed_reply pf provider reply, st')
    /\ conversations (storage st')
         !! conversation_key (userId request) (type request)
       = Some {| messages :=
                   [message_object "system"
                      (getSystemPrompt pf (type request) learningGoal);
                    message_object "user" (message request); reply] |}.
Proof.
  unfold goes_through. cbv zeta. intros (Ht & Hset & Hp).
  unfold turned_down in Ht. unfold callAIProviderAPI.
  destruct (resolve_credential pf _ _ _) as [e|apiKeyToUse]; [discriminate Ht|].
  destruct (is_conversation_type (type request)); [|discriminate Ht].
  cbn [negb]. unfold exchange. unfold bind at 1.
  destruct (getOrCreateConversation_accepted (userId request) (type request)
              (string_or (learningGoal (storage st)) "General language learning")
              st Hset) as (c & rest & st0 & -> & Hm & _).
  assert (Hlook : forall key x s,
             conversations (storage (recorded key x s)) !! key = Some x).
  { intros key x s. cbn [recorded storage with_conversation conversations].
    apply lookup_insert_eq. }
  unfold parsed_reply.
  destruct Hp as [[Hp Hreply]|[Hp Hreply]]; rewrite Hp.
  - change (String.eqb OPENAI OPENAI) with true. cbv iota.
    destruct (openai_exchange_replied (storage st) (userId request)
                (type request) (message request) (language request)
                (string_or (learningGoal (storage st))
                   "General language learning")
                apiKeyToUse c
                (getSystemPrompt pf (type request)
                   (string_or (learningGoal (storage st))
                      "General language learning"))
                st0 _ rest reply Hm Hset Hreply) as [sent_request ->].
    eexists. split; [|apply Hlook].
    destruct (JSON_parse pf _); reflexivity.
  - change (String.eqb GOOGLE OPENAI) with false.
    change (String.eqb GOOGLE GOOGLE) with true. cbv iota.
    destruct (google_exchange_replied (storage st) (userId request)
                (type request) (message request) (language request)
                (string_or (learningGoal (storage st))
                   "General language learning")
                apiKeyToUse c
                (getSystemPrompt pf (type request)
                   (string_or (learningGoal (storage st))
                      "General language learning"))
                st0 _ rest reply Hm Hset Hreply) as [sent_request ->].
    eexists. split; [|apply Hlook].
    destruct (JSON_parse pf _); reflexivity.
Qed.


End ForwardFacts.

(** ** The conversation window *)

Section WindowFacts.
Import Json JsonOps Js Text Vault Store Http Gateway Props Facts.

(** What is served is a call of the gateway. *)
Lemma serve_call (pf : Platform) (calls : list (World * ChatRequest))
  (st : State) (call : Served) :
  In call (serve pf calls st) ->
  callAIProviderAPI pf (served_by call) (userId (asked call))
    (type (asked call)) (message (asked call)) (language (asked call))
    (apiKey (asked call)) (before call)
  = (settled call, after call).
Proof.
  revert st. induction calls as [|[w request] calls IH]; intros st.
  - intros [].
  - cbn [serve].
    destruct (callAIProviderAPI pf w (userId request) (type request)
                (message request) (language request) (apiKey request) st)
      as [outcome st'] eqn:E.
    intros [<-|Hin]; [exact E|]. eapply IH. exact Hin.
Qed.

(** C2: for every conversation and every number of exchanges, in either
    branch, the conversation stored after each successful exchange has at
    most three messages and its first message has role [system].  The
    requests are served one after the other from any storage; each has its
    own user, purpose, text and network.  For each of them: when its
    promise resolves, storage holds a window under its key; whatever it
    came to, every conversation that storage holds afterwards is the one
    held before or is a window; and when its exchange goes through, the
    conversation stored is the system message, the message of the user and
    the reply, whether or not the content of the reply can then be
    parsed. *)
Theorem conversation_window_after_each_exchange (pf : Platform)
  (calls : list (World * ChatRequest)) (st : State) (call : Served) :
  In call (serve pf calls st) ->
  let request := asked call in
  let provider := string_or (selectedProvider (storage (before call))) OPENAI in
  let learningGoal :=
    string_or (learningGoal (storage (before call)))
      "General language learning" in
  (is_resolved (settled call) ->
   stored_window (userId request) (type request) (after call))
  /\ (forall key c,
        conversations (storage (after call)) !! key = Some c ->
        conversations (storage (before call)) !! key = Some c \/ is_window c)
  /\ (forall reply,
        goes_through pf (served_by call) (before call) request reply ->
        conversations (storage (after call))
          !! conversation_key (userId request) (type request)
        = Some {| messages :=
                    [message_object "system"
                       (getSystemPrompt pf (type request) learningGoal);
                     message_object "user" (message request); reply] |}
        /\ settled call = parsed_reply pf provider reply).
Proof.
  intros Hin. cbv zeta. apply serve_call in Hin. split; [|split].
  - destruct (settled call) as [data| |]; cbn [is_resolved]; try contradiction.
    intros _. eapply callAIProviderAPI_window. exact Hin.
  - intros key c. eapply callAIProviderAPI_writes_windows. exact Hin.
  - intros reply Hg.
    destruct (callAIProviderAPI_goes_through pf (served_by call) (asked call)
                (before call) reply Hg) as (st' & Hcall & Hstored).
    rewrite Hcall in Hin. injection Hin as <- <-. auto.
Qed.

End WindowFacts.

(** ** Failures of the network *)

Section NetworkFacts.
Import Json JsonOps Js Text Vault Store Http Gateway Props.

Variable pf : Platform.
Variable w : World.

Lemma isNetworkError_5xx message status :
  500 <= status <= 599 -> isNetworkError message status = true.
Proof.
  intros H. unfold isNetworkError.
  destruct (_ || _ || _); [reflexivity|].
  replace ((500 <=? status) && (status <? 600)) with true; [reflexivity|].
  symmetry. apply andb_true_intro. split; [apply Z.leb_le|apply Z.ltb_lt]; lia.
Qed.

Lemma isNetworkError_signature message status :
  network_signature message -> isNetworkError message status = true.
Proof.
  unfold network_signature, isNetworkError.
  intros [H|[H|[H1 H2]]].
  - now rewrite H.
  - rewrite H. now rewrite orb_true_r.
  - rewrite H1, H2. now rewrite !orb_true_r.
Qed.

(** An error response that shows a failure of the network is never thrown
    with the flag of the unsupported model set. *)
Lemma throw_http_error_network {A} prefix response st (r : Result A) st' :
  is_network_failure (FetchResolves response) ->
  throw_http_error pf prefix response st = (r, st') ->
  exists e, r = Throws e /\ flagged (Err.isUnsupportedModel e) = false.
Proof.
  intros [_ Hn] H. unfold throw_http_error in H.
  assert (Hnet : isNetworkError (provider_message (error_payload response) response)
                   (status response) = true).
  { destruct Hn; [now apply isNetworkError_5xx|now apply isNetworkError_signature]. }
  rewrite Hnet in H. unfold bind, throw in H.
  assert (Hx := isUnsupportedModelError_examinable pf (error_payload response)
                  (status response) st).
  destruct (examinable (error_payload response)).
  - destruct Hx as [flag Hx]. rewrite Hx in H. injection H as <- <-.
    eexists. split; [reflexivity|].
    cbn [Err.isUnsupportedModel flagged negb]. now rewrite andb_false_r.
  - destruct Hx as [f Hx]. rewrite Hx in H. injection H as <- <-.
    eexists. split; reflexivity.
Qed.

End NetworkFacts.

(** ** The ways an exchange ends *)

Section ExchangeFacts.
Import Json JsonOps Js Text Vault Store Http Gateway Props Facts.

Variable pf : Platform.
Variable w : World.

Ltac plain_error H lem :=
  left; apply lem in H as [message ->]; eexists; reflexivity.

Lemma openai_exchange_ending result userId type userMessage language
  learningGoal apiKeyToUse conversation systemPromptText st r st' prompt rest :
  messages conversation = message_object "system" prompt :: rest ->
  openai_exchange pf w result userId type userMessage language learningGoal
    apiKeyToUse conversation systemPromptText st = (r, st') ->
  exchange_ending pf w st r st'.
Proof.
  unfold openai_exchange, exchange_ending. intros Hm H. rewrite Hm in H.
  bind_cases H as [(e & H & ->)|(role0 & st1 & Hg & H)].
  { plain_error H get_throws. }
  apply get_state in Hg as ->.
  apply bind_cases in H
    as [[(e & H & ->)|(response & st2 & Hf & H)]|[H ->]].
  { left. apply do_fetch_state in H as [_ (message & _ & ->)]. eauto. }
  2:{ right. right. right. apply do_fetch_state in H as [-> H]. eauto. }
  apply do_fetch_state in Hf as [-> Hf].
  destruct (ok response) eqn:Hok; cbn [negb] in H.
  2:{ right. left. assert (H' := H).
      apply throw_http_error_state in H' as [-> _]. eauto 10. }
  bind_cases H as [(e & H & ->)|(data & st3 & Hj & H)].
  { plain_error H response_json_throws. }
  apply response_json_state in Hj as ->.
  bind_cases H as [(e & H & ->)|(choices & st4 & Hc & H)].
  { plain_error H get_throws. }
  apply get_state in Hc as ->.
  destruct choices as [| | | | |[|choice others]|];
    try (left; injection H as <- _; eexists; reflexivity).
  bind_cases H as [(e & H & ->)|(assistantMessage & st5 & Ha & H)].
  { plain_error H get_throws. }
  apply get_state in Ha as ->.
  destruct (_ || _); [left; injection H as <- _; eexists; reflexivity|].
  bind_cases H as [(e & H & ->)|(u & st6 & Hs & H)].
  { left. apply sync_set_conversation_throws in H as [_ [message ->]]. eauto. }
  apply sync_set_conversation_returns in Hs as [_ ->].
  destruct (JSON_parse pf _); injection H as <- <-.
  - left. eexists. reflexivity.
  - right. right. left. eauto 10.
Qed.

Lemma google_exchange_ending result userId type userMessage language
  learningGoal apiKeyToUse conversation systemPromptText st r st' :
  google_exchange pf w result userId type userMessage language learningGoal
    apiKeyToUse conversation systemPromptText st = (r, st') ->
  exchange_ending pf w st r st'.
Proof.
  unfold google_exchange, exchange_ending. intros H.
  apply bind_cases in H
    as [[(e & H & ->)|(response & st2 & Hf & H)]|[H ->]].
  { left. apply do_fetch_state in H as [_ (message & _ & ->)]. eauto. }
  2:{ right. right. right. apply do_fetch_state in H as [-> H]. eauto. }
  apply do_fetch_state in Hf as [-> Hf].
  destruct (ok response) eqn:Hok; cbn [negb] in H.
  2:{ right. left. assert (H' := H).
      apply throw_http_error_state in H' as [-> _]. eauto 10. }
  bind_cases H as [(e & H & ->)|(data & st3 & Hj & H)].
  { plain_error H response_json_throws. }
  apply response_json_state in Hj as ->.
  bind_cases H as [(e & H & ->)|(candidates & st4 & Hc & H)].
  { plain_error H get_throws. }
  apply get_state in Hc as ->.
  destruct candidates as [| | | | |[|candidate others]|];
    try (left; injection H as <- _; eexists; reflexivity).
  bind_cases H as [(e & H & ->)|(content & st5 & Ha & H)].
  { plain_error H get_throws. }
  apply get_state in Ha as ->.
  destruct (negb (truthy content));
    [left; injection H as <- _; eexists; reflexivity|].
  destruct (prop content "parts") as [| | | | |[|part parts]|];
    try (left; injection H as <- _; eexists; reflexivity).
  bind_cases H as [(e & H & ->)|(text & st6 & Ht & H)].
  { plain_error H get_throws. }
  apply get_state in Ht as ->.
  destruct (negb (truthy text));
    [left; injection H as <- _; eexists; reflexivity|].
  bind_cases H as [(e & H & ->)|(role0 & st7 & Hr & H)].
  { plain_error H get_throws. }
  apply get_state in Hr as ->.
  bind_cases H as [(e & H & ->)|(u & st8 & Hs & H)].
  { left. apply sync_set_conversation_throws in H as [_ [message ->]]. eauto. }
  apply sync_set_conversation_returns in Hs as [_ ->].
  destruct (JSON_parse pf _); injection H as <- <-.
  - left. eexists. reflexivity.
  - right. right. left. eauto 10.
Qed.

(** With one of the two providers selected the exchange ends in one of the
    four ways; with another it ends without a result. *)
Lemma exchange_ending_of result provider userId type userMessage language
  learningGoal apiKeyToUse st r st' :
  exchange pf w result provider userId type userMessage language learningGoal
    apiKeyToUse st = (r, st') ->
  exchange_ending pf w st r st'
  \/ (r = Returns None /\ provider <> OPENAI /\ provider <> GOOGLE).
Proof.
  unfold exchange. intros H.
  bind_cases H as [(e & H & ->)|(c & st1 & Hc & H)].
  { left. left. apply getOrCreateConversation_throws in H as [_ [message ->]].
    eauto. }
  assert (Hs : sent st1 = sent st).
  { apply getOrCreateConversation_state in Hc as [->|[_ ->]]; reflexivity. }
  apply getOrCreateConversation_returns in Hc as [rest Hm].
  assert (Hsame : exchange_ending pf w st1 r st' -> exchange_ending pf w st r st').
  { unfold exchange_ending. rewrite Hs. exact (fun x => x). }
  destruct (String.eqb_spec provider OPENAI).
  - left. apply Hsame. eapply openai_exchange_ending; eassumption.
  - destruct (String.eqb_spec provider GOOGLE).
    + left. apply Hsame. eapply google_exchange_ending. exact H.
    + right. injection H as <- _. auto.
Qed.

End ExchangeFacts.

(** ** What the listener answers *)

Section ListenerFacts.
Import Json JsonOps Js Text Vault Store Http Gateway Props Facts.

Variable pf : Platform.
Variable w : World.

(** The credential checks reject with a plain [Error]. *)
Lemma resolve_credential_inl result provider apiKey e :
  resolve_credential pf result provider apiKey = inl e ->
  exists message, e = Err.Error message.
Proof.
  unfold resolve_credential. cbv zeta. intros H.
  repeat match type of H with
         | context [match ?x with _ => _ end] =>
             lazymatch x with
             | context [match _ with _ => _ end] => fail
             | _ => destruct x eqn:?
             end
         end;
  try discriminate H; injection H as <-; eauto.
Qed.

Lemma turned_down_plain result provider apiKey type e :
  turned_down pf result provider apiKey type = Some e ->
  exists message, e = Err.Error message.
Proof.
  unfold turned_down.
  destruct (resolve_credential pf result provider apiKey) as [e0|k] eqn:Ec.
  - intros H. injection H as <-. eapply resolve_credential_inl. exact Ec.
  - destruct (is_conversation_type type); [discriminate|].
    intros H. injection H as <-. eauto.
Qed.

(** What the listener makes of a call that passed the checks. *)
Lemma onMessage_callChatGPTAPI_passed (request : ChatRequest) (st : State) :
  let result := storage st in
  let provider := string_or (selectedProvider result) OPENAI in
  let learningGoal :=
    string_or (learningGoal result) "General language learning" in
  turned_down pf result provider (apiKey request) (type request) = None ->
  exists apiKeyToUse r st',
    exchange pf w result provider (userId request) (type request)
      (message request) (language request) learningGoal apiKeyToUse st
    = (r, st')
    /\ onMessage_callChatGPTAPI pf w request st
       = (match r with
          | Returns (Some data) => Some (Success data)
          | Returns None | Stalls => None
          | Throws e =>
              Some (Failure (Err.message e) (Err.status e) (Err.errorData e)
                      (Some provider) (flagged (Err.isUnsupportedModel e)))
          end, st').
Proof.
  cbv zeta. unfold turned_down, onMessage_callChatGPTAPI, callAIProviderAPI.
  destruct (resolve_credential pf _ _ _) as [e|apiKeyToUse]; [discriminate|].
  destruct (is_conversation_type (type request)); [|discriminate].
  intros _. cbn [negb].
  destruct (exchange pf w _ _ _ _ _ _ _ _ st) as [r st1] eqn:E.
  exists apiKeyToUse, r, st1. split; [exact E|].
  destruct r as [e|[data|]|]; reflexivity.
Qed.

(** C3: for every failure whose signature shows a problem of the network
    (the request got no response at all, or the text of the error response
    carries the signature), and for every response of status 500 to 599,
    the failure is not flagged as an unsupported model, whatever the
    payload says about the model.  Stated for a network on which every
    request fails in one of these ways. *)
Theorem network_failure_is_not_unsupported_model
  (request : ChatRequest) (st : State) (response : GatewayResponse) (st' : State) :
  (forall sent_request, is_network_failure (fetch w sent_request)) ->
  onMessage_callChatGPTAPI pf w request st = (Some response, st') ->
  exists error status errorData provider,
  response = Failure error status errorData provider false.
Proof.
  intros Hnet. unfold onMessage_callChatGPTAPI, callAIProviderAPI.
  destruct (resolve_credential pf _ _ _) as [e|apiKeyToUse] eqn:Ec.
  { apply resolve_credential_inl in Ec as [message ->].
    intros H. injection H as <- _. cbn. eauto 10. }
  destruct (negb (is_conversation_type (type request))).
  { intros H. injection H as <- _. cbn. eauto 10. }
  destruct (exchange pf w _ _ _ _ _ _ _ _ st) as [r st1] eqn:E.
  apply exchange_ending_of in E
    as [[(message & ->)
        |[(prefix & sent_request & r0 & st0 & _ & Hf & Hok & Ht)
         |[(data & sent_request & r0 & -> & _ & Hf & Hok)
          |(sent_request & -> & _)]]]
       |(-> & _)].
  - intros H. injection H as <- _. cbn. eauto 10.
  - specialize (Hnet sent_request). rewrite Hf in Hnet.
    eapply throw_http_error_network in Ht as (e & -> & Hflag); [|exact Hnet].
    intros H. injection H as <- _. cbn [enhancedError Rejection.message
      Rejection.status Rejection.errorData Rejection.provider
      Rejection.isUnsupportedModel]. rewrite Hflag. eauto 10.
  - specialize (Hnet sent_request). rewrite Hf in Hnet. cbn in Hnet.
    destruct Hnet as [Hno _]. congruence.
  - discriminate.
  - discriminate.
Qed.

(** C9, as amended: with one of the two providers selected, a request
    handled through [callChatGPTAPI] is answered by a value of one of two
    shapes, unless the request it sent to the provider is never answered.
    A request that the checks of the credential and of the purpose turn
    down is answered at once with a failure that carries the message
    alone: no provider, status, payload or flag.  A request that passes
    them is answered with the data of a success or with a failure that
    names the provider; it is left without an answer only when [fetch]
    never settles for the request it sent. *)
Theorem every_request_is_answered (request : ChatRequest) (st : State) :
  let result := storage st in
  let provider := string_or (selectedProvider result) OPENAI in
  provider = OPENAI \/ provider = GOOGLE ->
  match turned_down pf result provider (apiKey request) (type request) with
  | Some e =>
      onMessage_callChatGPTAPI pf w request st
      = (Some (Failure (Err.message e) None None None false), st)
  | None =>
      exists answer st',
        onMessage_callChatGPTAPI pf w request st = (answer, st')
        /\ match answer with
           | Some (Success _) => True
           | Some (Failure _ _ _ named _) => named = Some provider
           | None =>
               exists sent_request,
                 sent st' = sent_request :: sent st
                 /\ fetch w sent_request = FetchStalls
           end
  end.
Proof.
  cbv zeta. intros Hp.
  destruct (turned_down pf _ _ _ _) as [e|] eqn:Et.
  { unfold onMessage_callChatGPTAPI.
    rewrite (callAIProviderAPI_turned_down pf w _ _ _ _ _ _ _ Et).
    apply turned_down_plain in Et as [message ->]. reflexivity. }
  destruct (onMessage_callChatGPTAPI_passed request st Et)
    as (apiKeyToUse & r & st' & E & ->).
  do 2 eexists. split; [reflexivity|].
  apply exchange_ending_of in E
    as [[(message & ->)
        |[(prefix & sent_request & r0 & st0 & _ & _ & _ & Ht)
         |[(data & sent_request & r0 & -> & _)
          |(sent_request & -> & Hs & Hf)]]]
       |(-> & Hn1 & Hn2)].
  - reflexivity.
  - apply throw_http_error_state in Ht as [_ [e ->]]. reflexivity.
  - exact I.
  - eauto.
  - exfalso. destruct Hp; contradiction.
Qed.

End ListenerFacts.

(** ** The order of the checks *)

Section PreflightFacts.
Import Json JsonOps Js Text Vault Store Http Gateway Props.

Variable pf : Platform.
Variable w : World.

(** Outside own-credits mode the credential checks let every call pass. *)
Lemma resolve_credential_free result provider apiKey :
  isOwnCredits result = false ->
  resolve_credential pf result provider apiKey = inr apiKey.
Proof.
  intros H. unfold resolve_credential. rewrite H. cbn [andb].
  now rewrite andb_false_r.
Qed.

(** C5, as amended: the credential is resolved first and the purpose
    validated after it.  A call with an unknown purpose whose credential
    checks pass is rejected with the validation error; a stored credential
    that fails to decrypt is rejected with the decryption error, whatever
    the purpose.  In both cases nothing is sent and nothing is written. *)
Theorem credential_then_purpose
  (userId type userMessage language : string) (apiKey : option jsstring)
  (st : State) :
  let result := storage st in
  let provider := string_or (selectedProvider result) OPENAI in
  (is_conversation_type type = false ->
   (exists apiKeyToUse,
      resolve_credential pf result provider apiKey = inr apiKeyToUse) ->
   callAIProviderAPI pf w userId type userMessage language apiKey st
   = (Rejected (reject_Error (Err.Error ("Invalid conversation type: " +:+ type))),
      st))
  /\ (forall blob password,
        isOwnCredits result = true ->
        (provider = OPENAI -> apiKeyValidated result = true) ->
        (provider = GOOGLE -> googleApiKeyValidated result = true) ->
        truthy_key apiKey = false ->
        (if String.eqb provider GOOGLE then encryptedGoogleApiKey result
         else encryptedApiKey result) = Some blob ->
        installationPassword result = Some password ->
        password <> EmptyString ->
        decryptApiKey pf blob (of_string password) = None ->
        callAIProviderAPI pf w userId type userMessage language apiKey st
        = (Rejected (reject_Error
                       (Err.Error (getMessage pf "failedToDecryptApiKey" []))),
           st)).
Proof.
  cbv zeta. split.
  - intros Ht [apiKeyToUse Hc]. unfold callAIProviderAPI.
    rewrite Hc, Ht. reflexivity.
  - intros blob password Hown Hv1 Hv2 Hk Hb Hp Hne Hd.
    unfold callAIProviderAPI.
    replace (resolve_credential pf (storage st)
               (string_or (selectedProvider (storage st)) OPENAI) apiKey)
      with (inl (Err.Error (getMessage pf "failedToDecryptApiKey" []))
            : Err.t + option jsstring); [reflexivity|].
    unfold resolve_credential. rewrite Hown, Hk. cbn [andb negb].
    destruct (String.eqb_spec (string_or (selectedProvider (storage st)) OPENAI)
                OPENAI) as [E1|_].
    + rewrite (Hv1 E1). cbn [negb].
      destruct (String.eqb_spec (string_or (selectedProvider (storage st)) OPENAI)
                  GOOGLE) as [E2|_]; [rewrite E1 in E2; discriminate E2|].
      rewrite Hb, Hp.
      destruct (String.eqb_spec password EmptyString); [contradiction|].
      now rewrite Hd.
    + destruct (String.eqb_spec (string_or (selectedProvider (storage st)) OPENAI)
                  GOOGLE) as [E2|_].
      * rewrite (Hv2 E2). cbn [negb]. rewrite Hb, Hp.
        destruct (String.eqb_spec password EmptyString); [contradiction|].
        now rewrite Hd.
      * rewrite Hb, Hp.
        destruct (String.eqb_spec password EmptyString); [contradiction|].
        now rewrite Hd.
Qed.

End PreflightFacts.

(** ** The translation cache *)

Section CacheFacts.
Import Json JsonOps Js Store Content.

(** C6: for every cached translation, a read 23 h 59 min after its creation
    returns the stored value, a read 24 h 1 min after it is a miss, and so
    is every read made more than 24 h after it. *)
Theorem cached_translation_expires_after_a_day
  (text language : string) (st : Storage) (cacheEntry : CacheEntry) :
  translations st !! createTranslationCacheKey text language = Some cacheEntry ->
  getCachedTranslation text language
    (timestamp cacheEntry + (23 * 60 + 59) * 60 * 1000) st
  = translation cacheEntry
  /\ getCachedTranslation text language
       (timestamp cacheEntry + (24 * 60 + 1) * 60 * 1000) st
     = VNull
  /\ forall now,
       now - timestamp cacheEntry > 24 * 60 * 60 * 1000 ->
       getCachedTranslation text language now st = VNull.
Proof.
  intros H. unfold getCachedTranslation, isTranslationExpired, TWENTY_FOUR_HOURS.
  rewrite H. repeat split.
  - destruct (Z.gtb_spec (timestamp cacheEntry + (23 * 60 + 59) * 60 * 1000
                          - timestamp cacheEntry) (24 * 60 * 60 * 1000));
      [lia|reflexivity].
  - destruct (Z.gtb_spec (timestamp cacheEntry + (24 * 60 + 1) * 60 * 1000
                          - timestamp cacheEntry) (24 * 60 * 60 * 1000));
      [reflexivity|lia].
  - intros now Hnow.
    destruct (Z.gtb_spec (now - timestamp cacheEntry) (24 * 60 * 60 * 1000));
      [reflexivity|lia].
Qed.

(** What was put is what is cached. *)
Lemma setCachedTranslation_lookup text language v now st :
  translations (setCachedTranslation text language v now st)
    !! createTranslationCacheKey text language
  = Some {| translation := v; timestamp := now;
            sourceText := text; targetLanguage := language |}.
Proof.
  unfold setCachedTranslation, with_translation. cbn [translations].
  apply lookup_insert_eq.
Qed.

(** At 24 h exactly the entry still counts. *)
Lemma cached_translation_at_a_day text language st cacheEntry :
  translations st !! createTranslationCacheKey text language = Some cacheEntry ->
  getCachedTranslation text language
    (timestamp cacheEntry + 24 * 60 * 60 * 1000) st
  = translation cacheEntry.
Proof.
  intros H. unfold getCachedTranslation, isTranslationExpired, TWENTY_FOUR_HOURS.
  rewrite H.
  destruct (Z.gtb_spec (timestamp cacheEntry + 24 * 60 * 60 * 1000
                        - timestamp cacheEntry) (24 * 60 * 60 * 1000));
    [lia|reflexivity].
Qed.

End CacheFacts.

(** ** The keys of a flashcard *)

Section FlashcardFacts.
Import Json JsonOps Js Text Vault Store Http Gateway Props.

Variable pf : Platform.
Variable w : World.

(** The schema asked for a flashcard names the keys of the flashcard, as
    properties and as required. *)
Lemma flashcard_schema userMessage language learningGoal :
  let schema :=
    purpose_schema "string" "object" true FLASHCARD userMessage language
      learningGoal in
  names (prop schema "required") = flashcard_keys (includes "mnemonic" userMessage)
  /\ keys (prop schema "properties")
     = flashcard_keys (includes "mnemonic" userMessage)
  /\ prop schema "additionalProperties" = VBool false.
Proof.
  cbv zeta. unfold purpose_schema.
  change (String.eqb FLASHCARD FLASHCARD) with true. cbv iota.
  unfold object_schema, flashcard_keys.
  destruct (includes "mnemonic" userMessage); repeat split; reflexivity.
Qed.

(** A reply that conforms to that schema has exactly those keys. *)
Lemma conforms_flashcard_keys userMessage language learningGoal reply :
  conforms (purpose_schema "string" "object" true FLASHCARD userMessage language
              learningGoal) reply ->
  NoDup (keys reply)
  /\ forall key,
       In key (keys reply)
       <-> In key (flashcard_keys (includes "mnemonic" userMessage)).
Proof.
  destruct (flashcard_schema userMessage language learningGoal)
    as (Hreq & Hprops & Hclosed).
  unfold conforms. destruct reply as [| | | | | |fields]; try contradiction.
  intros (Hnd & Hr & Hc & _). cbn [keys]. split; [exact Hnd|].
  intros key. split.
  - intros Hin. rewrite <- Hprops. now apply Hc.
  - intros Hin. apply Hr. now rewrite Hreq.
Qed.

(** C7: for every flashcard call that reaches a stubbed OpenAI-like
    provider answering with a reply that conforms to the schema of the
    request, the call resolves and its result has exactly the keys
    definition, translation, example_1, example_2 and example_3 when the
    user message does not contain "mnemonic", and these and mnemonic when
    it does. *)
Theorem flashcard_result_has_the_keys_of_the_schema
  (userId userMessage language : string) (apiKey apiKeyToUse : option jsstring)
  (st : State) :
  string_or (selectedProvider (storage st)) OPENAI = OPENAI ->
  resolve_credential pf (storage st) OPENAI apiKey = inr apiKeyToUse ->
  (forall key conversation, sync_set_error w key conversation = None) ->
  (forall request,
      asks_for_flashcard request ->
      exists reply, schema_conformant_reply pf request (fetch w request) reply) ->
  exists data st',
    callAIProviderAPI pf w userId FLASHCARD userMessage language apiKey st
    = (Resolved data, st')
    /\ NoDup (keys data)
    /\ forall key,
         In key (keys data)
         <-> In key (flashcard_keys (includes "mnemonic" userMessage)).
Proof.
  intros Hp Hc Hset Hreply. unfold callAIProviderAPI.
  rewrite Hp, Hc. change (is_conversation_type FLASHCARD) with true.
  cbn [negb]. unfold exchange. change (String.eqb OPENAI OPENAI) with true.
  cbv iota.
  set (learningGoal := string_or (learningGoal (storage st))
                         "General language learning").
  unfold bind at 1.
  destruct (getOrCreateConversation_accepted pf w userId FLASHCARD learningGoal
              st Hset) as (conversation & rest & st1 & -> & Hm & _).
  unfold openai_exchange. rewrite Hm.
  unfold bind at 1. unfold get at 1. cbn [message_object is_nullish ret].
  change (prop (VObj [("role", VStr "system");
                      ("content", VStr (getSystemPrompt pf FLASHCARD learningGoal))])
            "role") with (VStr "system").
  change (is_string (VStr "system") "system") with true. cbn [negb].
  unfold bind at 1.
  match goal with
  | |- context [do_fetch w ?request st1] =>
      set (sent_request := request);
      destruct (Hreply sent_request) as [reply Hr];
      [do 3 eexists; reflexivity|]
  end.
  unfold do_fetch. unfold schema_conformant_reply in Hr.
  destruct (fetch w sent_request) as [message|response|]; try contradiction.
  destruct Hr as (Hok & data & choice & others & Hj & Hch & Hm1 & Hm2 & Hparse
                  & Hconf).
  rewrite Hok. cbn [negb].
  unfold bind at 1. unfold response_json. rewrite Hj. unfold ret at 1.
  unfold bind at 1. unfold get at 1.
  assert (Hdata : is_nullish data = false).
  { destruct data; try reflexivity; discriminate Hch. }
  rewrite Hdata. unfold ret at 1. rewrite Hch.
  unfold bind at 1. unfold get at 1.
  assert (Hchoice : is_nullish choice = false).
  { destruct choice; try reflexivity; discriminate Hm1. }
  rewrite Hchoice. unfold ret at 1. rewrite Hm1, Hm2. cbn [negb orb].
  unfold bind at 1. unfold sync_set_conversation. rewrite Hset.
  rewrite Hparse. unfold ret.
  do 2 eexists. split; [reflexivity|].
  eapply conforms_flashcard_keys. exact Hconf.
Qed.

End FlashcardFacts.

(** ** The stored credential *)

Section CredentialFacts.
Import Json JsonOps Js Text Vault Store Http Gateway Props Options Random.

Variable pf : Platform.

Lemma same_credentials_refl s : same_credentials s s.
Proof. repeat split. Qed.

Lemma same_credentials_trans s1 s2 s3 :
  same_credentials s1 s2 -> same_credentials s2 s3 -> same_credentials s1 s3.
Proof.
  intros (H1 & H2 & H3) (K1 & K2 & K3). repeat split; congruence.
Qed.

Lemma keeps_ret {A} (a : A) : keeps_credentials (ret a).
Proof. intros st r st' H. injection H as _ <-. apply same_credentials_refl. Qed.

Lemma keeps_throw {A} e : keeps_credentials (@throw A e).
Proof. intros st r st' H. injection H as _ <-. apply same_credentials_refl. Qed.

Lemma keeps_bind {A B} (m : M A) (k : A -> M B) :
  keeps_credentials m -> (forall a, keeps_credentials (k a)) ->
  keeps_credentials (bind m k).
Proof.
  intros Hm Hk st r st' H. unfold bind in H.
  destruct (m st) as [[e|a|] st1] eqn:E.
  - injection H as _ <-. eapply Hm. exact E.
  - eapply same_credentials_trans; [eapply Hm; exact E|eapply Hk; exact H].
  - injection H as _ <-. eapply Hm. exact E.
Qed.

Lemma keeps_get v p : keeps_credentials (get pf v p).
Proof.
  unfold get, raise. destruct (is_nullish v);
  [apply keeps_throw|apply keeps_ret].
Qed.

Lemma keeps_as_text v : keeps_credentials (as_text pf v).
Proof.
  unfold as_text, raise. destruct v; try apply keeps_throw. apply keeps_ret.
Qed.

Lemma keeps_sync_set_conversation w key c :
  keeps_credentials (sync_set_conversation w key c).
Proof.
  intros st r st' H. unfold sync_set_conversation in H.
  destruct (sync_set_error w key c); injection H as _ <-;
  repeat split.
Qed.

Lemma keeps_do_fetch w request : keeps_credentials (do_fetch w request).
Proof.
  intros st r st' H. unfold do_fetch in H.
  destruct (fetch w request); injection H as _ <-; repeat split.
Qed.

Lemma keeps_response_json response : keeps_credentials (response_json response).
Proof.
  unfold response_json. destruct (json response);
  [apply keeps_throw|apply keeps_ret].
Qed.

Lemma keeps_isUnsupportedModelError errorData status :
  keeps_credentials (isUnsupportedModelError pf errorData status).
Proof.
  unfold isUnsupportedModelError.
  apply keeps_bind; [apply keeps_get|intros error].
  destruct (truthy error); [|apply keeps_ret].
  destruct (is_string _ _);
  (apply keeps_bind; [apply keeps_as_text|intros; apply keeps_ret]).
Qed.

Lemma keeps_throw_http_error {A} prefix response :
  keeps_credentials (@throw_http_error pf A prefix response).
Proof.
  unfold throw_http_error.
  apply keeps_bind; [apply keeps_isUnsupportedModelError|intros; apply keeps_throw].
Qed.

Lemma keeps_getOrCreateConversation w userId type learningGoal :
  keeps_credentials (getOrCreateConversation pf w userId type learningGoal).
Proof.
  intros st r st' H. unfold getOrCreateConversation in H.
  destruct (conversations (storage st) !! conversation_key userId type).
  - injection H as _ <-. apply same_credentials_refl.
  - revert H. apply keeps_bind;
    [apply keeps_sync_set_conversation|intros; apply keeps_ret].
Qed.

Ltac keeps :=
  repeat first
  [ apply keeps_ret | apply keeps_throw | apply keeps_get
  | apply keeps_do_fetch | apply keeps_response_json
  | apply keeps_sync_set_conversation | apply keeps_throw_http_error
  | apply keeps_bind; [|intros]
  | match goal with
    | |- keeps_credentials (match ?x with _ => _ end) => destruct x
    end ].

Lemma keeps_openai_exchange w result userId type userMessage language
  learningGoal apiKeyToUse conversation systemPromptText :
  keeps_credentials
  (openai_exchange pf w result userId type userMessage language learningGoal
     apiKeyToUse conversation systemPromptText).
Proof. unfold openai_exchange. keeps. Qed.

Lemma keeps_google_exchange w result userId type userMessage language
  learningGoal apiKeyToUse conversation systemPromptText :
  keeps_credentials
  (google_exchange pf w result userId type userMessage language learningGoal
     apiKeyToUse conversation systemPromptText).
Proof. unfold google_exchange. cbv zeta. keeps. Qed.

(** A call of the gateway writes conversations only. *)
Lemma callAIProviderAPI_keeps_credentials w userId type userMessage language
  apiKey st outcome st' :
  callAIProviderAPI pf w userId type userMessage language apiKey st
  = (outcome, st') ->
  same_credentials (storage st) (storage st').
Proof.
  unfold callAIProviderAPI. intros H.
  destruct (resolve_credential pf _ _ _);
  [injection H as _ <-; apply same_credentials_refl|].
  destruct (negb (is_conversation_type type));
  [injection H as _ <-; apply same_credentials_refl|].
  destruct (exchange pf w _ _ _ _ _ _ _ _ st) as [r st1] eqn:E.
  assert (Hk : same_credentials (storage st) (storage st1)).
  { revert E. unfold exchange. apply keeps_bind.
  - apply keeps_getOrCreateConversation.
  - intros c. destruct (String.eqb _ OPENAI);
      [apply keeps_openai_exchange|].
    destruct (String.eqb _ GOOGLE);
      [apply keeps_google_exchange|apply keeps_ret]. }
  destruct r as [e|[data|]|]; injection H as _ <-; exact Hk.
Qed.

Lemma invariant_of_same_credentials s s' :
  same_credentials s s' ->
  at_most_one_credential s /\ encrypted_under_stored_password pf s ->
  at_most_one_credential s' /\ encrypted_under_stored_password pf s'.
Proof.
  intros (H1 & H2 & H3) [Ha He].
  unfold at_most_one_credential, encrypted_under_stored_password in *.
  rewrite H1, H2, H3. auto.
Qed.

(** What a successful validation hands to storage. *)
Lemma handleValidateApiKey_valid input provider r u r' :
  handleValidateApiKey pf input provider (Answer true) r = (Some u, r') ->
  exists password blob r1,
    generateInstallationPassword r = (password, r1)
    /\ blob = fst (encryptApiKey pf (trim input) (of_string password) r1)
    /\ u = if String.eqb provider GOOGLE
           then {| set_isOwnCredits := Some true;
                   set_installationPassword := Some password;
                   set_encryptedGoogleApiKey := Some (Some blob);
                   set_encryptedApiKey := Some None;
                   set_googleApiKeyValidated := Some true;
                   set_apiKeyValidated := Some false;
                   set_model := Some None;
                   set_googleModel := None |}
           else {| set_isOwnCredits := Some true;
                   set_installationPassword := Some password;
                   set_encryptedApiKey := Some (Some blob);
                   set_encryptedGoogleApiKey := Some None;
                   set_apiKeyValidated := Some true;
                   set_googleApiKeyValidated := Some false;
                   set_googleModel := Some None;
                   set_model := None |}.
Proof.
  unfold handleValidateApiKey. destruct (trim input) as [|c key]; [discriminate|].
  destruct (generateInstallationPassword r) as [password r1].
  destruct (encryptApiKey pf (c :: key) (of_string password) r1) as [blob r2] eqn:E.
  intros H. exists password, blob, r1. split; [reflexivity|].
  split; [now rewrite E|].
  destruct (String.eqb provider GOOGLE); now injection H as <- _.
Qed.

(** C10: a validation that succeeds for one provider hands storage one
    update that holds the new encrypted key together with the password it
    was encrypted under, sets the encrypted key of the other provider to
    null, its validated flag to false and its model to null; and in every
    storage the program can get to, at most one encrypted key is stored,
    and it was encrypted under the stored password. *)
Theorem one_credential_with_its_password :
  (forall input provider r u r' s,
      handleValidateApiKey pf input provider (Answer true) r = (Some u, r') ->
      let s' := sync_set u s in
      exists password blob,
        blob = fst (encryptApiKey pf (trim input) (of_string password)
                      (snd (generateInstallationPassword r)))
        /\ set_installationPassword u = Some password
        /\ installationPassword s' = Some password
        /\ isOwnCredits s' = true
        /\ (provider = GOOGLE ->
            set_encryptedGoogleApiKey u = Some (Some blob)
            /\ encryptedGoogleApiKey s' = Some blob
            /\ googleApiKeyValidated s' = true
            /\ encryptedApiKey s' = None
            /\ apiKeyValidated s' = false
            /\ model s' = None)
        /\ (provider <> GOOGLE ->
            set_encryptedApiKey u = Some (Some blob)
            /\ encryptedApiKey s' = Some blob
            /\ apiKeyValidated s' = true
            /\ encryptedGoogleApiKey s' = None
            /\ googleApiKeyValidated s' = false
            /\ googleModel s' = None))
  /\ (forall s,
        reachable pf s ->
        at_most_one_credential s /\ encrypted_under_stored_password pf s).
Proof.
  split.
  - intros input provider r u r' s H. cbv zeta.
    apply handleValidateApiKey_valid in H as (password & blob & r1 & Hg & Hb & ->).
    exists password, blob. rewrite Hg. cbn [snd].
    split; [exact Hb|].
    destruct (String.eqb_spec provider GOOGLE) as [E|E]; cbn;
      repeat split; try reflexivity; intros; try contradiction;
      repeat split; reflexivity.
  - induction 1 as [m gm|s input provider validation r u r' Hs IH Hv
                    |s w userId type userMessage language apiKey requests
                       outcome st' Hs IH Hc
                    |s text language translation now Hs IH
                    |s s' Hs IH Hsame].
    + split; [left; reflexivity|]. intros blob [H|H]; discriminate H.
    + destruct validation as [|[|]].
      * unfold handleValidateApiKey in Hv.
        destruct (trim input); discriminate Hv.
      * apply handleValidateApiKey_valid in Hv
          as (password & blob & r1 & Hg & Hb & ->).
        destruct (String.eqb provider GOOGLE); cbn.
        -- split; [left; reflexivity|].
           intros b [H|H]; [discriminate H|]. cbn in H. injection H as <-.
           exists password, (trim input), r1. auto.
        -- split; [right; reflexivity|].
           intros b [H|H]; [|discriminate H]. cbn in H. injection H as <-.
           exists password, (trim input), r1. auto.
      * apply (invariant_of_same_credentials s); [|exact IH].
        unfold handleValidateApiKey in Hv.
        destruct (trim input); [discriminate Hv|].
        destruct (String.eqb provider GOOGLE); injection Hv as <- _;
          repeat split.
    + apply (invariant_of_same_credentials s); [|exact IH].
      apply callAIProviderAPI_keeps_credentials in Hc. exact Hc.
    + apply (invariant_of_same_credentials s); [|exact IH]. repeat split.
    + apply (invariant_of_same_credentials s); assumption.
Qed.

End CredentialFacts.

(** ** The message for a status *)

Section StatusFacts.
Import Json JsonOps Js Text Vault Store Http Gateway Props Facts Content Callers.

Variable pf : Platform.
Variable w : World.

(** A failure that the gateway answers with: it carries nothing but the
    message, or it was made from the error response to the request of the
    call, whose payload could be examined. *)
Lemma onMessage_callChatGPTAPI_failure (request : ChatRequest) (st : State)
  (error : string) (status : option Z) (errorData : option value)
  (provider : option string) (flag : bool) (st' : State) :
  onMessage_callChatGPTAPI pf w request st
  = (Some (Failure error status errorData provider flag), st') ->
  (status = None /\ errorData = None /\ flag = false)
  \/ exists sent_request response,
       sent st' = sent_request :: sent st
       /\ fetch w sent_request = FetchResolves response
       /\ ok response = false
       /\ examinable (error_payload response) = true
       /\ status = Some (Http.status response)
       /\ errorData = Some (error_payload response).
Proof.
  intros H.
  destruct (turned_down pf (storage st)
              (string_or (selectedProvider (storage st)) OPENAI)
              (apiKey request) (type request)) as [e|] eqn:Et.
  { unfold onMessage_callChatGPTAPI in H.
    rewrite (callAIProviderAPI_turned_down pf w _ _ _ _ _ _ _ Et) in H.
    apply turned_down_plain in Et as [message ->].
    injection H as <- <- <- <- <-. auto. }
  destruct (onMessage_callChatGPTAPI_passed pf w request st Et)
    as (apiKeyToUse & r & st1 & E & Hanswer).
  rewrite Hanswer in H. clear Hanswer.
  apply exchange_ending_of in E
    as [[(message & ->)
        |[(prefix & sent_request & response & st0 & Hs & Hf & Hok & Ht)
         |[(data & sent_request & response & -> & _)
          |(sent_request & -> & _)]]]
       |(-> & _)]; try discriminate H.
  - injection H as <- <- <- <- <- <-. auto.
  - destruct (throw_http_error_state pf _ _ _ _ _ Ht) as [_ [e ->]].
    injection H as <- <- <- <- <- <-.
    apply throw_http_error_forwards in Ht
      as [(_ & f & ->)|(Hx & _ & Hst & Hd)].
    + left. auto.
    + right. exists sent_request, response. auto 10.
Qed.








End StatusFacts.

(** ** Examples and witnesses *)

Section Examples.
Import Json JsonOps Js Bytes Text Vault Store Http Gateway Props Facts.
Import Content Options Callers.

(** Three exchanges on one conversation through the OpenAI-like branch,
    and three through the Google-like one: each is resolved and leaves
    three messages behind. *)
Lemma conversation_window_example :
  let lengths (runs : list Served) :=
    map (fun call : Served =>
           option_map (fun c => length (messages c))
             (conversations (storage (after call))
                !! conversation_key "u1" FLASHCARD))
      runs in
  let all_resolved (runs : list Served) :=
    forallb (fun call : Served =>
               match settled call with
               | Resolved _ => true
               | _ => false
               end) runs in
  let runs_A :=
    serve Stub.platform
      [(Stub.world Stub.provider_A, Stub.flashcard_request "Bonjour");
       (Stub.world Stub.provider_A, Stub.flashcard_request "Merci");
       (Stub.world Stub.provider_A, Stub.flashcard_request "Salut")]
      Stub.installed in
  let runs_B :=
    serve Stub.platform
      [(Stub.world Stub.provider_B, Stub.flashcard_request "Bonjour");
       (Stub.world Stub.provider_B, Stub.flashcard_request "Merci");
       (Stub.world Stub.provider_B, Stub.flashcard_request "Salut")]
      Stub.installed_google in
  lengths runs_A = [Some 3%nat; Some 3%nat; Some 3%nat]
  /\ all_resolved runs_A = true
  /\ lengths runs_B = [Some 3%nat; Some 3%nat; Some 3%nat]
  /\ all_resolved runs_B = true.
Proof. vm_compute. repeat split. Qed.

(** The third of three exchanges with the stubbed provider is resolved
    and leaves a window.  And an exchange with a provider whose reply is
    not JSON goes through: the call is rejected with the message of the
    parser, and the exchange is stored all the same. *)
Lemma conversation_window_after_each_exchange_witness :
  let calls :=
    [(Stub.world Stub.provider_A, Stub.flashcard_request "Bonjour");
     (Stub.world Stub.provider_A, Stub.flashcard_request "Merci");
     (Stub.world Stub.provider_A, Stub.flashcard_request "Salut")] in
  let prose := [(Stub.world Stub.provider_prose, Stub.flashcard_request "Bonjour")] in
  let reply :=
    VObj [("role", VStr "assistant"); ("content", VStr "Sorry, I cannot.")] in
  (exists call,
      nth_error (serve Stub.platform calls Stub.installed) 2 = Some call
      /\ is_resolved (settled call)
      /\ stored_window "u1" FLASHCARD (after call))
  /\ (exists call,
        In call (serve Stub.platform prose Stub.installed)
        /\ goes_through Stub.platform (served_by call) (before call)
             (asked call) reply
        /\ conversations (storage (after call))
             !! conversation_key "u1" FLASHCARD
           = Some {| messages :=
                       [message_object "system" "generateFlashcardInstructions";
                        message_object "user" "Bonjour"; reply] |}
        /\ settled call
           = Rejected (enhancedError (Err.Error "Unexpected token") "openai")).
Proof.
  intros calls prose reply. split.
  - destruct (nth_error (serve Stub.platform calls Stub.installed) 2)
      as [call|] eqn:E; [|vm_compute in E; discriminate E].
    exists call. split; [reflexivity|].
    assert (Hin : In call (serve Stub.platform calls Stub.installed))
      by (eapply nth_error_In; exact E).
    assert (Hres : is_resolved (settled call)).
    { vm_compute in E. injection E as <-. exact I. }
    split; [exact Hres|].
    assert (Hu : userId (asked call) = "u1")
      by (vm_compute in E; injection E as <-; reflexivity).
    assert (Ht : type (asked call) = FLASHCARD)
      by (vm_compute in E; injection E as <-; reflexivity).
    rewrite <- Hu, <- Ht.
    exact (proj1 (conversation_window_after_each_exchange Stub.platform calls
                    Stub.installed call Hin) Hres).
  - destruct (serve Stub.platform prose Stub.installed) as [|call rest] eqn:E;
      [vm_compute in E; discriminate E|].
    assert (Hin : In call (serve Stub.platform prose Stub.installed))
      by (rewrite E; left; reflexivity).
    assert (Hcall : served_by call = Stub.world Stub.provider_prose
                    /\ asked call = Stub.flashcard_request "Bonjour"
                    /\ before call = Stub.installed).
    { cbn [serve prose] in E.
      destruct (callAIProviderAPI _ _ _ _ _ _ _ _) in E.
      injection E as <- _. auto. }
    destruct Hcall as (Hw & Hr & Hb).
    assert (Hg : goes_through Stub.platform (served_by call) (before call)
                   (asked call) reply).
    { rewrite Hw, Hr, Hb. split; [vm_compute; reflexivity|].
      split; [reflexivity|]. left. split; reflexivity. }
    exists call. split; [rewrite <- E; exact Hin|]. split; [exact Hg|].
    destruct (proj2 (proj2 (conversation_window_after_each_exchange
                              Stub.platform prose Stub.installed call Hin))
                reply Hg) as [Hstored Hsettled].
    rewrite Hr, Hb in Hstored. rewrite Hb in Hsettled.
    split; [exact Hstored|exact Hsettled].
Defined.

(** A response of status 503 whose payload says the model does not exist
    is not flagged; the same payload with status 404 is. *)
Lemma outage_with_model_text_example :
  fst (onMessage_callChatGPTAPI Stub.platform
         (Stub.world (Stub.refusal 503 "invalid_request_error"
                        "The model gpt-999 does not exist"))
         (Stub.flashcard_request "Bonjour") Stub.installed)
  = Some (Failure
            "HTTP error! status: 503, message: The model gpt-999 does not exist"
            (Some 503)
            (Some (VObj [("error",
                          VObj [("type", VStr "invalid_request_error");
                                ("message",
                                 VStr "The model gpt-999 does not exist")])]))
            (Some "openai") false)
  /\ fst (onMessage_callChatGPTAPI Stub.platform
            (Stub.world (Stub.refusal 404 "invalid_request_error"
                           "The model gpt-999 does not exist"))
            (Stub.flashcard_request "Bonjour") Stub.installed)
     = Some (Failure
               "HTTP error! status: 404, message: The model gpt-999 does not exist"
               (Some 404)
               (Some (VObj [("error",
                             VObj [("type", VStr "invalid_request_error");
                                   ("message",
                                    VStr "The model gpt-999 does not exist")])]))
               (Some "openai") true).
Proof. split; vm_compute; reflexivity. Qed.

(** An outage answered with the wording of a missing model: the theorem
    applies and the failure sent carries no flag. *)
Lemma network_failure_is_not_unsupported_model_witness :
  let w := Stub.world (Stub.refusal 503 "invalid_request_error"
                         "The model gpt-999 does not exist") in
  let run :=
    onMessage_callChatGPTAPI Stub.platform w (Stub.flashcard_request "Bonjour")
      Stub.installed in
  (forall sent_request, is_network_failure (fetch w sent_request))
  /\ fst run
     = Some (Failure
               "HTTP error! status: 503, message: The model gpt-999 does not exist"
               (Some 503)
               (Some (VObj [("error",
                             VObj [("type", VStr "invalid_request_error");
                                   ("message",
                                    VStr "The model gpt-999 does not exist")])]))
               (Some "openai") false)
  /\ exists error status errorData provider,
       Failure
         "HTTP error! status: 503, message: The model gpt-999 does not exist"
         (Some 503)
         (Some (VObj [("error",
                       VObj [("type", VStr "invalid_request_error");
                             ("message",
                              VStr "The model gpt-999 does not exist")])]))
         (Some "openai") false
       = Failure error status errorData provider false.
Proof.
  intros w run.
  assert (Hnet : forall sent_request, is_network_failure (fetch w sent_request)).
  { intros sent_request. split; [reflexivity|left; cbn; lia]. }
  assert (Hfst : fst run
                 = Some (Failure
                           "HTTP error! status: 503, message: The model gpt-999 does not exist"
                           (Some 503)
                           (Some (VObj [("error",
                                         VObj [("type", VStr "invalid_request_error");
                                               ("message",
                                                VStr "The model gpt-999 does not exist")])]))
                           (Some "openai") false)).
  { vm_compute. reflexivity. }
  split; [exact Hnet|]. split; [exact Hfst|].
  apply (network_failure_is_not_unsupported_model Stub.platform w
           (Stub.flashcard_request "Bonjour") Stub.installed _ (snd run) Hnet).
  rewrite <- Hfst. apply surjective_pairing.
Defined.

(** C9 as stated fails: a request turned down before the exchange is
    answered without a provider. *)
Lemma early_rejection_names_no_provider :
  ~ (forall (pf : Platform) (w : World) (request : ChatRequest) (st : State),
       match fst (onMessage_callChatGPTAPI pf w request st) with
       | Some (Success _) => True
       | Some (Failure _ _ _ (Some _) _) => True
       | _ => False
       end).
Proof.
  intros H.
  specialize (H Stub.platform (Stub.world Stub.provider_A)
                (Stub.request_of_type "bogus") Stub.installed).
  vm_compute in H. exact H.
Qed.

(** What the request of the counterexample is answered with. *)
Lemma early_rejection_example :
  fst (onMessage_callChatGPTAPI Stub.platform (Stub.world Stub.provider_A)
         (Stub.request_of_type "bogus") Stub.installed)
  = Some (Failure "Invalid conversation type: bogus" None None None false).
Proof. vm_compute. reflexivity. Qed.

(** With a provider that is none of the two, no response is sent. *)
Lemma other_provider_is_never_answered :
  fst (onMessage_callChatGPTAPI Stub.platform (Stub.world Stub.provider_A)
         (Stub.request_of_type "flashcard") Stub.other_provider)
  = None.
Proof. vm_compute. reflexivity. Qed.

(** A provider that never answers leaves the request without an answer. *)
Lemma silent_provider_is_never_answered :
  fst (onMessage_callChatGPTAPI Stub.platform (Stub.world Stub.silent)
         (Stub.request_of_type "flashcard") Stub.installed)
  = None.
Proof. vm_compute. reflexivity. Qed.

(** With the default provider and the network down, the request is
    answered with a failure that names the provider. *)
Lemma every_request_is_answered_witness :
  let w := Stub.world Stub.offline in
  let request := Stub.flashcard_request "Bonjour" in
  (string_or (selectedProvider (storage Stub.installed)) OPENAI = OPENAI
   \/ string_or (selectedProvider (storage Stub.installed)) OPENAI = GOOGLE)
  /\ turned_down Stub.platform (storage Stub.installed)
       (string_or (selectedProvider (storage Stub.installed)) OPENAI)
       (apiKey request) (type request) = None
  /\ exists answer st',
       onMessage_callChatGPTAPI Stub.platform w request Stub.installed
       = (answer, st')
       /\ match answer with
          | Some (Success _) => True
          | Some (Failure _ _ _ named _) =>
              named = Some (string_or (selectedProvider (storage Stub.installed))
                              OPENAI)
          | None =>
              exists sent_request,
                sent st' = sent_request :: sent Stub.installed
                /\ fetch w sent_request = FetchStalls
          end.
Proof.
  intros w request.
  assert (Et : turned_down Stub.platform (storage Stub.installed)
                 (string_or (selectedProvider (storage Stub.installed)) OPENAI)
                 (apiKey request) (type request) = None)
    by (vm_compute; reflexivity).
  split; [left; reflexivity|]. split; [exact Et|].
  assert (H := every_request_is_answered Stub.platform w request Stub.installed
                 (or_introl eq_refl)).
  cbv zeta in H. rewrite Et in H. exact H.
Defined.

(** C5 as stated fails: with own-credits mode on and no validated key, a
    call with an unknown purpose is rejected for the key, not for the
    purpose. *)
Lemma unknown_purpose_is_checked_after_the_key :
  ~ (forall (pf : Platform) (w : World)
       (userId type userMessage language : string) (apiKey : option jsstring)
       (st : State),
       is_conversation_type type = false ->
       fst (callAIProviderAPI pf w userId type userMessage language apiKey st)
       = Rejected (reject_Error
                     (Err.Error ("Invalid conversation type: " +:+ type)))).
Proof.
  intros H.
  specialize (H Stub.platform (Stub.world Stub.provider_A) "u1" "bogus" "Bonjour"
                "french_fr" None Stub.own_credits_unvalidated eq_refl).
  vm_compute in H. discriminate H.
Qed.

(** What that call is rejected with. *)
Lemma unknown_purpose_with_unvalidated_key_example :
  fst (callAIProviderAPI Stub.platform (Stub.world Stub.provider_A) "u1" "bogus"
       "Bonjour" "french_fr" None Stub.own_credits_unvalidated)
  = Rejected (reject_Error (Err.Error "enterValidApiKey")).
Proof. vm_compute. reflexivity. Qed.

(** Both parts at work: an unknown purpose with the shared credits, and a
    stored key that the stored password does not open. *)
Lemma credential_then_purpose_witness :
  (is_conversation_type "bogus" = false
   /\ callAIProviderAPI Stub.platform (Stub.world Stub.provider_A) "u1" "bogus"
        "Bonjour" "french_fr" None Stub.installed
      = (Rejected (reject_Error (Err.Error "Invalid conversation type: bogus")),
         Stub.installed))
  /\ (decryptApiKey Stub.platform
        (fst (encryptApiKey Stub.platform (of_string "sk-proj-42")
                (of_string "00ff") Stub.entropy))
        (of_string "00fe") = None
      /\ callAIProviderAPI Stub.platform (Stub.world Stub.provider_A) "u1"
           "flashcard" "Bonjour" "french_fr" None Stub.own_credits_wrong_password
         = (Rejected (reject_Error (Err.Error "failedToDecryptApiKey")),
            Stub.own_credits_wrong_password)).
Proof.
  assert (Hd : decryptApiKey Stub.platform
                 (fst (encryptApiKey Stub.platform (of_string "sk-proj-42")
                         (of_string "00ff") Stub.entropy))
                 (of_string "00fe") = None) by (vm_compute; reflexivity).
  split.
  - split; [reflexivity|].
    apply (proj1 (credential_then_purpose Stub.platform
                    (Stub.world Stub.provider_A) "u1" "bogus" "Bonjour"
                    "french_fr" None Stub.installed)).
    + reflexivity.
    + exists None. reflexivity.
  - split; [exact Hd|].
    apply (proj2 (credential_then_purpose Stub.platform
                    (Stub.world Stub.provider_A) "u1" "flashcard" "Bonjour"
                    "french_fr" None Stub.own_credits_wrong_password)
             (fst (encryptApiKey Stub.platform (of_string "sk-proj-42")
                     (of_string "00ff") Stub.entropy)) "00fe").
    + reflexivity.
    + reflexivity.
    + discriminate.
    + reflexivity.
    + reflexivity.
    + reflexivity.
    + discriminate.
    + exact Hd.
Defined.

(** A translation cached at some instant is served 23 h 59 min later and
    not 24 h 1 min later. *)
Lemma cached_translation_expires_after_a_day_witness :
  let st :=
    setCachedTranslation "bonjour" "english_us" (VStr "hello") 1700000000000
      (storage Stub.installed) in
  translations st !! createTranslationCacheKey "bonjour" "english_us"
  = Some {| translation := VStr "hello"; timestamp := 1700000000000;
            sourceText := "bonjour"; targetLanguage := "english_us" |}
  /\ getCachedTranslation "bonjour" "english_us" (1700000000000 + 86340000) st
     = VStr "hello"
  /\ getCachedTranslation "bonjour" "english_us" (1700000000000 + 86460000) st
     = VNull.
Proof.
  intros st.
  assert (Hl : translations st !! createTranslationCacheKey "bonjour" "english_us"
               = Some {| translation := VStr "hello"; timestamp := 1700000000000;
                         sourceText := "bonjour";
                         targetLanguage := "english_us" |})
    by apply setCachedTranslation_lookup.
  split; [exact Hl|].
  destruct (cached_translation_expires_after_a_day "bonjour" "english_us" st _ Hl)
    as (H1 & H2 & _).
  split; [exact H1|exact H2].
Defined.

(** The key under which the example is cached. *)
Lemma cache_key_example :
  createTranslationCacheKey "bonjour" "english_us"
  = "translation_cache_11y57n_english_us".
Proof. vm_compute. reflexivity. Qed.

(** The stubbed provider answers a request for a flashcard with a reply
    that conforms to its schema. *)
Lemma provider_A_conforms (request : Request) :
  asks_for_flashcard request ->
  exists reply,
    schema_conformant_reply Stub.platform request (Stub.provider_A request) reply.
Proof.
  intros (userMessage & language & learningGoal & Hs).
  destruct (flashcard_schema userMessage language learningGoal)
    as (Hreq & Hprops & Hclosed).
  exists (Stub.flashcard_reply (includes "mnemonic" userMessage)).
  unfold schema_conformant_reply, Stub.provider_A. rewrite Hs, Hreq.
  split; [reflexivity|].
  do 3 eexists. split; [reflexivity|]. split; [reflexivity|].
  assert (Hall : forall k v,
             In (k, v) [("definition", VStr "a greeting");
                        ("translation", VStr "hello");
                        ("example_1", VStr "Bonjour !");
                        ("example_2", VStr "Bonjour, madame.");
                        ("example_3", VStr "Bonjour a tous.");
                        ("mnemonic", VStr "bon + jour")] ->
             exists text, v = VStr text).
  { intros k v Hin. repeat destruct Hin as [Hin|Hin]; try contradiction;
      injection Hin as _ <-; eauto. }
  unfold conforms. rewrite Hreq, Hprops.
  destruct (includes "mnemonic" userMessage).
  - split; [reflexivity|]. split; [reflexivity|]. split; [reflexivity|].
    split; [apply (bool_decide_unpack _); vm_compute; reflexivity|].
    split; [intros k Hin; exact Hin|]. split; [intros _ k Hin; exact Hin|].
    intros k v Hin _. apply (Hall k v). exact Hin.
  - split; [reflexivity|]. split; [reflexivity|]. split; [reflexivity|].
    split; [apply (bool_decide_unpack _); vm_compute; reflexivity|].
    split; [intros k Hin; exact Hin|]. split; [intros _ k Hin; exact Hin|].
    intros k v Hin _. apply (Hall k v). cbn in Hin |- *. tauto.
Qed.

(** The flashcard made for [Bonjour] by the stubbed provider. *)
Lemma flashcard_result_has_the_keys_of_the_schema_witness :
  exists data st',
    callAIProviderAPI Stub.platform (Stub.world Stub.provider_A) "u1" FLASHCARD
      "Bonjour" "french_fr" None Stub.installed
    = (Resolved data, st')
    /\ NoDup (keys data)
    /\ forall key,
         In key (keys data)
         <-> In key ["definition"; "translation"; "example_1"; "example_2";
                     "example_3"].
Proof.
  exact (flashcard_result_has_the_keys_of_the_schema Stub.platform
           (Stub.world Stub.provider_A) "u1" "Bonjour" "french_fr" None None
           Stub.installed eq_refl eq_refl (fun _ _ => eq_refl)
           provider_A_conforms).
Defined.

(** The same with a message that asks for a mnemonic. *)
Lemma flashcard_with_mnemonic_example :
  fst (callAIProviderAPI Stub.platform (Stub.world Stub.provider_A) "u1" FLASHCARD
       "Bonjour, with a mnemonic" "french_fr" None Stub.installed)
  = Resolved (Stub.flashcard_reply true).
Proof. vm_compute. reflexivity. Qed.

(** An error response of status 402 that speaks of quota and billing, as
    the gateway answers it. *)
Lemma quota_refusal_example :
  fst (onMessage_callChatGPTAPI Stub.platform
         (Stub.world (Stub.refusal 402 "insufficient_quota"
                        "You exceeded your current quota, please check your plan and billing details."))
         (Stub.flashcard_request "Bonjour") Stub.installed)
  = Some (Failure
            "HTTP error! status: 402, message: You exceeded your current quota, please check your plan and billing details."
            (Some 402)
            (Some (VObj [("error",
                          VObj [("type", VStr "insufficient_quota");
                                ("message",
                                 VStr "You exceeded your current quota, please check your plan and billing details.")])]))
            (Some "openai") false).
Proof. vm_compute. reflexivity. Qed.



(** The same refusal as the four callers show it. *)
Lemma four_callers_example :
  let error := "HTTP error! status: 401, message: Incorrect API key provided" in
  let errorData :=
    Some (VObj [("error",
                 VObj [("type", VStr "invalid_request_error");
                       ("message", VStr "Incorrect API key provided")])]) in
  map (fun caller =>
         shown_for_failure Stub.platform (storage Stub.installed) caller error
           (Some 401) errorData (Some "openai") false)
    [ProceedWithFlashcardGeneration;
     RegenerateContent Regeneration.Mnemonic_;
     RequestTranslation;
     ProceedWithFlashcardGenerationWithTranslation]
  = [Message "apiError401IncorrectKey";
     Message "apiError401IncorrectKey";
     Text "translationError: HTTP error! status: 401, message: Incorrect API key provided";
     Nothing].
Proof. vm_compute. reflexivity. Qed.

(** An error response whose body is [null]: the failure is the exception
    of the engine, without status or payload. *)
Lemma refusal_without_payload_example :
  fst (onMessage_callChatGPTAPI Stub.platform
         (Stub.world (Stub.refusal_null 401))
         (Stub.flashcard_request "Bonjour") Stub.installed)
  = Some (Failure "TypeError" None None (Some "openai") false).
Proof. vm_compute. reflexivity. Qed.

(** Validating a Google key on the installed state. *)
Lemma one_credential_with_its_password_witness :
  let run :=
    handleValidateApiKey Stub.platform (32 :: of_string "sk-proj-42") "google"
      (Answer true) Stub.entropy in
  exists u,
    run = (Some u, snd run)
    /\ (let s' := sync_set u (storage Stub.installed) in
        encryptedApiKey s' = None
        /\ apiKeyValidated s' = false
        /\ model s' = None
        /\ at_most_one_credential s'
        /\ exists password blob,
             installationPassword s' = Some password
             /\ encryptedGoogleApiKey s' = Some blob
             /\ decryptApiKey Stub.platform blob (of_string password)
                = Some (of_string "sk-proj-42")).
Proof.
  intros run.
  destruct (fst run) as [u|] eqn:E; [|vm_compute in E; discriminate E].
  assert (Hrun : run = (Some u, snd run))
    by (rewrite <- E; apply surjective_pairing).
  exists u. split; [exact Hrun|]. cbv zeta.
  destruct (one_credential_with_its_password Stub.platform) as [Hvalid Hreach].
  destruct (Hvalid _ _ _ _ _ (storage Stub.installed) Hrun)
    as (password & blob & Hb & _ & Hp & _ & Hg & _).
  destruct (Hg eq_refl) as (_ & Hblob & _ & Hk & Hv & Hm).
  split; [exact Hk|]. split; [exact Hv|]. split; [exact Hm|].
  split.
  - apply Hreach. eapply reach_validate; [apply reach_fresh|exact Hrun].
  - exists password, blob. split; [exact Hp|]. split; [exact Hblob|].
    rewrite Hb, decrypt_encrypt by exact stub_AES_GCM_correct.
    vm_compute. reflexivity.
Defined.

(** What one encryption takes from the random source: sixteen bytes for
    the salt, then twelve for the iv. *)
Lemma encryptApiKey_draws (pf : Platform) (apiKey password : jsstring)
  (r : Random.source) :
  let '(blob, r') := encryptApiKey pf apiKey password r in
  salt blob = Array_from (map (Random.tape r) (seq (Random.taken r) 16))
  /\ iv blob = Array_from (map (Random.tape r) (seq (Random.taken r + 16) 12))
  /\ length (salt blob) = 16%nat /\ length (iv blob) = 12%nat
  /\ Random.taken r' = (Random.taken r + 28)%nat.
Proof.
  unfold encryptApiKey, Random.getRandomValues.
  cbn [salt iv Random.tape Random.taken]. repeat split. lia.
Qed.

(** Two encryptions from a source that repeats itself are the same. *)
Lemma same_draws_same_blob :
  let constant := {| Random.tape := fun _ => x00; Random.taken := 0 |} in
  let '(first, r1) :=
    encryptApiKey Stub.platform (of_string "sk") (of_string "pw") constant in
  let '(second, _) :=
    encryptApiKey Stub.platform (of_string "sk") (of_string "pw") r1 in
  first = second.
Proof. vm_compute. reflexivity. Qed.

End Examples.

(* ===================================================================== *)
(** * Part III: further properties of the program                          *)
(* ===================================================================== *)

(** ** Strings *)

Section StringFacts.
Import Facts.

Lemma append_cons a (s t : string) : String a s +:+ t = String a (s +:+ t).
Proof. reflexivity. Qed.

Lemma append_assoc (s t u : string) : (s +:+ t) +:+ u = s +:+ (t +:+ u).
Proof.
  induction s as [|a s IH]; [reflexivity|]. rewrite !append_cons. now rewrite IH.
Qed.

Lemma append_empty_r (s : string) : s +:+ EmptyString = s.
Proof.
  induction s as [|a s IH]; [reflexivity|]. rewrite append_cons. now rewrite IH.
Qed.

Lemma prefix_append (s t : string) : String.prefix s (s +:+ t) = true.
Proof.
  induction s as [|a s IH]; [now destruct t|].
  rewrite append_cons. simpl. destruct (ascii_dec a a); [exact IH|contradiction].
Qed.

Lemma occurs_append a (s t : string) :
  occurs a (s +:+ t) = occurs a s || occurs a t.
Proof.
  induction s as [|b s IH]; [reflexivity|].
  rewrite append_cons. simpl. rewrite IH. apply orb_assoc.
Qed.

(** A character that does not occur in [e] is found, in [e] followed by
    more, only after [e]. *)
Lemma split_after_plain a (e rest p t : string) :
  occurs a e = false ->
  e +:+ rest = p +:+ String a t ->
  exists p', p = e +:+ p' /\ rest = p' +:+ String a t.
Proof.
  revert p. induction e as [|b e IH]; intros p Hf H.
  - exists p. split; [reflexivity|exact H].
  - simpl in Hf. apply orb_false_elim in Hf as [Hab He].
    destruct p as [|c p]; rewrite !append_cons in H; injection H as Hc H.
    + subst b. now rewrite Ascii.eqb_refl in Hab.
    + subst c. destruct (IH p He H) as (p' & -> & Hr).
      exists p'. split; [reflexivity|exact Hr].
Qed.

End StringFacts.

(** ** Escaped text *)

Section HtmlFacts.
Import Html Facts.

Lemma replace_all_app c by_text s t :
  replace_all c by_text (s +:+ t)
  = replace_all c by_text s +:+ replace_all c by_text t.
Proof.
  induction s as [|a s IH]; [reflexivity|].
  rewrite append_cons. simpl. rewrite IH.
  destruct (Ascii.eqb a c); [|reflexivity].
  symmetry. apply append_assoc.
Qed.

Lemma escapeHTML_app (s t : string) :
  escapeHTML (s +:+ t) = escapeHTML s +:+ escapeHTML t.
Proof. unfold escapeHTML. now rewrite !replace_all_app. Qed.

Lemma is_markup_cases a :
  is_markup a = true ->
  a = AMPERSAND \/ a = LESS_THAN \/ a = GREATER_THAN \/ a = QUOTATION_MARK
  \/ a = APOSTROPHE.
Proof.
  unfold is_markup. rewrite !orb_true_iff, !Ascii.eqb_eq. tauto.
Qed.

Lemma is_markup_plain a :
  is_markup a = false ->
  Ascii.eqb a AMPERSAND = false /\ Ascii.eqb a LESS_THAN = false
  /\ Ascii.eqb a GREATER_THAN = false /\ Ascii.eqb a QUOTATION_MARK = false
  /\ Ascii.eqb a APOSTROPHE = false.
Proof.
  unfold is_markup. rewrite !orb_false_iff. tauto.
Qed.

(** The five replacements together act on each character by itself. *)
Lemma escapeHTML_one a : escapeHTML (String a EmptyString) = escaped a.
Proof.
  destruct (is_markup a) eqn:E.
  - apply is_markup_cases in E as [->|[->|[->|[->| ->]]]]; reflexivity.
  - apply is_markup_plain in E as (E1 & E2 & E3 & E4 & E5).
    unfold escapeHTML, escaped. simpl.
    rewrite E1. simpl. rewrite E2. simpl. rewrite E3. simpl. rewrite E4.
    simpl. now rewrite E5.
Qed.

Lemma escapeHTML_cons a s :
  escapeHTML (String a s) = escaped a +:+ escapeHTML s.
Proof.
  change (String a s) with (String a EmptyString +:+ s).
  now rewrite escapeHTML_app, escapeHTML_one.
Qed.

Lemma escaped_markup a :
  is_markup a = true ->
  exists tail,
    In tail reference_tails /\ escaped a = String AMPERSAND tail
    /\ occurs AMPERSAND tail = false.
Proof.
  intros E. apply is_markup_cases in E as [->|[->|[->|[->| ->]]]].
  - exists "amp;". cbn. auto.
  - exists "lt;". cbn. auto.
  - exists "gt;". cbn. auto.
  - exists "quot;". cbn. auto 6.
  - exists "#039;". cbn. auto 7.
Qed.

Lemma escaped_plain a :
  is_markup a = false -> escaped a = String a EmptyString.
Proof.
  intros E. apply is_markup_plain in E as (E1 & E2 & E3 & E4 & E5).
  unfold escaped. now rewrite E1, E2, E3, E4, E5.
Qed.

(** None of the four other characters is in what a character becomes. *)
Lemma escaped_has_no_markup a c :
  c = LESS_THAN \/ c = GREATER_THAN \/ c = QUOTATION_MARK \/ c = APOSTROPHE ->
  occurs c (escaped a) = false.
Proof.
  intros Hc. destruct (is_markup a) eqn:E.
  - apply is_markup_cases in E as [->|[->|[->|[->| ->]]]];
      destruct Hc as [->|[->|[->| ->]]]; reflexivity.
  - rewrite (escaped_plain a E). simpl. rewrite orb_false_r.
    apply is_markup_plain in E as (E1 & E2 & E3 & E4 & E5).
    rewrite Ascii.eqb_sym.
    destruct Hc as [->|[->|[->| ->]]]; assumption.
Qed.

Lemma escapeHTML_has_no_markup s c :
  c = LESS_THAN \/ c = GREATER_THAN \/ c = QUOTATION_MARK \/ c = APOSTROPHE ->
  occurs c (escapeHTML s) = false.
Proof.
  intros Hc. induction s as [|a s IH]; [reflexivity|].
  rewrite escapeHTML_cons, occurs_append, IH.
  now rewrite escaped_has_no_markup.
Qed.

Lemma escapeHTML_ampersands s p t :
  escapeHTML s = p +:+ String AMPERSAND t ->
  exists tail, In tail reference_tails /\ String.prefix tail t = true.
Proof.
  revert p. induction s as [|a s IH]; intros p H.
  - destruct p; discriminate H.
  - rewrite escapeHTML_cons in H. destruct (is_markup a) eqn:E.
    + destruct (escaped_markup a E) as (tail & Hin & Ha & Hocc).
      rewrite Ha in H. destruct p as [|c p]; simpl in H; injection H as H.
      * exists tail. split; [exact Hin|]. rewrite <- H. apply prefix_append.
      * destruct (split_after_plain _ _ _ _ _ Hocc H0) as (p' & _ & Hr).
        exact (IH p' Hr).
    + rewrite (escaped_plain a E) in H.
      apply is_markup_plain in E as (E1 & _).
      destruct p as [|c p]; simpl in H; injection H as Hc H.
      * subst a. now rewrite Ascii.eqb_refl in E1.
      * exact (IH p H).
Qed.

(** X1: in escaped text none of the characters [<], [>], the quotation
    mark and the apostrophe is left, and every ampersand begins one of the
    five character references. *)
Theorem escapeHTML_leaves_no_markup (unsafeText : string) :
  occurs LESS_THAN (escapeHTML unsafeText) = false
  /\ occurs GREATER_THAN (escapeHTML unsafeText) = false
  /\ occurs QUOTATION_MARK (escapeHTML unsafeText) = false
  /\ occurs APOSTROPHE (escapeHTML unsafeText) = false
  /\ forall before after,
       escapeHTML unsafeText = before +:+ String AMPERSAND after ->
       exists tail, In tail reference_tails /\ String.prefix tail after = true.
Proof.
  repeat split; try (apply escapeHTML_has_no_markup; tauto).
  intros before after. apply escapeHTML_ampersands.
Qed.

(** A tag with an attribute and an ampersand. *)
Lemma escapeHTML_leaves_no_markup_witness :
  escapeHTML "<a href='x'>R&D</a>"
  = "&lt;a href=&#039;x&#039;&gt;R" +:+ String AMPERSAND "amp;D&lt;/a&gt;"
  /\ exists tail,
       In tail reference_tails
       /\ String.prefix tail "amp;D&lt;/a&gt;" = true.
Proof.
  assert (H : escapeHTML "<a href='x'>R&D</a>"
              = "&lt;a href=&#039;x&#039;&gt;R"
                +:+ String AMPERSAND "amp;D&lt;/a&gt;") by reflexivity.
  split; [exact H|].
  exact (proj2 (proj2 (proj2 (proj2
           (escapeHTML_leaves_no_markup "<a href='x'>R&D</a>")))) _ _ H).
Defined.

(** X2: no two texts have the same escaped text. *)
Theorem escapeHTML_injective (s t : string) :
  escapeHTML s = escapeHTML t -> s = t.
Proof.
  revert t. induction s as [|a s IH]; intros [|b t] H.
  - reflexivity.
  - rewrite escapeHTML_cons in H. exfalso.
    destruct (is_markup b) eqn:E.
    + destruct (escaped_markup b E) as (tail & _ & Hb & _).
      rewrite Hb in H. discriminate H.
    + rewrite (escaped_plain b E) in H. discriminate H.
  - rewrite escapeHTML_cons in H. exfalso.
    destruct (is_markup a) eqn:E.
    + destruct (escaped_markup a E) as (tail & _ & Ha & _).
      rewrite Ha in H. discriminate H.
    + rewrite (escaped_plain a E) in H. discriminate H.
  - rewrite !escapeHTML_cons in H.
    destruct (is_markup a) eqn:Ea, (is_markup b) eqn:Eb.
    + apply is_markup_cases in Ea as [->|[->|[->|[->| ->]]]];
        apply is_markup_cases in Eb as [->|[->|[->|[->| ->]]]];
        try discriminate H; injection H as H; now rewrite (IH t H).
    + rewrite (escaped_plain b Eb) in H.
      apply is_markup_plain in Eb as (Eb & _).
      destruct (escaped_markup a Ea) as (tail & _ & Ha & _).
      rewrite Ha in H. injection H as Hb _. subst b.
      now rewrite Ascii.eqb_refl in Eb.
    + rewrite (escaped_plain a Ea) in H.
      apply is_markup_plain in Ea as (Ea & _).
      destruct (escaped_markup b Eb) as (tail & _ & Hb & _).
      rewrite Hb in H. injection H as Ha _. subst a.
      now rewrite Ascii.eqb_refl in Ea.
    + rewrite (escaped_plain a Ea), (escaped_plain b Eb) in H.
      injection H as -> H. now rewrite (IH t H).
Qed.

Lemma escapeHTML_injective_witness :
  escapeHTML "a<b" = escapeHTML ("a" +:+ "<b") /\ "a<b" = "a" +:+ "<b".
Proof.
  assert (H : escapeHTML "a<b" = escapeHTML ("a" +:+ "<b")) by reflexivity.
  split; [exact H|]. exact (escapeHTML_injective _ _ H).
Defined.

(** X3: escaping a concatenation is concatenating the escaped parts, and a
    text with none of the five characters is its own escaped text. *)
Theorem escapeHTML_of_concatenation :
  (forall s t, escapeHTML (s +:+ t) = escapeHTML s +:+ escapeHTML t)
  /\ (forall s,
        (forall a, occurs a s = true -> is_markup a = false) ->
        escapeHTML s = s).
Proof.
  split; [exact escapeHTML_app|].
  induction s as [|a s IH]; intros H; [reflexivity|].
  rewrite escapeHTML_cons, escaped_plain, IH; [reflexivity| |].
  - intros c Hc. apply H. simpl. rewrite Hc. apply orb_true_r.
  - apply H. simpl. now rewrite Ascii.eqb_refl.
Qed.

Lemma escapeHTML_of_concatenation_witness :
  (forall a, occurs a "Bonjour" = true -> is_markup a = false)
  /\ escapeHTML "Bonjour" = "Bonjour".
Proof.
  assert (H : forall a, occurs a "Bonjour" = true -> is_markup a = false).
  { intros a Ha. simpl in Ha.
    repeat (apply orb_true_iff in Ha as [Ha|Ha];
            [apply Ascii.eqb_eq in Ha; subst a; reflexivity|]).
    discriminate Ha. }
  split; [exact H|]. exact (proj2 escapeHTML_of_concatenation "Bonjour" H).
Defined.

End HtmlFacts.

(** ** The translation cache: what is put and what is served *)

Section CacheRoundTrip.
Import Json JsonOps Js Store Content.

Lemma getCachedTranslation_after_put key_text key_language text language
  translation now later st :
  createTranslationCacheKey key_text key_language
  = createTranslationCacheKey text language ->
  later - now <= 24 * 60 * 60 * 1000 ->
  getCachedTranslation key_text key_language later
    (setCachedTranslation text language translation now st)
  = translation.
Proof.
  intros Hk Hl. unfold getCachedTranslation, setCachedTranslation, with_translation.
  cbn [translations]. rewrite Hk, lookup_insert_eq. cbn [Store.timestamp Store.translation].
  unfold isTranslationExpired, TWENTY_FOUR_HOURS.
  destruct (Z.gtb_spec (later - now) (24 * 60 * 60 * 1000)); [lia|reflexivity].
Qed.

(** X4: a translation put in the cache is served for the same text and
    language at every read made no more than 24 h later, whatever was
    cached before; and the entries of the other cache keys are served as
    before. *)
Theorem cached_translation_is_served
  (text language : string) (translation : value) (now later : Z) (st : Storage) :
  (later - now <= 24 * 60 * 60 * 1000 ->
   getCachedTranslation text language later
     (setCachedTranslation text language translation now st)
   = translation)
  /\ (forall other_text other_language,
        createTranslationCacheKey other_text other_language
        <> createTranslationCacheKey text language ->
        getCachedTranslation other_text other_language later
          (setCachedTranslation text language translation now st)
        = getCachedTranslation other_text other_language later st).
Proof.
  split.
  - now apply getCachedTranslation_after_put.
  - intros other_text other_language Hk.
    unfold getCachedTranslation, setCachedTranslation, with_translation.
    cbn [translations]. rewrite lookup_insert_ne by congruence. reflexivity.
Qed.

(** A second translation of [bonjour] replaces the first; the entry of
    [merci] stays. *)
Lemma cached_translation_is_served_witness :
  let st :=
    setCachedTranslation "merci" "english_us" (VStr "thanks") 1700000000000
      (setCachedTranslation "bonjour" "english_us" (VStr "hello") 1700000000000
         (fresh "gpt-4o-mini" "models/gemini")) in
  1700000050000 - 1700000040000 <= 24 * 60 * 60 * 1000
  /\ getCachedTranslation "bonjour" "english_us" 1700000050000
       (setCachedTranslation "bonjour" "english_us" (VStr "good morning")
          1700000040000 st)
     = VStr "good morning"
  /\ createTranslationCacheKey "merci" "english_us"
     <> createTranslationCacheKey "bonjour" "english_us"
  /\ getCachedTranslation "merci" "english_us" 1700000050000
       (setCachedTranslation "bonjour" "english_us" (VStr "good morning")
          1700000040000 st)
     = VStr "thanks".
Proof.
  intros st.
  assert (Hl : 1700000050000 - 1700000040000 <= 24 * 60 * 60 * 1000) by lia.
  assert (Hk : createTranslationCacheKey "merci" "english_us"
               <> createTranslationCacheKey "bonjour" "english_us")
    by (vm_compute; discriminate).
  destruct (cached_translation_is_served "bonjour" "english_us"
              (VStr "good morning") 1700000040000 1700000050000 st)
    as [Hsame Hother].
  split; [exact Hl|]. split; [exact (Hsame Hl)|]. split; [exact Hk|].
  rewrite (Hother "merci" "english_us" Hk).
  apply getCachedTranslation_after_put; [reflexivity|lia].
Defined.

(** X5: the cache knows a text by its 32-bit hash only: a translation put
    for one text is served, for the same language, for every text of the
    same hash. *)
Theorem cached_translation_of_a_colliding_text
  (text other_text language : string) (translation : value) (now later : Z)
  (st : Storage) :
  createTextHash other_text = createTextHash text ->
  later - now <= 24 * 60 * 60 * 1000 ->
  getCachedTranslation other_text language later
    (setCachedTranslation text language translation now st)
  = translation.
Proof.
  intros Hh Hl. apply getCachedTranslation_after_put; [|exact Hl].
  unfold createTranslationCacheKey. now rewrite Hh.
Qed.

(** The texts [Aa] and [BB] have the hash 2112. *)
Lemma cached_translation_of_a_colliding_text_witness :
  createTextHash "BB" = createTextHash "Aa"
  /\ "BB" <> "Aa"
  /\ 1700000050000 - 1700000040000 <= 24 * 60 * 60 * 1000
  /\ getCachedTranslation "BB" "french_fr" 1700000050000
       (setCachedTranslation "Aa" "french_fr" (VStr "Ah") 1700000040000
          (fresh "gpt-4o-mini" "models/gemini"))
     = VStr "Ah".
Proof.
  assert (Hh : createTextHash "BB" = createTextHash "Aa") by reflexivity.
  assert (Hl : 1700000050000 - 1700000040000 <= 24 * 60 * 60 * 1000) by lia.
  split; [exact Hh|]. split; [discriminate|]. split; [exact Hl|].
  exact (cached_translation_of_a_colliding_text "Aa" "BB" "french_fr" (VStr "Ah")
           1700000040000 1700000050000 (fresh "gpt-4o-mini" "models/gemini")
           Hh Hl).
Defined.

End CacheRoundTrip.
(** ** What a call of the gateway does to the state *)

Section GatewayEffects.
Import Json JsonOps Js Text Vault Store Http Gateway Props Facts.

Variable pf : Platform.
Variable w : World.

Lemma same_but_conversation_refl key s : same_but_conversation key s s.
Proof. repeat split. Qed.

Lemma same_but_conversation_trans key s1 s2 s3 :
  same_but_conversation key s1 s2 -> same_but_conversation key s2 s3 ->
  same_but_conversation key s1 s3.
Proof.
  unfold same_but_conversation. intros H K.
  repeat match goal with H : _ /\ _ |- _ => destruct H as [? H] end.
  repeat split; try congruence.
  intros other Ho. rewrite K, H by exact Ho. reflexivity.
Qed.

Lemma same_but_conversation_written key c s :
  same_but_conversation key s (with_conversation key c s).
Proof.
  repeat split. intros other Ho. cbn [with_conversation conversations].
  apply lookup_insert_ne. congruence.
Qed.

Lemma exchange_effect_storage key route st r st' :
  exchange_effect w key route st r st' ->
  storage st' = storage st
  \/ exists request response c,
       fetch w request = FetchResolves response /\ ok response = true
       /\ storage st' = with_conversation key c (storage st).
Proof.
  intros [[-> _]|(request & _
                  & [[-> _]|(response & c & Hf & Hok & _ & ->)])];
    [left; reflexivity|left; reflexivity|right; eauto 10].
Qed.

(** X6: a call of the gateway leaves every key of storage as it was, but
    the conversation of its user and purpose. *)
Theorem call_touches_one_conversation
  (userId type userMessage language : string) (apiKey : option jsstring)
  (st : State) (outcome : Settled) (st' : State) :
  callAIProviderAPI pf w userId type userMessage language apiKey st
  = (outcome, st') ->
  same_but_conversation (conversation_key userId type) (storage st) (storage st').
Proof.
  intros H. apply callAIProviderAPI_effect in H. cbv zeta in H.
  destruct (turned_down pf _ _ _ _) as [e|];
    [destruct H as [_ ->]; apply same_but_conversation_refl|].
  destruct H as (apiKeyToUse & st0 & r & _ & H0 & He & _).
  apply same_but_conversation_trans with (storage st0).
  - destruct H0 as [->|[_ ->]];
      [apply same_but_conversation_refl|apply same_but_conversation_written].
  - apply exchange_effect_storage in He as [->|(? & ? & c & _ & _ & ->)];
      [apply same_but_conversation_refl|apply same_but_conversation_written].
Qed.

(** X7: a call of the gateway sends one request at most.  It sends none
    when the checks turn it down, and none when the conversation cannot be
    created; a call that resolves has sent exactly one, which the provider
    answered with a success; and a call that never settles, with one of the
    two providers selected, has sent exactly one, which was never
    answered. *)
Theorem call_sends_one_request_at_most
  (userId type userMessage language : string) (apiKey : option jsstring)
  (st : State) (outcome : Settled) (st' : State) :
  callAIProviderAPI pf w userId type userMessage language apiKey st
  = (outcome, st') ->
  let result := storage st in
  let provider := string_or (selectedProvider result) OPENAI in
  let learningGoal :=
    string_or (learningGoal result) "General language learning" in
  let key := conversation_key userId type in
  (sent st' = sent st \/ exists request, sent st' = request :: sent st)
  /\ (forall e,
        turned_down pf result provider apiKey type = Some e ->
        outcome = Rejected (reject_Error e) /\ st' = st)
  /\ (conversations result !! key = None ->
      sync_set_error w key (fresh_conversation pf type learningGoal) <> None ->
      sent st' = sent st /\ ~ is_resolved outcome)
  /\ (is_resolved outcome ->
      exists request response,
        sent st' = request :: sent st
        /\ fetch w request = FetchResolves response /\ ok response = true)
  /\ (outcome = Pending ->
      provider = OPENAI \/ provider = GOOGLE ->
      exists request,
        sent st' = request :: sent st /\ fetch w request = FetchStalls).
Proof.
  intros H. cbv zeta.
  assert (Heffect := callAIProviderAPI_effect pf w _ _ _ _ _ _ _ _ H).
  cbv zeta in Heffect.
  split; [|split; [|split; [|split]]].
  - destruct (turned_down pf _ _ _ _) as [e|];
      [destruct Heffect as [_ ->]; auto|].
    destruct Heffect as (apiKeyToUse & st0 & r & _ & H0 & He & _).
    assert (Hs : sent st0 = sent st)
      by (destruct H0 as [->|[_ ->]]; reflexivity).
    destruct He as [[-> _]|(request & _
                            & [[-> _]|(response & c & _ & _ & _ & ->)])];
      cbn [recorded logged sent]; rewrite Hs; eauto.
  - intros e Et. rewrite Et in Heffect. exact Heffect.
  - intros Hnone Hrefused. unfold callAIProviderAPI in H.
    destruct (resolve_credential pf _ _ _) as [e|apiKeyToUse];
      [injection H as <- <-; auto|].
    destruct (negb (is_conversation_type type));
      [injection H as <- <-; auto|].
    unfold exchange, bind, getOrCreateConversation, sync_set_conversation in H.
    rewrite Hnone in H.
    destruct (sync_set_error w _ _) as [message|]; [|contradiction].
    injection H as <- <-. auto.
  - intros Hres.
    destruct (turned_down pf _ _ _ _) as [e|];
      [destruct Heffect as [-> _]; destruct Hres|].
    destruct Heffect as (apiKeyToUse & st0 & r & _ & H0 & He & Hr).
    assert (Hs : sent st0 = sent st)
      by (destruct H0 as [->|[_ ->]]; reflexivity).
    apply Hr in Hres.
    destruct He as [[_ Hn]|(request & _
                            & [[_ Hn]|(response & c & Hf & Hok & _ & ->)])];
      try contradiction.
    exists request, response. cbn [recorded logged sent]. rewrite Hs. auto.
  - intros -> Hp. unfold callAIProviderAPI in H.
    destruct (resolve_credential pf _ _ _) as [e|apiKeyToUse];
      [discriminate H|].
    destruct (negb (is_conversation_type type)); [discriminate H|].
    destruct (exchange pf w _ _ _ _ _ _ _ _ st) as [r st1] eqn:E.
    apply exchange_ending_of in E
      as [[(message & ->)
          |[(prefix & sent_request & r0 & st0 & _ & _ & _ & Ht)
           |[(data & sent_request & r0 & -> & _)
            |(sent_request & -> & Hs & Hf)]]]
         |(-> & Hn1 & Hn2)]; try discriminate H.
    + apply throw_http_error_state in Ht as [_ [e ->]]. discriminate H.
    + injection H as <-. eauto.
    + destruct Hp; contradiction.
Qed.

(** X8: where the request of a call goes.  With the OpenAI-like provider
    and the credits of the extension it goes to the worker, with the id of
    the user and the default model and without any key; with the user's own
    credits it goes to the provider, with the user's key and model and
    without the id of the user.  With the Google-like provider it goes to
    the provider, the key in the query. *)
Theorem call_routes_its_request
  (userId type userMessage language : string) (apiKey : option jsstring)
  (st : State) (outcome : Settled) (st' : State) (request : Request) :
  callAIProviderAPI pf w userId type userMessage language apiKey st
  = (outcome, st') ->
  sent st' = request :: sent st ->
  let result := storage st in
  let provider := string_or (selectedProvider result) OPENAI in
  exists apiKeyToUse,
    resolve_credential pf result provider apiKey = inr apiKeyToUse
    /\ request_route pf result provider userId apiKeyToUse request.
Proof.
  intros H Hsent. apply callAIProviderAPI_effect in H. cbv zeta in H |- *.
  assert (Hne : forall (x : Request) l, l <> x :: l).
  { intros x l Hl. apply (f_equal (@length Request)) in Hl. cbn in Hl. lia. }
  destruct (turned_down pf _ _ _ _) as [e|];
    [destruct H as [_ ->]; now apply Hne in Hsent|].
  destruct H as (apiKeyToUse & st0 & r & Hc & H0 & He & Hres).
  exists apiKeyToUse. split; [exact Hc|].
  assert (Hs : sent st0 = sent st) by (destruct H0 as [->|[_ ->]]; reflexivity).
  destruct He as [[-> Hn]|(sent_request & Hroute
                            & [[-> Hn]|(response & c & Hf & Hok & _ & ->)])].
  - rewrite Hs in Hsent. now apply Hne in Hsent.
  - cbn [logged sent] in Hsent. rewrite Hs in Hsent.
    injection Hsent as <-. exact Hroute.
  - cbn [recorded logged sent] in Hsent. rewrite Hs in Hsent.
    injection Hsent as <-. exact Hroute.
Qed.

(** X9: when the provider gives no successful answer (no response, or a
    status outside 200 to 299), the call does not resolve and the exchange
    is not recorded: the stored conversation of the user and purpose is
    what it was or, if there was none, the new one with the system message
    alone. *)
Theorem failed_exchange_is_not_recorded
  (userId type userMessage language : string) (apiKey : option jsstring)
  (st : State) (outcome : Settled) (st' : State) :
  (forall request, no_success (fetch w request)) ->
  callAIProviderAPI pf w userId type userMessage language apiKey st
  = (outcome, st') ->
  let key := conversation_key userId type in
  let learningGoal :=
    string_or (learningGoal (storage st)) "General language learning" in
  ~ is_resolved outcome
  /\ (conversations (storage st') !! key = conversations (storage st) !! key
      \/ (conversations (storage st) !! key = None
          /\ conversations (storage st') !! key
             = Some (fresh_conversation pf type learningGoal))).
Proof.
  intros Hno H. apply callAIProviderAPI_effect in H. cbv zeta in H |- *.
  destruct (turned_down pf _ _ _ _) as [e|];
    [destruct H as [-> ->]; split; [exact (fun x => x)|auto]|].
  destruct H as (apiKeyToUse & st0 & r & _ & H0 & He & Hres).
  assert (Hst : storage st' = storage st0 /\ no_result r).
  { destruct He as [[-> Hn]|(request & _
                             & [[-> Hn]|(response & c & Hf & Hok & _ & ->)])];
      [auto|auto|].
    specialize (Hno request). rewrite Hf in Hno. cbn in Hno. congruence. }
  destruct Hst as [-> Hn]. split; [tauto|].
  destruct H0 as [->|[Hnone ->]]; [left; reflexivity|].
  right. split; [exact Hnone|].
  cbn [recorded storage with_conversation conversations].
  apply lookup_insert_eq.
Qed.

End GatewayEffects.

Section GatewayEffectExamples.
Import Json JsonOps Js Text Vault Store Http Gateway Props Facts.

(** A flashcard for [Bonjour] with the credits of the extension. *)
Lemma call_touches_one_conversation_witness :
  let run :=
    callAIProviderAPI Stub.platform (Stub.world Stub.provider_A) "u1" FLASHCARD
      "Bonjour" "french_fr" None Stub.installed in
  run = (fst run, snd run)
  /\ same_but_conversation (conversation_key "u1" FLASHCARD)
       (storage Stub.installed) (storage (snd run)).
Proof.
  intros run.
  assert (H : run = (fst run, snd run)) by apply surjective_pairing.
  split; [exact H|].
  exact (call_touches_one_conversation Stub.platform (Stub.world Stub.provider_A)
           "u1" FLASHCARD "Bonjour" "french_fr" None Stub.installed
           (fst run) (snd run) H).
Defined.

(** A call that resolves has sent one request, answered with a success;
    a call for an unknown purpose is turned down and sends none. *)
Lemma call_sends_one_request_at_most_witness :
  let w := Stub.world Stub.provider_A in
  let run :=
    callAIProviderAPI Stub.platform w "u1" FLASHCARD "Bonjour" "french_fr" None
      Stub.installed in
  let early :=
    callAIProviderAPI Stub.platform w "u1" "bogus" "Bonjour" "french_fr" None
      Stub.installed in
  run = (fst run, snd run)
  /\ is_resolved (fst run)
  /\ (exists request response,
        sent (snd run) = request :: sent Stub.installed
        /\ fetch w request = FetchResolves response /\ ok response = true)
  /\ early = (fst early, snd early)
  /\ fst early
     = Rejected (reject_Error (Err.Error "Invalid conversation type: bogus"))
  /\ snd early = Stub.installed.
Proof.
  intros w run early.
  assert (H : run = (fst run, snd run)) by apply surjective_pairing.
  assert (Hres : is_resolved (fst run)) by (vm_compute; exact I).
  assert (K : early = (fst early, snd early)) by apply surjective_pairing.
  split; [exact H|]. split; [exact Hres|]. split.
  { exact (proj1 (proj2 (proj2 (proj2
             (call_sends_one_request_at_most Stub.platform w "u1" FLASHCARD
                "Bonjour" "french_fr" None Stub.installed (fst run) (snd run)
                H)))) Hres). }
  split; [exact K|].
  exact (proj1 (proj2
           (call_sends_one_request_at_most Stub.platform w "u1" "bogus"
              "Bonjour" "french_fr" None Stub.installed (fst early) (snd early)
              K)) (Err.Error "Invalid conversation type: bogus") eq_refl).
Defined.

(** With the user's own credits the stored key goes to the provider. *)
Lemma own_credits_request_example :
  map (fun request => (url request, authorization request,
                       prop (body request) "model",
                       prop (body request) "userId"))
    (sent (snd (callAIProviderAPI Stub.platform (Stub.world Stub.provider_A)
                  "u1" FLASHCARD "Bonjour" "french_fr" None Sample.own_credits)))
  = [(OPENAI_URL, Some (of_string "sk-proj-42"), VStr "gpt-4o", VUndefined)].
Proof. vm_compute. reflexivity. Qed.

Lemma call_routes_its_request_witness :
  let run :=
    callAIProviderAPI Stub.platform (Stub.world Stub.provider_A) "u1" FLASHCARD
      "Bonjour" "french_fr" None Sample.own_credits in
  let request :=
    match sent (snd run) with
    | request :: _ => request
    | [] => {| url := ""; authorization := None; key_parameter := None;
               body := VUndefined |}
    end in
  run = (fst run, snd run)
  /\ sent (snd run) = request :: sent Sample.own_credits
  /\ exists apiKeyToUse,
       resolve_credential Stub.platform (storage Sample.own_credits) OPENAI None
       = inr apiKeyToUse
       /\ request_route Stub.platform (storage Sample.own_credits) OPENAI "u1"
            apiKeyToUse request.
Proof.
  intros run request.
  assert (H : run = (fst run, snd run)) by apply surjective_pairing.
  assert (Hs : sent (snd run) = request :: sent Sample.own_credits)
    by (vm_compute; reflexivity).
  split; [exact H|]. split; [exact Hs|].
  exact (call_routes_its_request Stub.platform (Stub.world Stub.provider_A)
           "u1" FLASHCARD "Bonjour" "french_fr" None Sample.own_credits
           (fst run) (snd run) request H Hs).
Defined.

(** With no connection, the first call of a user leaves the new
    conversation and nothing of the exchange. *)
Lemma failed_exchange_is_not_recorded_witness :
  let run :=
    callAIProviderAPI Stub.platform (Stub.world Stub.offline) "u1" FLASHCARD
      "Bonjour" "french_fr" None Stub.installed in
  (forall request, no_success (fetch (Stub.world Stub.offline) request))
  /\ run = (fst run, snd run)
  /\ ~ is_resolved (fst run)
  /\ (conversations (storage (snd run)) !! conversation_key "u1" FLASHCARD
      = conversations (storage Stub.installed) !! conversation_key "u1" FLASHCARD
      \/ (conversations (storage Stub.installed) !! conversation_key "u1" FLASHCARD
          = None
          /\ conversations (storage (snd run)) !! conversation_key "u1" FLASHCARD
             = Some (fresh_conversation Stub.platform FLASHCARD
                       "General language learning"))).
Proof.
  intros run.
  assert (Hno : forall request,
             no_success (fetch (Stub.world Stub.offline) request))
    by (intros request; exact I).
  assert (H : run = (fst run, snd run)) by apply surjective_pairing.
  split; [exact Hno|]. split; [exact H|].
  exact (failed_exchange_is_not_recorded Stub.platform (Stub.world Stub.offline)
           "u1" FLASHCARD "Bonjour" "french_fr" None Stub.installed
           (fst run) (snd run) Hno H).
Defined.

End GatewayEffectExamples.

(** ** The keys of the conversations *)

Section ConversationKeys.
Import Json JsonOps Js Text Vault Store Http Gateway Props Facts.

Lemma list_ascii_of_append (s t : string) :
  list_ascii_of_string (s +:+ t)
  = list_ascii_of_string s ++ list_ascii_of_string t.
Proof.
  induction s as [|a s IH]; [reflexivity|].
  rewrite append_cons. cbn [list_ascii_of_string app]. now rewrite IH.
Qed.

Lemma list_ascii_of_string_inj (s t : string) :
  list_ascii_of_string s = list_ascii_of_string t -> s = t.
Proof.
  intros H. rewrite <- (string_of_list_ascii_of_string s),
    <- (string_of_list_ascii_of_string t). now rewrite H.
Qed.

Lemma append_inv_head (p s t : string) : p +:+ s = p +:+ t -> s = t.
Proof.
  induction p as [|a p IH]; [trivial|].
  rewrite !append_cons. intros H. injection H as H. exact (IH H).
Qed.

(** What is left of [whole] after a front part is its last characters. *)
Lemma skipn_of_tail {A} (front tail whole : list A) :
  whole = front ++ tail ->
  skipn (length whole - length tail) whole = tail.
Proof.
  intros ->. rewrite length_app.
  replace (length front + length tail - length tail)%nat with (length front)
    by lia.
  rewrite skipn_app, skipn_all, Nat.sub_diag. reflexivity.
Qed.

(** No purpose, after the underscore that precedes it in a key, ends
    another one. *)
Lemma purposes_end_no_other (type1 type2 : string) (front : list ascii) :
  is_conversation_type type1 = true ->
  is_conversation_type type2 = true ->
  list_ascii_of_string ("_" +:+ type2)
  = front ++ list_ascii_of_string ("_" +:+ type1) ->
  front = [] /\ type1 = type2.
Proof.
  unfold is_conversation_type. rewrite !existsb_exists.
  intros (x1 & H1 & E1) (x2 & H2 & E2) H.
  apply String.eqb_eq in E1, E2. subst x1 x2.
  assert (Hk := skipn_of_tail _ _ _ H).
  assert (Hl : length (list_ascii_of_string ("_" +:+ type2))
               = (length front
                  + length (list_ascii_of_string ("_" +:+ type1)))%nat)
    by (rewrite H at 1; apply length_app).
  unfold CONVERSATION_TYPES in H1, H2. cbn [In] in H1, H2.
  repeat match goal with
         | H : _ \/ _ |- _ => destruct H as [H|H]
         | H : False |- _ => destruct H
         end;
    subst type1 type2; vm_compute in Hk; try discriminate Hk;
    (split; [|reflexivity]); (destruct front; [reflexivity|]);
    cbn in Hl; lia.
Qed.

(** X10: with purposes of the enumeration, two keys of conversations are
    the same only for the same user and the same purpose: the
    conversations of different users or purposes are stored apart. *)
Theorem conversation_keys_are_apart (userId1 type1 userId2 type2 : string) :
  is_conversation_type type1 = true ->
  is_conversation_type type2 = true ->
  conversation_key userId1 type1 = conversation_key userId2 type2 ->
  userId1 = userId2 /\ type1 = type2.
Proof.
  intros H1 H2 H. unfold conversation_key in H.
  apply append_inv_head in H.
  apply (f_equal list_ascii_of_string) in H.
  rewrite (list_ascii_of_append userId1), (list_ascii_of_append userId2) in H.
  apply app_eq_app in H as [front [[Hu Ht]|[Hu Ht]]].
  - destruct (purposes_end_no_other type1 type2 front H1 H2 Ht) as [-> ->].
    rewrite app_nil_r in Hu. split; [|reflexivity].
    now apply list_ascii_of_string_inj.
  - destruct (purposes_end_no_other type2 type1 front H2 H1 Ht) as [-> ->].
    rewrite app_nil_r in Hu. split; [|reflexivity].
    symmetry. now apply list_ascii_of_string_inj.
Qed.

(** Without that condition they are not: a user id may end like a
    purpose begins. *)
Lemma conversation_keys_of_other_purposes_example :
  conversation_key "u1_translation" "popup"
  = conversation_key "u1" TRANSLATION_POPUP.
Proof. reflexivity. Qed.

Lemma conversation_keys_are_apart_witness :
  is_conversation_type TRANSLATION = true
  /\ is_conversation_type TRANSLATION = true
  /\ conversation_key "u1" TRANSLATION
     = conversation_key ("u" +:+ "1") TRANSLATION
  /\ "u1" = "u" +:+ "1" /\ TRANSLATION = TRANSLATION.
Proof.
  assert (H : conversation_key "u1" TRANSLATION
              = conversation_key ("u" +:+ "1") TRANSLATION) by reflexivity.
  split; [reflexivity|]. split; [reflexivity|]. split; [exact H|].
  exact (conversation_keys_are_apart "u1" TRANSLATION ("u" +:+ "1") TRANSLATION
           eq_refl eq_refl H).
Defined.

End ConversationKeys.

(** ** The key, from the field of the options page to the provider *)

Section KeyFacts.
Import Json JsonOps Js Bytes Text Vault Store Http Gateway Props Facts.
Import Background Options OptionsPage Random.

Variable pf : Platform.

Lemma trim_start_spec (s : jsstring) :
  exists spaces,
    s = spaces ++ trim_start s
    /\ match trim_start s with
       | c :: _ => is_white_space c = false
       | [] => True
       end.
Proof.
  induction s as [|c s IH]; [exists []; split; [reflexivity|exact I]|].
  destruct IH as (spaces & Hs & Hh).
  cbn [trim_start]. destruct (is_white_space c) eqn:E.
  - exists (c :: spaces). split; [cbn; now rewrite <- Hs|exact Hh].
  - exists []. split; [reflexivity|exact E].
Qed.

(** A trimmed string does not begin with white space; the byte order mark
    is white space. *)
Lemma trim_head (s : jsstring) :
  match trim s with
  | c :: _ => is_white_space c = false
  | [] => True
  end.
Proof.
  unfold trim.
  destruct (trim_start_spec s) as (spaces & _ & Hh).
  destruct (trim_start_spec (rev (trim_start s))) as (spaces' & Hs' & _).
  apply (f_equal (@rev Z)) in Hs'. rewrite rev_involutive, rev_app_distr in Hs'.
  destruct (rev (trim_start (rev (trim_start s)))) as [|c k]; [exact I|].
  rewrite Hs' in Hh. exact Hh.
Qed.

Lemma trim_not_BOM (s : jsstring) : hd 0 (trim s) <> BOM.
Proof.
  assert (H := trim_head s). destruct (trim s) as [|c k]; [discriminate|].
  cbn [hd]. intros ->. discriminate H.
Qed.

Lemma hex_digit_is_hexadecimal (d : Z) :
  0 <= d < 16 ->
  In (hex_digit d)
    (list_ascii_of_string "0123456789abcdef").
Proof.
  intros H.
  assert (Hd : d = 0 \/ d = 1 \/ d = 2 \/ d = 3 \/ d = 4 \/ d = 5 \/ d = 6
               \/ d = 7 \/ d = 8 \/ d = 9 \/ d = 10 \/ d = 11 \/ d = 12
               \/ d = 13 \/ d = 14 \/ d = 15) by lia.
  repeat destruct Hd as [->|Hd]; try subst d; cbn; auto 20.
Qed.

Lemma hex_of_bytes_format (bs : list byte) :
  let text :=
    fold_right (fun b acc => String.append (hex2 b) acc) EmptyString bs in
  String.length text = (2 * length bs)%nat
  /\ Forall (fun a => In a (list_ascii_of_string "0123456789abcdef"))
       (list_ascii_of_string text).
Proof.
  cbv zeta. induction bs as [|b bs [IHl IHf]]; [split; [reflexivity|constructor]|].
  cbn [fold_right]. unfold hex2 at 1 3. rewrite !append_cons.
  change (EmptyString +:+ ?x) with x.
  cbn [String.length list_ascii_of_string length]. split; [lia|].
  assert (Hb := Z_of_byte_range b).
  constructor; [apply hex_digit_is_hexadecimal; div_lia|].
  constructor; [apply hex_digit_is_hexadecimal; div_lia|exact IHf].
Qed.

(** X11: the installation password is 64 characters long, each of them a
    digit or a letter from [a] to [f]: two for each of the 32 bytes taken
    from the random source. *)
Theorem installation_password_format (r : source) :
  let '(password, r') := generateInstallationPassword r in
  String.length password = 64%nat
  /\ Forall (fun a => In a (list_ascii_of_string "0123456789abcdef"))
       (list_ascii_of_string password)
  /\ taken r' = (taken r + 32)%nat.
Proof.
  unfold generateInstallationPassword, getRandomValues.
  destruct (hex_of_bytes_format (map (tape r) (seq (taken r) 32))) as [Hl Hf].
  rewrite length_map, length_seq in Hl.
  split; [exact Hl|]. split; [exact Hf|reflexivity].
Qed.

Lemma installation_password_not_empty (r : source) :
  fst (generateInstallationPassword r) <> EmptyString.
Proof.
  unfold generateInstallationPassword, getRandomValues. cbn [fst].
  destruct (hex_of_bytes_format (map (tape r) (seq (taken r) 32))) as [Hl _].
  rewrite length_map, length_seq in Hl. intros He. rewrite He in Hl.
  discriminate Hl.
Qed.

Section WithWorld.
Variable w : World.
Variable JSON_stringify : value -> string.
Variable is_positive_number : string -> bool.
Variable lastError : StorageUpdate -> option string.

Lemma stateless_ret {A} (a : A) : stateless (ret a).
Proof. intros st r st' H. now injection H as _ <-. Qed.

Lemma stateless_throw {A} (e : Err.t) : stateless (@throw A e).
Proof. intros st r st' H. now injection H as _ <-. Qed.

Lemma stateless_bind {A B} (m : M A) (k : A -> M B) :
  stateless m -> (forall a, stateless (k a)) -> stateless (bind m k).
Proof.
  intros Hm Hk st r st' H. unfold bind in H.
  destruct (m st) as [[e|a|] st1] eqn:E; apply Hm in E as ->.
  - now injection H as _ <-.
  - eapply Hk. exact H.
  - now injection H as _ <-.
Qed.

Lemma stateless_get v p : stateless (get pf v p).
Proof. intros st r st'. apply get_state. Qed.

Lemma stateless_response_json response : stateless (response_json response).
Proof. intros st r st'. apply response_json_state. Qed.

Lemma stateless_each_property p items : stateless (each_property pf p items).
Proof.
  induction items as [|item items IH]; cbn [each_property];
    [apply stateless_ret|].
  apply stateless_bind; [apply stateless_get|intros x].
  apply stateless_bind; [exact IH|intros xs; apply stateless_ret].
Qed.

Lemma stateless_map_property p x : stateless (map_property pf p x).
Proof.
  unfold map_property, raise.
  destruct x; try apply stateless_throw.
  apply stateless_bind; [apply stateless_each_property|].
  intros mapped. apply stateless_ret.
Qed.

Ltac stateless :=
  repeat first
    [ apply stateless_ret | apply stateless_throw | apply stateless_get
    | apply stateless_response_json | apply stateless_map_property
    | apply stateless_bind; [|intros]
    | match goal with
      | |- stateless (if ?c then _ else _) => destruct c
      end ].







End WithWorld.




(** X13: the key that a successful validation stored is the one
    [getApiKey] answers with, when the provider selected in storage is the
    one the key was validated for; when it is the other one, [getApiKey]
    finds no key. *)
Theorem stored_key_is_read_back
  (input : jsstring) (provider : string) (r : source) (u : StorageUpdate)
  (r' : source) (s : Storage) :
  handleValidateApiKey pf input provider (Answer true) r = (Some u, r') ->
  AES_GCM_correct pf ->
  well_formed (trim input) = true ->
  ((string_or (selectedProvider s) OPENAI = GOOGLE <-> provider = GOOGLE) ->
   onMessage_getApiKey pf (sync_set u s) = ApiKey (trim input))
  /\ (~ (string_or (selectedProvider s) OPENAI = GOOGLE <-> provider = GOOGLE) ->
      onMessage_getApiKey pf (sync_set u s)
      = NoApiKey "API key not found for selected provider").
Proof.
  intros H Hgcm Hw.
  apply handleValidateApiKey_valid in H as (password & blob & r1 & Hg & Hb & ->).
  assert (Hp : String.eqb password EmptyString = false).
  { apply String.eqb_neq. replace password with (fst (generateInstallationPassword r))
      by now rewrite Hg.
    apply installation_password_not_empty. }
  assert (Hd : decryptApiKey pf blob (of_string password) = Some (trim input)).
  { rewrite Hb, decrypt_encrypt by exact Hgcm.
    rewrite TextDecoder_TextEncoder; [reflexivity|exact Hw|apply trim_not_BOM]. }
  unfold onMessage_getApiKey.
  destruct (String.eqb_spec provider GOOGLE) as [Ep|Ep];
    cbn [sync_set selectedProvider encryptedApiKey encryptedGoogleApiKey
         installationPassword set_installationPassword set_encryptedApiKey
         set_encryptedGoogleApiKey written];
    destruct (String.eqb_spec (string_or (selectedProvider s) OPENAI) GOOGLE)
      as [Es|Es]; split; intros Hsel; try tauto;
    now rewrite ?Hp, ?Hd.
Qed.

(** X14: in own-credits mode with a validated key, the key the gateway
    uses when none is given with the call is the key [getApiKey] answers
    with; when [getApiKey] has no key, or an empty one, the gateway turns
    the call down. *)
Theorem gateway_uses_the_stored_key (result : Storage) :
  let provider := string_or (selectedProvider result) OPENAI in
  isOwnCredits result = true ->
  (provider = OPENAI -> apiKeyValidated result = true) ->
  (provider = GOOGLE -> googleApiKeyValidated result = true) ->
  match onMessage_getApiKey pf result with
  | ApiKey (c :: key) =>
      resolve_credential pf result provider None = inr (Some (c :: key))
  | _ => exists e, resolve_credential pf result provider None = inl e
  end.
Proof.
  cbv zeta. intros Hown Hv1 Hv2.
  unfold onMessage_getApiKey, resolve_credential.
  rewrite Hown. cbn [andb truthy_key negb].
  destruct (String.eqb_spec (string_or (selectedProvider result) OPENAI) OPENAI)
    as [E1|E1];
    destruct (String.eqb_spec (string_or (selectedProvider result) OPENAI) GOOGLE)
      as [E2|E2];
    try (rewrite E1 in E2; discriminate E2);
    rewrite ?(Hv1 E1), ?(Hv2 E2); cbn [negb];
    repeat match goal with
           | |- context [match ?x with _ => _ end] =>
               lazymatch x with
               | context [match _ with _ => _ end] => fail
               | _ => destruct x eqn:?
               end
           end;
    try discriminate; eauto.
Qed.

End KeyFacts.

Section KeyExamples.
Import Json JsonOps Js Bytes Text Vault Store Http Gateway Props Facts.
Import Background Options OptionsPage Random.

(** A refused key is sent once, and leaves the credential keys alone. *)
Lemma refused_key_example :
  let run :=
    validate_and_store Stub.platform (Stub.world Sample.refusing_provider)
      Sample.JSON_stringify Sample.is_positive_number (fun _ => None)
      Sample.typed_key "openai" EmptyString Stub.entropy Stub.installed in
  let update := fst (fst (fst run)) in
  option_map set_apiKeyValidated update = Some (Some false)
  /\ option_map set_encryptedApiKey update = Some None
  /\ map authorization (sent (snd run)) = [Some (of_string "sk-proj-42")].
Proof. vm_compute. repeat split. Qed.

(** A key that is never answered for is not stored. *)
Lemma unanswered_key_example :
  let run :=
    validate_and_store Stub.platform (Stub.world Stub.silent)
      Sample.JSON_stringify Sample.is_positive_number (fun _ => None)
      Sample.typed_key "openai" EmptyString Stub.entropy Stub.installed in
  fst (fst (fst run)) = None
  /\ storage (snd run) = storage Stub.installed
  /\ map authorization (sent (snd run)) = [Some (of_string "sk-proj-42")].
Proof. vm_compute. repeat split. Qed.


Lemma stored_key_is_read_back_witness :
  let run :=
    handleValidateApiKey Stub.platform Sample.typed_key "google" (Answer true)
      Stub.entropy in
  let s := storage Stub.installed_google in
  exists u,
    run = (Some u, snd run)
    /\ AES_GCM_correct Stub.platform
    /\ well_formed (trim Sample.typed_key) = true
    /\ (string_or (selectedProvider s) OPENAI = GOOGLE <-> "google" = GOOGLE)
    /\ onMessage_getApiKey Stub.platform (sync_set u s)
       = ApiKey (of_string "sk-proj-42").
Proof.
  intros run s.
  destruct (fst run) as [u|] eqn:E; [|vm_compute in E; discriminate E].
  assert (Hrun : run = (Some u, snd run))
    by (rewrite <- E; apply surjective_pairing).
  assert (Hw : well_formed (trim Sample.typed_key) = true)
    by (vm_compute; reflexivity).
  assert (Hsel : string_or (selectedProvider s) OPENAI = GOOGLE
                 <-> "google" = GOOGLE) by (split; reflexivity).
  exists u. split; [exact Hrun|]. split; [exact stub_AES_GCM_correct|].
  split; [exact Hw|]. split; [exact Hsel|].
  exact (proj1 (stored_key_is_read_back Stub.platform Sample.typed_key "google"
                  Stub.entropy u (snd run) s Hrun stub_AES_GCM_correct Hw)
           Hsel).
Defined.

Lemma gateway_uses_the_stored_key_witness :
  let result := storage Sample.own_credits in
  isOwnCredits result = true
  /\ apiKeyValidated result = true
  /\ onMessage_getApiKey Stub.platform result = ApiKey (of_string "sk-proj-42")
  /\ match onMessage_getApiKey Stub.platform result with
     | ApiKey (c :: key) =>
         resolve_credential Stub.platform result OPENAI None
         = inr (Some (c :: key))
     | _ => exists e, resolve_credential Stub.platform result OPENAI None = inl e
     end.
Proof.
  intros result.
  assert (Hk : onMessage_getApiKey Stub.platform result
               = ApiKey (of_string "sk-proj-42")) by (vm_compute; reflexivity).
  split; [reflexivity|]. split; [reflexivity|]. split; [exact Hk|].
  exact (gateway_uses_the_stored_key Stub.platform result eq_refl
           (fun _ => eq_refl) (fun H => ltac:(discriminate H))).
Defined.

End KeyExamples.

(** ** The classifier of the unsupported model *)

Section ClassifierFacts.
Import Json JsonOps Js Text Vault Store Http Gateway Props Facts.

Variable pf : Platform.

(** Under [invalid_request_error] the five phrases count as elsewhere, and
    three patterns besides. *)
Lemma openai_indicators text :
  existsb (openai_indicator_matches text) modelErrorIndicators
  = existsb (fun phrase => includes phrase (toLowerCase text))
      googleModelErrorIndicators
    || existsb (fun pattern => RegExp_test_i pattern text)
         ["response_format.*json_schema.*is not supported with this model";
          "json_schema.*is not supported";
          "structured outputs.*not supported"].
Proof.
  unfold modelErrorIndicators, googleModelErrorIndicators. cbn [existsb].
  unfold openai_indicator_matches.
  repeat match goal with
         | |- context [includes ".*" ?s] =>
             let b := eval vm_compute in (includes ".*" s) in
             change (includes ".*" s) with b
         end.
  cbv iota.
  repeat match goal with
         | |- context [includes ?p (toLowerCase text)] =>
             destruct (includes p (toLowerCase text))
         end;
    cbn [orb]; reflexivity.
Qed.

(** X15: whether an error response is taken for an unsupported model is
    told by the message of its payload alone, whatever the status: a
    payload without [error] is not; a message with one of the five phrases
    ([not found], [invalid model], [does not exist], [unknown model],
    [is not supported], in any case of the letters) is, whatever the type
    of the error; and when the type is not [invalid_request_error], only
    such a message is. *)
Theorem unsupported_model_goes_by_the_message
  (errorData : value) (status : Z) (st : State) :
  is_nullish errorData = false ->
  (truthy (prop errorData "error") = false ->
   isUnsupportedModelError pf errorData status st = (Returns false, st))
  /\ forall text,
       truthy (prop errorData "error") = true ->
       prop (prop errorData "error") "message" = VStr text ->
       let phrase_found :=
         existsb (fun phrase => includes phrase (toLowerCase text))
           googleModelErrorIndicators in
       (phrase_found = true ->
        isUnsupportedModelError pf errorData status st = (Returns true, st))
       /\ (is_string (prop (prop errorData "error") "type")
             "invalid_request_error" = false ->
           isUnsupportedModelError pf errorData status st
           = (Returns phrase_found, st)).
Proof.
  intros Hn. unfold isUnsupportedModelError, get, bind, ret. rewrite Hn.
  split; [now intros ->|].
  intros text Ht Hm. cbv zeta. rewrite Ht, Hm.
  assert (Ho : or_else (VStr text) (VStr "") = VStr text).
  { unfold or_else. cbn [truthy]. now destruct text. }
  rewrite Ho. unfold as_text, ret. split.
  - intros Hp. destruct (is_string _ _); [|now rewrite Hp].
    now rewrite openai_indicators, Hp.
  - now intros ->.
Qed.

End ClassifierFacts.

Section ClassifierExamples.
Import Json JsonOps Js Text Vault Store Http Gateway Props Facts.

(** The two payloads of the comment above [isUnsupportedModelError]. *)
Lemma unsupported_model_examples :
  fst (isUnsupportedModelError Stub.platform
         (VObj [("error",
                 VObj [("type", VStr "invalid_request_error");
                       ("message", VStr "The model 'gpt-999' does not exist")])])
         404 Stub.installed)
  = Returns true
  /\ fst (isUnsupportedModelError Stub.platform
            (VObj [("error",
                    VObj [("message",
                           VStr "Model models/nonexistent-model not found")])])
            404 Stub.installed)
     = Returns true.
Proof. split; reflexivity. Qed.

(** A project that is not found, under status 401: the failure is taken
    for an unsupported model. *)
Lemma unsupported_model_goes_by_the_message_witness :
  let errorData :=
    VObj [("error", VObj [("type", VStr "authentication_error");
                          ("message", VStr "Project Not Found")])] in
  is_nullish errorData = false
  /\ truthy (prop errorData "error") = true
  /\ prop (prop errorData "error") "message" = VStr "Project Not Found"
  /\ existsb (fun phrase => includes phrase (toLowerCase "Project Not Found"))
       googleModelErrorIndicators = true
  /\ isUnsupportedModelError Stub.platform errorData 401 Stub.installed
     = (Returns true, Stub.installed).
Proof.
  intros errorData.
  assert (Hn : is_nullish errorData = false) by reflexivity.
  assert (Ht : truthy (prop errorData "error") = true) by reflexivity.
  assert (Hm : prop (prop errorData "error") "message"
               = VStr "Project Not Found") by reflexivity.
  assert (Hp : existsb (fun phrase =>
                          includes phrase (toLowerCase "Project Not Found"))
                 googleModelErrorIndicators = true) by reflexivity.
  split; [exact Hn|]. split; [exact Ht|]. split; [exact Hm|].
  split; [exact Hp|].
  exact (proj1 (proj2 (unsupported_model_goes_by_the_message Stub.platform
                         errorData 401 Stub.installed Hn)
                  "Project Not Found" Ht Hm) Hp).
Defined.

End ClassifierExamples.

(** ** AnkiConnect: what a reply must be *)

Section AnkiFacts.
Import Json JsonOps Js Text Store Http Gateway Props Facts Anki.

Variable pf : Platform.
Variable w : World.
Variable engine_message : engine_fault -> string.
Variable error_toString : string -> string.

Lemma caught_rejects message : exists text, caught pf message = Rejects text.
Proof. unfold caught. destruct (_ || _); eauto. Qed.

Lemma validated_inr reply result :
  validated pf engine_message reply = inr result <->
  exists fields,
    reply = VObj fields
    /\ length fields = 2%nat
    /\ In "error" (map fst fields)
    /\ In "result" (map fst fields)
    /\ truthy (prop reply "error") = false
    /\ result = prop reply "result".
Proof.
  unfold validated. split.
  - destruct reply as [| | | | | |fields]; cbn [count_keys has_key];
      try discriminate;
      try (destruct (negb _); discriminate).
    destruct (Z.eqb_spec (Z.of_nat (length fields)) 2) as [Hl|Hl];
      [|discriminate].
    cbn [negb].
    destruct (existsb (String.eqb "error") (map fst fields)) eqn:He;
      [|discriminate].
    destruct (existsb (String.eqb "result") (map fst fields)) eqn:Hr;
      [|discriminate].
    destruct (truthy (prop (VObj fields) "error")) eqn:Ht; [discriminate|].
    intros H. injection H as <-. exists fields.
    apply existsb_exists in He as (k1 & Hk1 & E1).
    apply existsb_exists in Hr as (k2 & Hk2 & E2).
    apply String.eqb_eq in E1, E2. subst k1 k2.
    repeat split; try assumption. lia.
  - intros (fields & -> & Hl & He & Hr & Ht & ->). cbn [count_keys has_key].
    rewrite Hl. cbn [Z.of_nat Pos.of_succ_nat Pos.succ Z.eqb Pos.eqb negb].
    replace (existsb (String.eqb "error") (map fst fields)) with true
      by (symmetry; apply existsb_exists; exists "error";
          split; [exact He|apply String.eqb_refl]).
    replace (existsb (String.eqb "result") (map fst fields)) with true
      by (symmetry; apply existsb_exists; exists "result";
          split; [exact Hr|apply String.eqb_refl]).
    now rewrite Ht.
Qed.

(** [invoke] waits for ever exactly when its request is never
    answered. *)
Lemma invoke_never_settles_iff (action : string) (version : Z) (params : value) :
  invoke pf w engine_message action version params = NeverSettles
  <-> fetch w (invoke_request action version params) = FetchStalls.
Proof.
  unfold invoke. destruct (fetch w _) as [message|response|].
  - destruct (caught_rejects message) as [text ->]. split; discriminate.
  - split; [|discriminate]. destruct (negb (ok response)).
    + destruct (caught_rejects (getMessage pf "networkResponseError" []))
        as [text ->]. discriminate.
    + destruct (json response) as [message|reply].
      * destruct (caught_rejects message) as [text ->]. discriminate.
      * destruct (validated pf engine_message reply) as [message|result];
          [|discriminate].
        destruct (caught_rejects message) as [text ->]. discriminate.
  - split; reflexivity.
Qed.

Lemma invoke_resolves_iff (action : string) (version : Z) (params result : value) :
  invoke pf w engine_message action version params = Resolves result <->
  exists response fields,
    fetch w (invoke_request action version params) = FetchResolves response
    /\ ok response = true
    /\ json response = inr (VObj fields)
    /\ length fields = 2%nat
    /\ In "error" (map fst fields)
    /\ In "result" (map fst fields)
    /\ truthy (prop (VObj fields) "error") = false
    /\ result = prop (VObj fields) "result".
Proof.
  unfold invoke. split.
  - destruct (fetch w _) as [message|response|]; [|  |discriminate].
    { destruct (caught_rejects message) as [text ->]. discriminate. }
    destruct (ok response) eqn:Hok; cbn [negb].
    2:{ destruct (caught_rejects (getMessage pf "networkResponseError" []))
          as [text ->]. discriminate. }
    destruct (json response) as [message|reply] eqn:Hj.
    { destruct (caught_rejects message) as [text ->]. discriminate. }
    destruct (validated pf engine_message reply) as [message|v] eqn:Hv.
    { destruct (caught_rejects message) as [text ->]. discriminate. }
    intros H. injection H as <-.
    apply validated_inr in Hv as (fields & -> & Hl & He & Hr & Ht & ->).
    exists response, fields. repeat split; assumption.
  - intros (response & fields & -> & -> & -> & Hl & He & Hr & Ht & ->).
    cbn [negb].
    replace (validated pf engine_message (VObj fields))
      with (inr (prop (VObj fields) "result") : string + value);
      [reflexivity|].
    symmetry. apply validated_inr. exists fields. repeat split; assumption.
Qed.

(** X16: [invoke] of the background script has no timeout: it never
    settles exactly when AnkiConnect never answers its request.  It
    resolves exactly when AnkiConnect answered with a success whose body is
    an object of two keys, [error] and [result], the first of them empty;
    it resolves with the second. *)
Theorem invoke_resolves_for_a_checked_reply
  (action : string) (version : Z) (params : value) :
  (invoke pf w engine_message action version params = NeverSettles
   <-> fetch w (invoke_request action version params) = FetchStalls)
  /\ forall result,
       invoke pf w engine_message action version params = Resolves result <->
       exists response fields,
         fetch w (invoke_request action version params) = FetchResolves response
         /\ ok response = true
         /\ json response = inr (VObj fields)
         /\ length fields = 2%nat
         /\ In "error" (map fst fields)
         /\ In "result" (map fst fields)
         /\ truthy (prop (VObj fields) "error") = false
         /\ result = prop (VObj fields) "result".
Proof.
  split; [apply invoke_never_settles_iff|].
  intros result. apply invoke_resolves_iff.
Qed.

(** X17: [invoke] of the content script looks neither at the status nor at
    the field [error] of the reply: it resolves whenever the one of the
    background script does, with the same value, and also for every reply
    that is JSON and not [null], with whatever is under [result]. *)
Theorem page_invoke_resolves_unchecked
  (action : string) (version : Z) (params : value) :
  (forall result,
      invoke pf w engine_message action version params = Resolves result ->
      page_invoke w error_toString action version params = Resolves result)
  /\ (forall response reply,
        fetch w (invoke_request action version params) = FetchResolves response ->
        json response = inr reply ->
        is_nullish reply = false ->
        page_invoke w error_toString action version params
        = Resolves (prop reply "result")).
Proof.
  assert (Hpage : forall response reply,
            fetch w (invoke_request action version params)
            = FetchResolves response ->
            json response = inr reply ->
            is_nullish reply = false ->
            page_invoke w error_toString action version params
            = Resolves (prop reply "result")).
  { intros response reply Hf Hj Hn. unfold page_invoke, onMessage_invokeAnkiConnect.
    change {| url := ANKI_CONNECT_URL; authorization := None;
              key_parameter := None;
              body := VObj [("action", VStr action); ("version", VNum version);
                            ("params", params)] |}
      with (invoke_request action version params).
    now rewrite Hf, Hj, Hn. }
  split; [|exact Hpage].
  intros result H.
  apply invoke_resolves_iff in H
    as (response & fields & Hf & _ & Hj & _ & _ & _ & _ & ->).
  now apply (Hpage response (VObj fields)).
Qed.

End AnkiFacts.

Section AnkiExamples.
Import Json JsonOps Js Text Store Http Gateway Props Facts Anki.

Lemma invoke_resolves_for_a_checked_reply_witness :
  let w := Stub.world Sample.anki_decks in
  let decks := VArr [VStr "Default"; VStr "French"] in
  (exists response fields,
      fetch w (invoke_request "deckNames" 6 (VObj [])) = FetchResolves response
      /\ ok response = true
      /\ json response = inr (VObj fields)
      /\ length fields = 2%nat
      /\ In "error" (map fst fields)
      /\ In "result" (map fst fields)
      /\ truthy (prop (VObj fields) "error") = false
      /\ decks = prop (VObj fields) "result")
  /\ invoke Stub.platform w Sample.engine_message "deckNames" 6 (VObj [])
     = Resolves decks
  /\ invoke Stub.platform (Stub.world Stub.silent) Sample.engine_message
       "deckNames" 6 (VObj [])
     = NeverSettles.
Proof.
  intros w decks.
  assert (H : exists response fields,
             fetch w (invoke_request "deckNames" 6 (VObj []))
             = FetchResolves response
             /\ ok response = true
             /\ json response = inr (VObj fields)
             /\ length fields = 2%nat
             /\ In "error" (map fst fields)
             /\ In "result" (map fst fields)
             /\ truthy (prop (VObj fields) "error") = false
             /\ decks = prop (VObj fields) "result").
  { exists {| status := 200; statusText := "OK";
              json := inr (VObj [("result", decks); ("error", VNull)]) |},
      [("result", decks); ("error", VNull)].
    cbn. repeat split; auto. }
  split; [exact H|]. split.
  - exact (proj2 (proj2 (invoke_resolves_for_a_checked_reply Stub.platform w
                           Sample.engine_message "deckNames" 6 (VObj []))
                    decks) H).
  - exact (proj2 (proj1 (invoke_resolves_for_a_checked_reply Stub.platform
                           (Stub.world Stub.silent) Sample.engine_message
                           "deckNames" 6 (VObj [])))
             eq_refl).
Defined.

(** A reply that carries an error: the background script rejects with it,
    the content script resolves with the empty result. *)
Lemma page_invoke_resolves_unchecked_witness :
  let w := Stub.world Sample.anki_error in
  let request := invoke_request "addNote" 6 (VObj []) in
  fetch w request = Sample.anki_error request
  /\ invoke Stub.platform w Sample.engine_message "addNote" 6 (VObj [])
     = Rejects "deck was not found"
  /\ page_invoke w Sample.error_toString "addNote" 6 (VObj []) = Resolves VNull.
Proof.
  intros w request.
  split; [reflexivity|]. split; [reflexivity|].
  exact (proj2 (page_invoke_resolves_unchecked Stub.platform w
                  Sample.engine_message Sample.error_toString "addNote" 6
                  (VObj []))
           _ _ eq_refl eq_refl eq_refl).
Defined.

End AnkiExamples.

(** ** The guards of the content script and of the gateway *)

Section GuardFacts.
Import Json JsonOps Js Text Vault Store Http Gateway Props Facts Page.

Variable pf : Platform.

(** X18: in own-credits mode the two guards of the content script agree,
    and what they refuse the gateway refuses too: with one of the two
    providers selected and no validated key for it, every call is turned
    down at once, with the message that asks for a valid key, and nothing
    is sent or written. *)
Theorem page_guards_and_gateway (result : Storage) (user : value) :
  isOwnCredits result = true ->
  let provider := string_or (selectedProvider result) OPENAI in
  fst (checkAuth (Some "remote") user result) = isApiKeyValid result
  /\ (isApiKeyValid result = false ->
      provider = OPENAI \/ provider = GOOGLE ->
      forall w userId type userMessage language apiKey st,
        storage st = result ->
        callAIProviderAPI pf w userId type userMessage language apiKey st
        = (Rejected
             (reject_Error
                (Err.Error
                   (getMessage pf
                      (if String.eqb provider GOOGLE
                       then "enterValidGoogleApiKey"
                       else "enterValidApiKey") []))), st)).
Proof.
  intros Hown. cbv zeta. unfold checkAuth, isApiKeyValid. rewrite Hown.
  cbn [negb string_or].
  change (String.eqb "remote" "remote") with true. cbv iota. split.
  - destruct (String.eqb _ GOOGLE);
      [destruct (googleApiKeyValidated result)|destruct (apiKeyValidated result)];
      reflexivity.
  - intros Hv Hp w userId type userMessage language apiKey st <-.
    unfold callAIProviderAPI, resolve_credential. rewrite Hown. cbn [andb].
    destruct Hp as [Hp|Hp]; rewrite Hp in Hv |- *.
    + change (String.eqb OPENAI GOOGLE) with false in Hv |- *.
      change (String.eqb OPENAI OPENAI) with true. cbv iota in Hv |- *.
      now rewrite Hv.
    + change (String.eqb GOOGLE GOOGLE) with true in Hv |- *.
      change (String.eqb GOOGLE OPENAI) with false. cbv iota in Hv |- *.
      now rewrite Hv.
Qed.

End GuardFacts.

Section GuardExamples.
Import Json JsonOps Js Text Vault Store Http Gateway Props Facts Page.

Lemma page_guards_and_gateway_witness :
  let result := storage Stub.own_credits_unvalidated in
  isOwnCredits result = true
  /\ isApiKeyValid result = false
  /\ fst (checkAuth (Some "remote") VUndefined result) = false
  /\ callAIProviderAPI Stub.platform (Stub.world Stub.provider_A) "u1"
       FLASHCARD "Bonjour" "french_fr" None Stub.own_credits_unvalidated
     = (Rejected (reject_Error (Err.Error "enterValidApiKey")),
        Stub.own_credits_unvalidated).
Proof.
  intros result.
  destruct (page_guards_and_gateway Stub.platform result VUndefined eq_refl)
    as [Hg Hc].
  split; [reflexivity|]. split; [reflexivity|]. split; [exact Hg|].
  exact (Hc eq_refl (or_introl eq_refl) (Stub.world Stub.provider_A) "u1"
           FLASHCARD "Bonjour" "french_fr" None Stub.own_credits_unvalidated
           eq_refl).
Defined.

End GuardExamples.

(** ** What a resolved call leaves in storage *)

Section LastExchange.
Import Json JsonOps Js Text Vault Store Http Gateway Props Facts.

Variable pf : Platform.
Variable w : World.

Lemma openai_exchange_stores result userId type userMessage language
  learningGoal apiKeyToUse conversation systemPromptText st data st' rest :
  messages conversation = message_object "system" systemPromptText :: rest ->
  openai_exchange pf w result userId type userMessage language learningGoal
    apiKeyToUse conversation systemPromptText st = (Returns (Some data), st') ->
  exists reply,
    conversations (storage st') !! conversation_key userId type
    = Some {| messages := [message_object "system" systemPromptText;
                           message_object "user" userMessage; reply] |}
    /\ JSON_parse pf (prop reply "content") = inr data.
Proof.
  intros Hm H. unfold openai_exchange in H. rewrite Hm in H.
  apply bind_returns in H as (role0 & st1 & Hrole & H).
  apply get_returns in Hrole as (_ & -> & ->).
  change (prop (message_object "system" systemPromptText) "role")
    with (VStr "system") in H.
  change (is_string (VStr "system") "system") with true in H.
  cbn [negb] in H. unfold message_object at 1 in H.
  cbn [assign_field String.eqb Ascii.eqb Bool.eqb] in H.
  apply bind_returns in H as (response & st2 & Hf & H).
  destruct (ok response); cbn [negb] in H;
    [|exfalso; eapply throw_http_error_throws; exact H].
  apply bind_returns in H as (body & st3 & Hj & H).
  apply response_json_returns in Hj as (_ & ->).
  apply bind_returns in H as (choices & st4 & Hc & H).
  apply get_returns in Hc as (_ & -> & ->).
  destruct (prop body "choices") as [| | | | |[|choice others]|]; try discriminate H.
  apply bind_returns in H as (assistantMessage & st5 & Ha & H).
  apply get_returns in Ha as (_ & -> & ->).
  destruct (negb (truthy (prop choice "message"))
            || negb (truthy (prop (prop choice "message") "content")));
    [discriminate H|].
  apply bind_returns in H as (u & st6 & Hs & H).
  apply sync_set_conversation_returns in Hs as (_ & ->).
  exists (prop choice "message").
  destruct (JSON_parse pf _) as [message|parsed] eqn:Ep; [discriminate H|].
  injection H as <- <-. split; [|reflexivity].
  cbn [storage with_conversation conversations]. rewrite lookup_insert_eq.
  do 2 f_equal. apply keep_system_and_last_pair_app.
Qed.

Lemma google_exchange_stores result userId type userMessage language
  learningGoal apiKeyToUse conversation systemPromptText st data st' rest :
  messages conversation = message_object "system" systemPromptText :: rest ->
  google_exchange pf w result userId type userMessage language learningGoal
    apiKeyToUse conversation systemPromptText st = (Returns (Some data), st') ->
  exists reply,
    conversations (storage st') !! conversation_key userId type
    = Some {| messages := [message_object "system" systemPromptText;
                           message_object "user" userMessage; reply] |}
    /\ JSON_parse pf (prop reply "content") = inr data.
Proof.
  intros Hm H. unfold google_exchange in H. rewrite Hm in H.
  apply bind_returns in H as (response & st2 & Hf & H).
  destruct (ok response); cbn [negb] in H;
    [|exfalso; eapply throw_http_error_throws; exact H].
  apply bind_returns in H as (body & st3 & Hj & H).
  apply response_json_returns in Hj as (_ & ->).
  apply bind_returns in H as (candidates & st4 & Hc & H).
  apply get_returns in Hc as (_ & -> & ->).
  destruct (prop body "candidates") as [| | | | |[|candidate others]|];
    try discriminate H.
  apply bind_returns in H as (content & st5 & Ha & H).
  apply get_returns in Ha as (_ & -> & ->).
  destruct (negb (truthy (prop candidate "content"))); [discriminate H|].
  destruct (prop (prop candidate "content") "parts") as [| | | | |[|part parts]|];
    try discriminate H.
  apply bind_returns in H as (text & st6 & Ht & H).
  apply get_returns in Ht as (_ & -> & ->).
  destruct (negb (truthy (prop part "text"))); [discriminate H|].
  apply bind_returns in H as (role0 & st7 & Hr & H).
  apply get_returns in Hr as (_ & -> & ->).
  cbn [app first] in H.
  change (prop (message_object "system" systemPromptText) "role")
    with (VStr "system") in H.
  change (is_string (VStr "system") "system") with true in H. cbv iota in H.
  apply bind_returns in H as (u & st8 & Hs & H).
  apply sync_set_conversation_returns in Hs as (_ & ->).
  exists (VObj [("role", VStr "assistant"); ("content", prop part "text")]).
  change (prop (VObj [("role", VStr "assistant"); ("content", prop part "text")])
            "content") with (prop part "text").
  destruct (JSON_parse pf _) as [message|parsed] eqn:Ep; [discriminate H|].
  injection H as <- <-. split; [|reflexivity].
  cbn [storage with_conversation conversations]. rewrite lookup_insert_eq.
  do 2 f_equal.
  change (message_object "system" systemPromptText
          :: rest ++ [message_object "user" userMessage;
                      VObj [("role", VStr "assistant");
                            ("content", prop part "text")]])
    with ((message_object "system" systemPromptText :: rest)
          ++ [message_object "user" userMessage;
              VObj [("role", VStr "assistant"); ("content", prop part "text")]]).
  unfold keep_system_and_last_pair. rewrite slice_last2_app. reflexivity.
Qed.

(** X20: when a call resolves, the stored conversation of its user and
    purpose is exactly three messages: the system prompt of the purpose,
    the user's message of this call, and the reply of the provider, whose
    content, parsed, is what the call resolved with.  Nothing of earlier
    exchanges is kept. *)
Theorem resolved_call_stores_the_last_exchange
  (userId type userMessage language : string) (apiKey : option jsstring)
  (st : State) (data : value) (st' : State) :
  callAIProviderAPI pf w userId type userMessage language apiKey st
  = (Resolved data, st') ->
  let learningGoal :=
    string_or (learningGoal (storage st)) "General language learning" in
  exists reply,
    conversations (storage st') !! conversation_key userId type
    = Some {| messages :=
                [message_object "system" (getSystemPrompt pf type learningGoal);
                 message_object "user" userMessage; reply] |}
    /\ JSON_parse pf (prop reply "content") = inr data.
Proof.
  unfold callAIProviderAPI. cbv zeta. intros H.
  destruct (resolve_credential pf _ _ _) as [e|apiKeyToUse]; [discriminate H|].
  destruct (negb (is_conversation_type type)); [discriminate H|].
  destruct (exchange pf w _ _ _ _ _ _ _ _ st) as [[e|[d|]|] st1] eqn:E;
    try discriminate H.
  injection H as -> ->.
  unfold exchange in E.
  apply bind_returns in E as (c & st2 & Hc & E).
  apply getOrCreateConversation_returns in Hc as (rest & Hm).
  destruct (String.eqb _ OPENAI).
  - eapply openai_exchange_stores; eassumption.
  - destruct (String.eqb _ GOOGLE).
    + eapply google_exchange_stores; eassumption.
    + discriminate E.
Qed.

End LastExchange.

Section LastExchangeExamples.
Import Json JsonOps Js Text Vault Store Http Gateway Props Facts.

(** The second of two flashcards of one user: what is stored after it
    names [Merci] and not [Bonjour]. *)
Lemma resolved_call_stores_the_last_exchange_witness :
  let w := Stub.world Stub.provider_A in
  let first_run :=
    callAIProviderAPI Stub.platform w "u1" FLASHCARD "Bonjour" "french_fr" None
      Stub.installed in
  let run :=
    callAIProviderAPI Stub.platform w "u1" FLASHCARD "Merci" "french_fr" None
      (snd first_run) in
  run = (Resolved (Stub.flashcard_reply false), snd run)
  /\ exists reply,
       conversations (storage (snd run)) !! conversation_key "u1" FLASHCARD
       = Some {| messages :=
                   [message_object "system"
                      (getSystemPrompt Stub.platform FLASHCARD
                         "General language learning");
                    message_object "user" "Merci"; reply] |}
       /\ JSON_parse Stub.platform (prop reply "content")
          = inr (Stub.flashcard_reply false).
Proof.
  intros w first_run run.
  assert (Hf : fst run = Resolved (Stub.flashcard_reply false))
    by (vm_compute; reflexivity).
  assert (H : run = (Resolved (Stub.flashcard_reply false), snd run))
    by (rewrite <- Hf; apply surjective_pairing).
  split; [exact H|].
  exact (resolved_call_stores_the_last_exchange Stub.platform w "u1" FLASHCARD
           "Merci" "french_fr" None (snd first_run)
           (Stub.flashcard_reply false) (snd run) H).
Defined.

End LastExchangeExamples.

(** ** The schemas asked of the providers *)

Section SchemaFacts.
Import Json JsonOps Js Text Vault Store Http Gateway Props Facts.

(** X19: whatever the purpose, the message, the language and the learning
    goal, the schema asked of the OpenAI-like provider requires every
    property it names and allows no other, each property is a string, and
    the Google-like provider is asked for the same keys, all required. *)
Theorem schemas_require_their_properties
  (type userMessage language learningGoal : string) :
  let asked :=
    prop (prop (responseFormat type userMessage language learningGoal)
            "json_schema") "schema" in
  let asked_of_google :=
    googleResponseSchema type userMessage language learningGoal in
  names (prop asked "required") = keys (prop asked "properties")
  /\ prop asked "additionalProperties" = VBool false
  /\ (forall key,
        In key (keys (prop asked "properties")) ->
        prop (prop (prop asked "properties") key) "type" = VStr "string")
  /\ names (prop asked_of_google "required")
     = keys (prop asked_of_google "properties")
  /\ keys (prop asked_of_google "properties") = keys (prop asked "properties").
Proof.
  cbv zeta. unfold responseFormat, googleResponseSchema, purpose_schema.
  change (prop (prop (VObj [("type", VStr "json_schema");
                            ("json_schema",
                             VObj [("name", VStr (schema_name type));
                                   ("schema", ?s); ("strict", VBool true)])])
                  "json_schema") "schema") with s.
  destruct (String.eqb type FLASHCARD).
  { destruct (includes "mnemonic" userMessage); cbn;
      repeat split; try reflexivity;
      intros key Hk;
      repeat destruct Hk as [<-|Hk]; try reflexivity; contradiction. }
  destruct (String.eqb type EXAMPLES).
  { cbn. repeat split; try reflexivity.
    intros key Hk.
    repeat destruct Hk as [<-|Hk]; try reflexivity; contradiction. }
  destruct (String.eqb type TRANSLATION_POPUP).
  { cbn. repeat split; try reflexivity.
    intros key Hk.
    repeat destruct Hk as [<-|Hk]; try reflexivity; contradiction. }
  cbn. repeat split; try reflexivity.
  intros key [<-|[]]. now rewrite String.eqb_refl.
Qed.

End SchemaFacts.

Section SchemaExamples.
Import Json JsonOps Js Text Vault Store Http Gateway Props Facts.

(** The schema of a definition asks for the one key [definition]. *)
Lemma schemas_require_their_properties_witness :
  let asked :=
    prop (prop (responseFormat DEFINITION "Define: bonjour" "french_fr" "travel")
            "json_schema") "schema" in
  keys (prop asked "properties") = ["definition"]
  /\ In "definition" (keys (prop asked "properties"))
  /\ prop (prop (prop asked "properties") "definition") "type" = VStr "string".
Proof.
  intros asked.
  assert (Hin : In "definition" (keys (prop asked "properties")))
    by (left; reflexivity).
  split; [reflexivity|]. split; [exact Hin|].
  exact (proj1 (proj2 (proj2 (schemas_require_their_properties DEFINITION
                                "Define: bonjour" "french_fr" "travel")))
           "definition" Hin).
Defined.

End SchemaExamples.

(** ** The list of models of the options page *)

Section ModelChoiceFacts.
Import Json JsonOps Js Text Store Gateway Props Facts ModelChoice.

Lemma of_family_name provider model name :
  of_family provider model = Some name -> model = VStr name.
Proof.
  destruct model; try discriminate. cbn.
  repeat match goal with
         | |- context [if ?c then _ else _] => destruct c
         end; congruence.
Qed.

Lemma in_filteredModels provider items name :
  In name (filteredModels provider items) <->
  In (VStr name) items /\ of_family provider (VStr name) = Some name.
Proof.
  unfold filteredModels. rewrite in_flat_map. split.
  - intros (model & Hin & Hf).
    destruct (of_family provider model) as [n|] eqn:E; [|contradiction].
    destruct Hf as [->|[]].
    apply of_family_name in E as E'. subst model. auto.
  - intros [Hin Hf]. exists (VStr name). rewrite Hf. split; [exact Hin|now left].
Qed.

Lemma offered_in x filtered : offered x filtered = true -> In x filtered.
Proof.
  unfold offered. intros H. apply andb_prop in H as [_ H].
  apply existsb_exists in H as (y & Hy & E). apply String.eqb_eq in E.
  now subst y.
Qed.

(** X21: when [updateModelChoice] fills the dropdown, every option is a
    string that the provider listed and that belongs to the family of the
    provider ([gpt-], or [gemini-] with or without [models/] before it);
    the model it selects is one of the options; the stored choice is kept
    when it is among them; and storage is written only when neither the
    stored choice nor the one of the dropdown is, with the model that is
    selected. *)
Theorem chosen_model_is_offered
  (models : value) (provider currentValue : string) (result : Storage)
  (options : list (string * string)) (selected : string)
  (stored : option string) :
  updateModelChoice models provider currentValue result
  = Chosen options selected stored ->
  let savedModel :=
    string_or (if String.eqb provider GOOGLE then googleModel result
               else model result) EmptyString in
  In selected (map fst options)
  /\ (forall name text,
        In (name, text) options ->
        text = displayName name
        /\ of_family provider (VStr name) = Some name
        /\ exists items, models = VArr items /\ In (VStr name) items)
  /\ (offered savedModel (map fst options) = true ->
      selected = savedModel /\ stored = None)
  /\ (forall name,
        stored = Some name ->
        name = selected
        /\ offered savedModel (map fst options) = false
        /\ offered currentValue (map fst options) = false).
Proof.
  unfold updateModelChoice. cbv zeta.
  destruct models as [| | | | |items|]; try discriminate.
  destruct (filteredModels provider items) as [|first_model others] eqn:Ef;
    [discriminate|].
  rewrite <- Ef.
  set (filtered := filteredModels provider items).
  set (savedModel := string_or _ EmptyString).
  assert (Hfst : map fst (map (fun m => (m, displayName m)) filtered) = filtered).
  { rewrite map_map. cbn [fst]. apply map_id. }
  assert (Hopt : forall name text,
             In (name, text) (map (fun m => (m, displayName m)) filtered) ->
             text = displayName name
             /\ of_family provider (VStr name) = Some name
             /\ exists l, VArr items = VArr l /\ In (VStr name) l).
  { intros name text Hin. apply in_map_iff in Hin as (m & Hm & Hin).
    injection Hm as <- <-. split; [reflexivity|].
    apply in_filteredModels in Hin as [Hi Hf]. eauto. }
  assert (Hfirst : In first_model filtered)
    by (unfold filtered; rewrite Ef; now left).
  destruct (offered savedModel filtered) eqn:Es;
    [|destruct (offered currentValue filtered) eqn:Ec];
    intros H; injection H as <- <- <-; rewrite Hfst;
    (split; [|split; [exact Hopt|split]]).
  - now apply offered_in.
  - auto.
  - discriminate.
  - now apply offered_in.
  - rewrite Es. discriminate.
  - discriminate.
  - exact Hfirst.
  - rewrite Es. discriminate.
  - intros name Hn. injection Hn as <-. auto.
Qed.

End ModelChoiceFacts.

Section ModelChoiceExamples.
Import Json JsonOps Js Text Store Gateway Props Facts ModelChoice.

(** Of four entries two are models of the family; the stored choice is
    one of them and is kept. *)
Lemma chosen_model_is_offered_witness :
  let models :=
    VArr [VStr "whisper-1"; VStr "gpt-4o"; VNum 7; VStr "gpt-4o-mini"] in
  let result := storage Stub.installed_google in
  updateModelChoice models "openai" "" result
  = Chosen [("gpt-4o", "gpt-4o"); ("gpt-4o-mini", "gpt-4o-mini")] "gpt-4o-mini"
      None
  /\ In "gpt-4o-mini" ["gpt-4o"; "gpt-4o-mini"].
Proof.
  intros models result.
  assert (H : updateModelChoice models "openai" "" result
              = Chosen [("gpt-4o", "gpt-4o"); ("gpt-4o-mini", "gpt-4o-mini")]
                  "gpt-4o-mini" None) by reflexivity.
  split; [exact H|].
  exact (proj1 (chosen_model_is_offered models "openai" "" result _ _ _ H)).
Defined.

(** The text of a Google model is what follows its last slash. *)
Lemma displayName_example :
  displayName "models/gemini-2.5-flash" = "gemini-2.5-flash"
  /\ displayName "gemini-pro" = "gemini-pro".
Proof. split; reflexivity. Qed.

End ModelChoiceExamples.

(** ** The limit of the regenerations *)

Section RegenerationFacts.
Import Json JsonOps Js Text Store Gateway Props Facts Regeneration.

Lemma count_of_increment part p counts :
  count_of part (increment p counts)
  = count_of part counts + (if same_part part p then 1 else 0).
Proof. destruct part, p; cbn; lia. Qed.

Lemma count_of_attempt isOwnCredits regenerationLimit part p counts :
  count_of part (attempt isOwnCredits regenerationLimit counts p)
  = if same_part part p
       && negb (negb isOwnCredits && reached (count_of part counts)
                                       regenerationLimit)
    then count_of part counts + 1
    else count_of part counts.
Proof.
  unfold attempt, regenerateContent_gate.
  change (String.eqb (string_or (Some "remote") EmptyString) "remote") with true.
  cbn [negb].
  destruct (same_part part p) eqn:Ep.
  - assert (p = part) as -> by (destruct part, p; try discriminate; reflexivity).
    destruct (negb isOwnCredits && reached _ _); cbn [negb andb];
      [reflexivity|].
    rewrite count_of_increment, Ep. reflexivity.
  - cbn [andb]. destruct (negb isOwnCredits && reached _ _); [reflexivity|].
    rewrite count_of_increment, Ep. lia.
Qed.

(** X22: with the credits of the extension, a part that has not passed the
    stored limit never does: after any attempts, on any parts, its counter
    is the smaller of the limit and of the counter it would have without
    one; the attempts are counted, whether or not the provider then
    answers.  With the user's own credits, or with no limit stored, every
    attempt counts. *)
Theorem regeneration_stops_at_the_limit
  (regenerationLimit : Z) (part : Part) (parts : list Part) (counts : Counts) :
  (count_of part counts <= regenerationLimit ->
   count_of part (fold_left (attempt false (Some regenerationLimit)) parts counts)
   = Z.min regenerationLimit (count_of part counts + attempts_on part parts))
  /\ count_of part (fold_left (attempt true (Some regenerationLimit)) parts counts)
     = count_of part counts + attempts_on part parts
  /\ count_of part (fold_left (attempt false None) parts counts)
     = count_of part counts + attempts_on part parts.
Proof.
  unfold attempts_on. split; [|split].
  - revert counts. induction parts as [|p parts IH]; intros counts Hc;
      cbn [fold_left List.filter]; [cbn [length]; lia|].
    assert (Ha := count_of_attempt false (Some regenerationLimit) part p counts).
    cbn [negb andb reached] in Ha.
    destruct (same_part part p); cbn [andb] in Ha; cbn [length];
      destruct (Z.leb_spec regenerationLimit (count_of part counts));
      cbn [negb] in Ha; rewrite IH by lia; lia.
  - revert counts. induction parts as [|p parts IH]; intros counts;
      cbn [fold_left List.filter]; [cbn [length]; lia|].
    rewrite IH, count_of_attempt. cbn [negb andb].
    destruct (same_part part p); cbn [negb andb length]; lia.
  - revert counts. induction parts as [|p parts IH]; intros counts;
      cbn [fold_left List.filter]; [cbn [length]; lia|].
    rewrite IH, count_of_attempt. cbn [negb andb reached].
    destruct (same_part part p); cbn [negb andb length]; lia.
Qed.

End RegenerationFacts.

Section RegenerationExamples.
Import Json JsonOps Js Text Store Gateway Props Facts Regeneration.

(** With a limit of three, five attempts on the definition and one on the
    examples. *)
Lemma regeneration_stops_at_the_limit_witness :
  let zero := {| definition := 0; mnemonic := 0; translation := 0;
                 examples := 0 |} in
  let parts := [Definition_; Definition_; Examples_; Definition_; Definition_;
                Definition_] in
  count_of Definition_ zero <= 3
  /\ count_of Definition_ (fold_left (attempt false (Some 3)) parts zero)
     = Z.min 3 (count_of Definition_ zero + attempts_on Definition_ parts)
  /\ fold_left (attempt false (Some 3)) parts zero
     = {| definition := 3; mnemonic := 0; translation := 0; examples := 1 |}.
Proof.
  intros zero parts.
  assert (H : count_of Definition_ zero <= 3) by (cbn; lia).
  split; [exact H|]. split; [|reflexivity].
  exact (proj1 (regeneration_stops_at_the_limit 3 Definition_ parts zero) H).
Defined.

End RegenerationExamples.

(** ** What decryption returns for any secret *)

Section SanitisedSecret.
Import Bytes Text Vault Random Props Facts.

Lemma to_scalars_are_scalars (s : jsstring) :
  Forall (fun c => is_code_unit c = true) s -> Forall is_scalar (to_scalars s).
Proof.
  assert (Hrep : is_scalar REPLACEMENT) by (right; unfold REPLACEMENT; lia).
  assert (Hone : forall c,
             is_code_unit c = true -> is_lead c = false -> is_trail c = false ->
             is_scalar c).
  { intros c Hc El Et. apply is_code_unit_spec in Hc. unfold is_scalar.
    destruct (Z.lt_ge_cases c 55296); [left; lia|right].
    destruct (Z.le_gt_cases c 56319).
    - assert (is_lead c = true) by (apply is_lead_spec; lia). congruence.
    - destruct (Z.le_gt_cases c 57343); [|lia].
      assert (is_trail c = true) by (apply is_trail_spec; lia). congruence. }
  induction s as [|c|c t r IHr IHtr] using jsstring_pair_ind; intros H.
  - constructor.
  - apply Forall_inv in H. cbn [to_scalars].
    destruct (is_lead c) eqn:El; [constructor; [exact Hrep|constructor]|].
    destruct (is_trail c) eqn:Et; (constructor; [auto|constructor]).
  - assert (Hc := Forall_inv H). assert (Htr := Forall_inv_tail H).
    assert (Hr := Forall_inv_tail Htr).
    remember (t :: r) as tr eqn:Etr. cbn [to_scalars].
    destruct (is_lead c) eqn:El.
    + subst tr. destruct (is_trail t) eqn:Et.
      * apply is_lead_spec in El. apply is_trail_spec in Et.
        constructor; [exact (proj1 (pair_code_point c t El Et))|exact (IHr Hr)].
      * constructor; [exact Hrep|exact (IHtr Htr)].
    + destruct (is_trail c) eqn:Et; constructor; auto.
Qed.

(** X23: whatever the secret and the password, decrypting the encrypted
    secret under the same password returns the secret as the encoder read
    it: each surrogate outside a pair replaced by U+FFFD, and a byte order
    mark at its start removed.  AES-GCM is assumed to decrypt what it
    encrypted. *)
Theorem decryption_returns_the_encoded_secret (pf : Platform)
  (secret password : jsstring) (r : source) :
  AES_GCM_correct pf ->
  Forall (fun c => is_code_unit c = true) secret ->
  decryptApiKey pf (fst (encryptApiKey pf secret password r)) password
  = Some (utf16_encode (strip_BOM (to_scalars secret))).
Proof.
  intros Hgcm Hs. rewrite decrypt_encrypt by exact Hgcm.
  unfold TextDecoder_decode, TextEncoder_encode.
  now rewrite utf8_decode_encode by now apply to_scalars_are_scalars.
Qed.

(** A key between a byte order mark and a surrogate on its own. *)
Lemma decryption_returns_the_encoded_secret_witness :
  let secret := 65279 :: of_string "sk" ++ [55357] in
  AES_GCM_correct Stub.platform
  /\ Forall (fun c => is_code_unit c = true) secret
  /\ decryptApiKey Stub.platform
       (fst (encryptApiKey Stub.platform secret (of_string "00ff") Stub.entropy))
       (of_string "00ff")
     = Some (of_string "sk" ++ [65533]).
Proof.
  intros secret.
  assert (Hs : Forall (fun c => is_code_unit c = true) secret)
    by (repeat (constructor; [reflexivity|]); constructor).
  split; [exact stub_AES_GCM_correct|]. split; [exact Hs|].
  exact (decryption_returns_the_encoded_secret Stub.platform secret
           (of_string "00ff") Stub.entropy stub_AES_GCM_correct Hs).
Defined.

End SanitisedSecret.

(** ** Failures without a status *)

Section FallbackFacts.
Import Json JsonOps Js Text Vault Store Http Gateway Props Facts Content Callers.

Variable pf : Platform.
Variable w : World.

Lemma getMessage_or_not_empty (name fallback : string) :
  fallback <> EmptyString ->
  String.eqb (getMessage_or pf name fallback) EmptyString = false.
Proof.
  intros Hf. unfold getMessage_or.
  destruct (String.eqb (getMessage pf name []) EmptyString) eqn:E;
    [now apply String.eqb_neq|exact E].
Qed.

(** X24: the status of a failure that the gateway answers is the status
    of the error response that the provider gave to the request of the
    call, and its payload is the payload of that response.  Every other
    failure (a call turned down before the exchange, no connection, a reply
    that cannot be read, a write that storage refuses) carries no status,
    no payload and no flag.  Of such a failure
    [proceedWithFlashcardGeneration] and [regenerateContent] show their own
    message of fallback, [requestTranslation] shows the text of the error
    as the gateway sent it, and
    [proceedWithFlashcardGenerationWithTranslation] shows nothing. *)
Theorem failure_without_status_shows_the_fallback
  (request : ChatRequest) (st : State) (error : string) (status : option Z)
  (errorData : option value) (provider : option string) (flag : bool)
  (st' : State) :
  onMessage_callChatGPTAPI pf w request st
  = (Some (Failure error status errorData provider flag), st') ->
  match status with
  | Some n =>
      exists sent_request response,
        sent st' = sent_request :: sent st
        /\ fetch w sent_request = FetchResolves response
        /\ ok response = false
        /\ n = Http.status response
        /\ errorData = Some (error_payload response)
  | None =>
      errorData = None /\ flag = false
      /\ forall (settings : Storage) (caller : Caller),
           shown_for_failure pf settings caller error status errorData provider
             flag
           = match caller with
             | RegenerateContent part =>
                 Message ("errorRegenerating" +:+ capitalized part)
             | ProceedWithFlashcardGeneration =>
                 Message "errorCreatingFlashcard"
             | RequestTranslation =>
                 Text (showErrorToast pf
                         (if String.eqb error EmptyString
                          then getMessage_or pf "errorGeneratingTranslation"
                                 "Error generating translation"
                          else error))
             | ProceedWithFlashcardGenerationWithTranslation => Nothing
             end
  end.
Proof.
  intros H.
  apply onMessage_callChatGPTAPI_failure in H
    as [(-> & -> & ->)
       |(sent_request & response & Hs & Hf & Hok & _ & -> & ->)].
  2:{ exists sent_request, response. auto. }
  split; [reflexivity|]. split; [reflexivity|].
  intros settings [part| | |]; try reflexivity.
  cbn [shown_for_failure requestTranslation_callback].
  unfold processTranslationRequest_failure.
  destruct (String.eqb error EmptyString) eqn:E; [|now rewrite E].
  now rewrite getMessage_or_not_empty by discriminate.
Qed.

End FallbackFacts.

Section FallbackExamples.
Import Json JsonOps Js Text Vault Store Http Gateway Props Facts Content Callers.

(** Without a connection the status is missing: the page that makes a
    flashcard shows its fallback, not the message of the network, and the
    translation shows the text of the error. *)
Lemma failure_without_status_shows_the_fallback_witness :
  let w := Stub.world Stub.offline in
  let run :=
    onMessage_callChatGPTAPI Stub.platform w (Stub.flashcard_request "Bonjour")
      Stub.installed in
  let settings := storage Stub.installed in
  run = (Some (Failure "Failed to fetch" None None (Some "openai") false),
         snd run)
  /\ shown_for_failure Stub.platform settings ProceedWithFlashcardGeneration
       "Failed to fetch" None None (Some "openai") false
     = Message "errorCreatingFlashcard"
  /\ shown_for_failure Stub.platform settings RequestTranslation
       "Failed to fetch" None None (Some "openai") false
     = Text "translationError: Failed to fetch".
Proof.
  intros w run settings.
  assert (Hf : fst run
               = Some (Failure "Failed to fetch" None None (Some "openai") false))
    by (vm_compute; reflexivity).
  assert (H : run = (Some (Failure "Failed to fetch" None None (Some "openai")
                             false), snd run))
    by (rewrite <- Hf; apply surjective_pairing).
  split; [exact H|].
  destruct (failure_without_status_shows_the_fallback Stub.platform w
              (Stub.flashcard_request "Bonjour") Stub.installed
              "Failed to fetch" None None (Some "openai") false (snd run) H)
    as (_ & _ & Hshown).
  split; [exact (Hshown settings ProceedWithFlashcardGeneration)|].
  exact (Hshown settings RequestTranslation).
Defined.

End FallbackExamples.
